(** * bzlgen: label resolution, dependency extraction and buildozer invocation

    A shallow embedding of the TypeScript sources of bzlgen
    ([workspace.ts], [generators/ts/ts.generator.ts], [flags.ts]) together
    with the properties its specification states about them.

    Conventions.
    - JavaScript strings are [string]; [Map<string, _>] is [gmap string _];
      [Set<string>] is an insertion-ordered duplicate-free [list string]
      (the order is observable through [Array.from]).
    - Node's [path] module is embedded in its POSIX flavour ([Path]).
    - Code that touches the file system, the logger, subprocesses or the
      mutable fields of [Workspace] runs in the monad [M], a state monad
      with JavaScript exceptions.
    - [resolveAbsolute] is a general recursion; it carries a fuel argument
      and reports [OutOfFuel] when the fuel is exhausted. *)

From Stdlib Require Import String Ascii List ZArith Lia Bool DecimalString.
From stdpp Require Import base option list gmap strings.
Import ListNotations.

Local Open Scope string_scope.

(** ** JavaScript string primitives *)

Module Js.

(** [s.startsWith(p)] *)
Definition startsWith (s p : string) : bool := String.prefix p s.

(** [s.endsWith(p)]: some suffix of [s] is [p]. *)
Fixpoint endsWith (s p : string) : bool :=
  if String.eqb s p then true
  else match s with
       | EmptyString => false
       | String _ s' => endsWith s' p
       end.

(** [s.split(c)] for a one-character separator [c]; never empty. *)
Fixpoint split (c : ascii) (s : string) : list string :=
  match s with
  | EmptyString => [EmptyString]
  | String a s' =>
      if Ascii.eqb a c then EmptyString :: split c s'
      else match split c s' with
           | [] => [String a EmptyString]
           | w :: ws => String a w :: ws
           end
  end.

(** [l.join(sep)] *)
Definition join (sep : string) (l : list string) : string := String.concat sep l.

(** The replacement text of [String.prototype.replace] for one match of a
    pattern without capture groups: in [template], [$$] stands for a dollar
    sign, [$&] for the matched text, [$`] for the text before the match and
    [$'] for the text after it; every other character stands for itself. *)
Fixpoint expandReplacement (template before matched after : string) : string :=
  match template with
  | EmptyString => EmptyString
  | String a t =>
      if Ascii.eqb a "$" then
        match t with
        | String b t' =>
            if Ascii.eqb b "$" then
              String "$" (expandReplacement t' before matched after)
            else if Ascii.eqb b "&" then
              matched ++ expandReplacement t' before matched after
            else if Ascii.eqb b "`" then
              before ++ expandReplacement t' before matched after
            else if Ascii.eqb b "'" then
              after ++ expandReplacement t' before matched after
            else String a (expandReplacement t before matched after)
        | EmptyString => String a EmptyString
        end
      else String a (expandReplacement t before matched after)
  end.

(** [before] is the part of the subject that precedes [s]. *)
Fixpoint replaceAllFrom (c : ascii) (r : string) (before s : string) : string :=
  match s with
  | EmptyString => EmptyString
  | String a s' =>
      if Ascii.eqb a c
      then expandReplacement r before (String c EmptyString) s'
             ++ replaceAllFrom c r (before ++ String a EmptyString) s'
      else String a (replaceAllFrom c r (before ++ String a EmptyString) s')
  end.

(** [s.replace(/c/g, r)] for a one-character pattern [c]. *)
Definition replaceAll (c : ascii) (r : string) (s : string) : string :=
  replaceAllFrom c r EmptyString s.

Definition isSpace (a : ascii) : bool :=
  let n := nat_of_ascii a in
  ((9 <=? n) && (n <=? 13))%nat || (n =? 32)%nat.

Fixpoint trimStart (s : string) : string :=
  match s with
  | String a s' => if isSpace a then trimStart s' else s
  | EmptyString => EmptyString
  end.

Definition rev (s : string) : string :=
  string_of_list_ascii (List.rev (list_ascii_of_string s)).

(** [s.trim()] on ASCII white space. *)
Definition trim (s : string) : string := rev (trimStart (rev (trimStart s))).

(** [s.includes(c)] for a character [c]. *)
Fixpoint hasChar (c : ascii) (s : string) : bool :=
  match s with
  | EmptyString => false
  | String a s' => Ascii.eqb a c || hasChar c s'
  end.

(** Truthiness of a string: the empty string is falsy. *)
Definition truthy (s : string) : bool := negb (String.eqb s "").

(** Truthiness of [string | undefined]. *)
Definition truthy_opt (o : option string) : bool :=
  match o with Some s => truthy s | None => false end.

End Js.

(** ** Node's [path] module (POSIX)

    [normalizeString] walks the path one character at a time; segment by
    segment this is: drop empty and ["."] segments, let [".."] remove the
    previous segment unless there is none or it is itself [".."] (then keep
    it when the path is relative), and keep every other segment. *)

Module Path.

Definition sep : ascii := "/"%char.

Definition isSlash (a : ascii) : bool := Ascii.eqb a sep.

(** [res] is the stack of segments kept so far, innermost first. *)
Fixpoint normalizeSegments (allowAboveRoot : bool) (segs : list string)
         (res : list string) : list string :=
  match segs with
  | [] => List.rev res
  | seg :: rest =>
      if String.eqb seg "" || String.eqb seg "." then
        normalizeSegments allowAboveRoot rest res
      else if String.eqb seg ".." then
        match res with
        | top :: res' =>
            if String.eqb top ".." then
              normalizeSegments allowAboveRoot rest
                (if allowAboveRoot then ".." :: res else res)
            else normalizeSegments allowAboveRoot rest res'
        | [] =>
            normalizeSegments allowAboveRoot rest
              (if allowAboveRoot then [".."] else [])
        end
      else normalizeSegments allowAboveRoot rest (seg :: res)
  end.

Definition normalizeString (path : string) (allowAboveRoot : bool) : string :=
  Js.join "/" (normalizeSegments allowAboveRoot (Js.split sep path) []).

Definition isAbsolute (path : string) : bool := Js.startsWith path "/".

Definition normalize (path : string) : string :=
  if String.eqb path "" then "."
  else
    let isAbs := isAbsolute path in
    let trailingSeparator := Js.endsWith path "/" in
    let p := normalizeString path (negb isAbs) in
    if String.eqb p "" then
      if isAbs then "/" else if trailingSeparator then "./" else "."
    else
      let p := if trailingSeparator then p ++ "/" else p in
      if isAbs then "/" ++ p else p.

(** [join(...args)] *)
Definition join (args : list string) : string :=
  match List.filter Js.truthy args with
  | [] => "."
  | parts => normalize (Js.join "/" parts)
  end.

Record ParsedPath : Type := {
  root : string;
  dir : string;
  base : string;
  ext : string;
  name : string
}.

Fixpoint takeWhile (f : ascii -> bool) (l : list ascii) : list ascii :=
  match l with
  | a :: l' => if f a then a :: takeWhile f l' else []
  | [] => []
  end.

Fixpoint dropWhile (f : ascii -> bool) (l : list ascii) : list ascii :=
  match l with
  | a :: l' => if f a then dropWhile f l' else l
  | [] => []
  end.

Definition isDot (a : ascii) : bool := Ascii.eqb a "."%char.

(** [parse(path)]: the scan runs from the end of the string, skipping
    trailing separators, down to the separator that precedes the last
    segment; a leading separator of an absolute path is not scanned. *)
Definition parse (path : string) : ParsedPath :=
  let isAbs := isAbsolute path in
  let rt := if isAbs then "/" else "" in
  let chars := list_ascii_of_string path in
  let scanned := if isAbs then List.tl chars else chars in
  let r := dropWhile isSlash (List.rev scanned) in
  let base_rev := takeWhile (fun a => negb (isSlash a)) r in
  let before := dropWhile (fun a => negb (isSlash a)) r in
  let b := string_of_list_ascii (List.rev base_rev) in
  let d := match before with
           | [] => rt
           | _ :: d_rev => rt ++ string_of_list_ascii (List.rev d_rev)
           end in
  let ext_rev := takeWhile (fun a => negb (isDot a)) base_rev in
  let name_rev := List.tl (dropWhile (fun a => negb (isDot a)) base_rev) in
  let hasDot := existsb isDot base_rev in
  if negb hasDot || String.eqb b ".."
     || match name_rev with [] => true | _ => false end
  then {| root := rt; dir := d; base := b; ext := ""; name := b |}
  else {| root := rt; dir := d; base := b;
          ext := string_of_list_ascii (List.rev (ext_rev ++ ["."%char]));
          name := string_of_list_ascii (List.rev name_rev) |}.

End Path.

(** ** The world the tool runs in *)

(** What [lstatSync(p)] can tell about a path: [isFile()], [isDirectory()],
    or neither (a symbolic link, a socket, ...). *)
Inductive Kind : Type := KFile | KDir | KOther.

Inductive Node : Type :=
| NFile (content : string)
| NDir (entries : list string)
| NOther.

Definition kindOf (n : Node) : Kind :=
  match n with NFile _ => KFile | NDir _ => KDir | NOther => KOther end.

(** The file system, keyed by the exact path string handed to [fs]. *)
Abbreviation FS := (gmap string Node).

(** JavaScript exceptions and process termination. *)
Inductive Exn : Type :=
| JsError (message : string)      (* [throw new Error(message)] *)
| ENOENT (path : string)          (* [lstatSync], [readdirSync], [readFileSync] *)
| ENOTDIR (path : string)
| EISDIR (path : string)
| TypeError                       (* a [path] function applied to [undefined] *)
| ProcessExit (code : Z).         (* [fatal] *)

(** Where a console line comes from: the logger's [log], [warn], [debug] and
    [fatal], or the output of a subprocess that [shell.exec] echoes. *)
Inductive Level : Type := LLog | LWarn | LDebug | LFatal | LStdout | LStderr.

(** What [shell.exec] returns. *)
Record ExecResult : Type := {
  code : Z;
  stdout : string;
  stderr : string
}.

(** The calls made on the [Buildozer] builder, in call order. *)
Inductive BuilderCall (L : Type) : Type :=
| NewTsLibraryRule (label : L)
| SetSrcs (srcs : list string)
| AddDeps (deps : list string)
| SetTsconfig (label : string)
| SetVisibility (visibility : string).
Arguments NewTsLibraryRule {L} _.
Arguments SetSrcs {L} _.
Arguments AddDeps {L} _.
Arguments SetTsconfig {L} _.
Arguments SetVisibility {L} _.

(** The code this development takes as given: [label.ts] and [buildozer.ts]
    of the repository, lodash's [kebabCase], tsquery, and the subprocesses
    run through [shell.exec]. *)
Class Collaborators : Type := {
  (** [Label], an immutable value object *)
  Label : Type;
  (** [Label.parseAbsolute(text)] *)
  parseAbsolute : string -> Label;
  (** [label.toString()] *)
  toString : Label -> string;
  (** [kebabCase(text)] *)
  kebabCase : string -> string;
  (** [buildozer.toCommands()] on the calls recorded so far *)
  toCommands : list (BuilderCall Label) -> list string;
  (** [shell.exec(cmd, { cwd })]: the result, and the file system the
      subprocess leaves behind *)
  exec : string -> string -> FS -> ExecResult * FS;
  (** the text of the module specifier of every import declaration, and of
      every export declaration, that has a string literal
      ([tsquery(ast, IMPORTS_QUERY)], [tsquery(ast, EXPORTS_QUERY)] followed
      by [node.moduleSpecifier.getText()]) *)
  moduleSpecifiers : string -> list string * list string
}.

(** [Flags], restricted to the fields the modelled code reads. *)
Record Flags : Type := {
  path : string;
  base_dir : string;
  suffix_separator : string;
  label_mapping : gmap string string;
  generate_build_files : bool;
  nuke_build_file : bool;
  build_file_name : string;
  buildozer_commands_file : string;
  clean_commands_file : bool;
  ignore_spec_files : bool;
  default_visibility : string;
  use_bazel_query : bool;
  verbose_import_mappings : bool;
  debug : bool;
  output_buildozer_to_console : bool;
  bzl_binary : string;
  buildozer_binary : string;
  npm_workspace_name : string;
  ts_config_label : string
}.

(** ** Mutable state and the monad of effects *)

Section Bzlgen.

Context `{C : Collaborators}.

Record State : Type := mkState {
  (** the file system *)
  fs : FS;
  (** [Workspace.listing], read lazily and once *)
  listing : option (list string);
  (** [Workspace.fileQueryResultCache] *)
  fileQueryResultCache : gmap string Label;
  (** the calls recorded by the workspace's [Buildozer] *)
  buildozer : list (BuilderCall Label);
  (** lines handed to the logger, oldest first *)
  console : list (Level * string);
  (** command lines run through [shell.exec], oldest first *)
  spawned : list string;
  (** paths read through [readFileSync], oldest first *)
  reads : list string
}.

Inductive Outcome (A : Type) : Type :=
| Returned (a : A) (s : State)
| Thrown (e : Exn) (s : State)
| OutOfFuel.
Arguments Returned {A} _ _.
Arguments Thrown {A} _ _.
Arguments OutOfFuel {A}.

Definition M (A : Type) : Type := State -> Outcome A.

Definition ret {A} (a : A) : M A := fun s => Returned a s.

Definition bind {A B} (m : M A) (k : A -> M B) : M B :=
  fun s =>
    match m s with
    | Returned a s' => k a s'
    | Thrown e s' => Thrown e s'
    | OutOfFuel => OutOfFuel
    end.

Definition throw {A} (e : Exn) : M A := fun s => Thrown e s.

Notation "'let*' x ':=' m 'in' k" := (bind m (fun x => k))
  (at level 61, x name, m at next level, k at level 200).
Notation "m ';;' k" := (bind m (fun _ => k))
  (at level 100, k at level 200, right associativity).

(** [xs.map(f)] where [f] has effects: left to right, an exception stops
    the traversal. *)
Fixpoint mapM {A B} (f : A -> M B) (xs : list A) : M (list B) :=
  match xs with
  | [] => ret []
  | x :: xs' =>
      let* y := f x in
      let* ys := mapM f xs' in
      ret (y :: ys)
  end.

(** [xs.forEach(x => f(x, acc))] for an accumulator mutated in place. *)
Fixpoint foldM {A B} (f : B -> A -> M B) (xs : list A) (acc : B) : M B :=
  match xs with
  | [] => ret acc
  | x :: xs' => let* acc' := f acc x in foldM f xs' acc'
  end.

(** *** The logger *)

Definition emit (l : Level) (msg : string) : M unit :=
  fun s => Returned tt
    (mkState (fs s) (listing s) (fileQueryResultCache s) (buildozer s)
             (console s ++ [(l, msg)]) (spawned s) (reads s)).

Definition log := emit LLog.
Definition warn := emit LWarn.
Definition debugLog := emit LDebug.
Definition lb : M unit := emit LLog "".

(** Modelled from the spec: [fatal] (logger.ts) prints one explanatory line
    and exits non-zero. *)
Definition fatal {A} (msg : string) : M A :=
  emit LFatal msg ;; throw (ProcessExit 1).

(** ** [flags.ts]: the positional [path] *)

Definition escapeMessage : string := "Path must not attempt to escape base_dir".

(** The [coerce] function of the positional [path]. *)
Definition coercePath (arg : string) : M string :=
  (if Js.startsWith arg ".." then fatal escapeMessage else ret tt) ;;
  ret arg.

(** The positional is declared with [normalize: true] and [coerce]; in
    which order yargs applies the two is yargs' business, and both orders
    are modelled. *)
Inductive YargsOrder : Type := NormalizeFirst | CoerceFirst.

Definition positionalPath (order : YargsOrder) (raw : string) : M string :=
  match order with
  | NormalizeFirst => coercePath (Path.normalize raw)
  | CoerceFirst =>
      let* arg := coercePath raw in
      ret (Path.normalize arg)
  end.

(** *** [fs] and [shelljs] *)

(** The file system is keyed by whole paths: a path one of whose leading
    components is no directory is simply absent, and the model says
    [ENOENT] where Node says [ENOTDIR]. *)
Definition lstatSync (p : string) : M Kind :=
  fun s =>
    match fs s !! p with
    | Some n => Returned (kindOf n) s
    | None => Thrown (ENOENT p) s
    end.

Definition readdirSync (p : string) : M (list string) :=
  fun s =>
    match fs s !! p with
    | Some (NDir entries) => Returned entries s
    | Some _ => Thrown (ENOTDIR p) s
    | None => Thrown (ENOENT p) s
    end.

Definition readFileSync (p : string) : M string :=
  fun s =>
    match fs s !! p with
    | Some (NFile content) =>
        Returned content
          (mkState (fs s) (listing s) (fileQueryResultCache s) (buildozer s)
                   (console s) (spawned s) (reads s ++ [p]))
    | Some (NDir _) => Thrown (EISDIR p) s
    | Some NOther => Thrown (ENOENT p) s  (* nothing readable at [p] *)
    | None => Thrown (ENOENT p) s
    end.

Definition updateFs (f : FS -> FS) : M unit :=
  fun s => Returned tt
    (mkState (f (fs s)) (listing s) (fileQueryResultCache s) (buildozer s)
             (console s) (spawned s) (reads s)).

(** Why [p] cannot be written, if it cannot: [p] is a directory, or the
    directory that is to hold [p] is missing or is no directory.  For a
    bare file name that directory is the working directory, which the file
    system holds under the empty path. *)
Definition writeError (m : FS) (p : string) : option Exn :=
  match m !! p with
  | Some (NDir _) => Some (EISDIR p)
  | _ =>
      match m !! Path.dir (Path.parse p) with
      | Some (NDir _) => None
      | Some _ => Some (ENOTDIR p)
      | None => Some (ENOENT p)
      end
  end.

(** [writeFileSync(p, data)] creates or replaces the file [p]. *)
Definition writeFileSync (p data : string) : M unit :=
  fun s =>
    match writeError (fs s) p with
    | Some e => Thrown e s
    | None => updateFs (fun m => <[p := NFile data]> m) s
    end.

(** [shell.rm(p)] *)
Definition shellRm (p : string) : M unit := updateFs (fun m => delete p m).

(** [shell.touch(p)] *)
Definition shellTouch (p : string) : M unit :=
  updateFs (fun m => match m !! p with
                     | Some _ => m
                     | None => <[p := NFile ""]> m
                     end).

(** [shell.exec(cmd, { cwd, silent })]; unless [silent], the output of the
    subprocess is echoed to the console. *)
Definition shellExec (cmd cwd : string) (silent : bool) : M ExecResult :=
  fun s =>
    let '(r, fs') := exec cmd cwd (fs s) in
    Returned r
      (mkState fs' (listing s) (fileQueryResultCache s) (buildozer s)
               (if silent then console s
                else console s ++ [(LStdout, stdout r); (LStderr, stderr r)])
               (spawned s ++ [cmd]) (reads s)).

(** ** [workspace.ts] *)

Section Workspace.

Variable flags : Flags.

Definition getPath : string := path flags.

Definition getAbsolutePath : string := Path.join [base_dir flags; path flags].

Definition isDirectory : M bool :=
  let* k := lstatSync getAbsolutePath in
  ret (match k with KDir => true | _ => false end).

Definition isFile : M bool :=
  let* k := lstatSync getAbsolutePath in
  ret (match k with KFile => true | _ => false end).

Definition getPathFromBaseDir : string := Path.normalize getPath.

Definition getPathAsDirectory : M string :=
  let* f := isFile in
  ret (if f then Path.dir (Path.parse getPathFromBaseDir) else getPathFromBaseDir).

(** [if (!this.listing) { this.listing = readdirSync(this.flags.base_dir); }] *)
Definition getListing : M (list string) :=
  fun s =>
    match listing s with
    | Some l => Returned l s
    | None =>
        match readdirSync (base_dir flags) s with
        | Returned l s' =>
            Returned l
              (mkState (fs s') (Some l) (fileQueryResultCache s') (buildozer s')
                       (console s') (spawned s') (reads s'))
        | Thrown e s' => Thrown e s'
        | OutOfFuel => OutOfFuel
        end
    end.

(** [normalize(path).split(sep)[0]] *)
Definition firstSegment (p : string) : string :=
  List.hd "" (Js.split Path.sep (Path.normalize p)).

Definition includes (l : list string) (x : string) : bool :=
  existsb (String.eqb x) l.

Definition isWorkspaceRelative (p : string) : M bool :=
  let* l := getListing in
  ret (includes l (firstSegment p)).

Definition resolveRelativeToWorkspace (p : string) : M string :=
  let* wr := isWorkspaceRelative p in
  if wr then ret p
  else
    let* d := getPathAsDirectory in
    ret (Path.join [d; p]).

(** The recursion of [resolveAbsolute] is not structural: [fuel] bounds
    the number of calls. *)
Fixpoint resolveAbsolute (fuel : nat) (p : string) : M string :=
  match fuel with
  | O => fun _ => OutOfFuel
  | S fuel' =>
      if Path.isAbsolute p then ret p
      else
        let* wr := isWorkspaceRelative p in
        if wr then ret (Path.join [base_dir flags; p])
        else
          let* p' := resolveRelativeToWorkspace p in
          resolveAbsolute fuel' p'
  end.

Definition readFile (fuel : nat) (p : string) : M string :=
  let* abs := resolveAbsolute fuel p in
  readFileSync abs.

Definition readDirectory : M (list string) :=
  let* d := isDirectory in
  if negb d then ret []
  else
    let* entries := readdirSync getAbsolutePath in
    mapM resolveRelativeToWorkspace entries.

(** [tryResolveLabelFromStaticMapping(imp, defaultValue?, relativePrefix?)] *)
Definition tryResolveLabelFromStaticMapping (imp : string)
           (defaultValue relativePrefix : option string) : M (option Label) :=
  let* imp' :=
    match relativePrefix with
    | Some prefix =>
        if Js.truthy prefix && Js.startsWith imp prefix
        then resolveRelativeToWorkspace imp
        else ret imp
    | None => ret imp
    end in
  match label_mapping flags !! imp' with
  | None =>
      ret (match defaultValue with
           | Some d => if Js.truthy d then Some (parseAbsolute d) else None
           | None => None
           end)
  | Some label => ret (Some (parseAbsolute label))
  end.

(** [getLabelFor(path, target?)]; an absent target is the empty string,
    which is falsy like [undefined]. *)
Definition getLabelFor (fuel : nat) (p : string) (target : string) : M Label :=
  let* p := resolveRelativeToWorkspace p in
  let* staticLabel := tryResolveLabelFromStaticMapping p None None in
  match staticLabel with
  | Some l => ret l
  | None =>
      let* abs := resolveAbsolute fuel p in
      let* k := lstatSync abs in
      let label := match k with KFile => Path.dir (Path.parse p) | _ => p end in
      let label := if Js.truthy target then label ++ ":" ++ target else label in
      ret (parseAbsolute ("//" ++ label))
  end.

Definition getLabelForPath (fuel : nat) : M Label :=
  getLabelFor fuel (path flags) "".

(** The double quote character. *)
Definition quote : string := String (ascii_of_nat 34) "".

Definition queryCommand (file : string) : string :=
  let parts := Js.split "/"%char file in
  let name := List.last parts "" in
  let label := "//" ++ Js.join "/" (List.removelast parts) ++ ":" ++ name in
  let term := quote ++ "attr('src', " ++ label ++ ", //...)" ++ quote in
  let term2 := quote ++ "attr('srcs', " ++ label ++ ", //...)" ++ quote in
  let queryFlags := "--output label --order_output=no" in
  bzl_binary flags ++ " query " ++ queryFlags ++ " " ++ term ++ " + " ++ term2.

Definition setCache (file : string) (l : Label) : M unit :=
  fun s => Returned tt
    (mkState (fs s) (listing s) (<[file := l]> (fileQueryResultCache s))
             (buildozer s) (console s) (spawned s) (reads s)).

Definition queryForFile (file : string) : M (option Label) :=
  fun s =>
    match fileQueryResultCache s !! file with
    | Some l => Returned (Some l) s
    | None =>
        (debugLog ("Query for containing rule with for file " ++ file) ;;
         let* result :=
           shellExec (queryCommand file) (base_dir flags) (negb (debug flags)) in
         if (code result =? 0)%Z then
           let rule := Js.trim (stdout result) in
           if Js.truthy rule then
             let label := parseAbsolute rule in
             setCache file label ;;
             ret (Some label)
           else ret None
         else ret None) s
    end.

(** [getLabelForFile(path, suffix?, stripFileExt = true)] *)
Definition getLabelForFile (fuel : nat) (p : string) (suffix : string)
           (stripFileExt : bool) : M Label :=
  let* p := resolveRelativeToWorkspace p in
  let* staticLabel := tryResolveLabelFromStaticMapping p None None in
  match staticLabel with
  | Some l => ret l
  | None =>
      let* queryLabel :=
        if use_bazel_query flags then queryForFile p else ret None in
      match queryLabel with
      | Some l => ret l
      | None =>
          let parsed := Path.parse p in
          let snake :=
            kebabCase (if stripFileExt then Path.name parsed else Path.base parsed) in
          let snake :=
            if negb (String.eqb (suffix_separator flags) "-")
            then Js.replaceAll "-"%char (suffix_separator flags) snake
            else snake in
          let snake :=
            if Js.truthy suffix
            then snake ++ suffix_separator flags ++ suffix
            else snake in
          getLabelFor fuel (Path.dir parsed) snake
      end
  end.

Definition getBuildFilePath : M string :=
  let* d := isDirectory in
  ret (if d then Path.join [getAbsolutePath; build_file_name flags]
       else Path.join [getAbsolutePath; ".."; build_file_name flags]).

(** The [try] covers [lstatSync] only; [getBuildFilePath] runs before it. *)
Definition hasBuildFileAtPath : M bool :=
  let* buildFilePath := getBuildFilePath in
  fun s =>
    match fs s !! buildFilePath with
    | Some n => Returned (match kindOf n with KFile => true | _ => false end) s
    | None => Returned false s
    end.

Definition newline : string := String (ascii_of_nat 10) "".

Definition showNat (n : nat) : string :=
  NilZero.string_of_uint (Nat.to_uint n).

Definition buildozerCommandsFilePath : string :=
  Path.join [base_dir flags; buildozer_commands_file flags].

Definition buildozerCommand : string :=
  buildozer_binary flags ++ " -shorten_labels -eol-comments=true -k -f "
    ++ buildozerCommandsFilePath.

Definition noCommandsWarning : string := "No buildozer commands were generated".

(** Lines 328-332: the commands echoed to the console on request. *)
Definition announceCommands (commands : list string) (commandsForFile : string)
  : M unit :=
  if output_buildozer_to_console flags then
    log ("Generated " ++ showNat (List.length commands) ++ " buildozer commands:") ;;
    log (newline ++ commandsForFile) ;;
    lb
  else ret tt.

(** Lines 345-351: the build file is emptied or created. *)
Definition prepareBuildFile : M unit :=
  let* hasBuildFile := hasBuildFileAtPath in
  if hasBuildFile && nuke_build_file flags then
    let* p := getBuildFilePath in
    shellRm p ;;
    let* p' := getBuildFilePath in
    shellTouch p'
  else if negb hasBuildFile then
    let* p := getBuildFilePath in
    shellTouch p
  else ret tt.

(** Lines 355-357: the command file is removed after a successful run. *)
Definition cleanCommandsFile (result : ExecResult) : M unit :=
  if ((code result =? 0)%Z || (code result =? 3)%Z) && clean_commands_file flags
  then shellRm buildozerCommandsFilePath
  else ret tt.

Definition invokeBuildozer : M unit :=
  if negb (Js.truthy (buildozer_commands_file flags)) then ret tt
  else
    let* commands := (fun s => Returned (toCommands (buildozer s)) s) in
    if (List.length commands =? 0)%nat then warn noCommandsWarning
    else
      let commandsForFile := Js.join newline commands in
      writeFileSync buildozerCommandsFilePath commandsForFile ;;
      announceCommands commands commandsForFile ;;
      if negb (generate_build_files flags) then
        log ("--no-generate_build_files set, not generating "
               ++ build_file_name flags ++ " files") ;;
        log ("buildozer commands file can be found at " ++ buildozerCommandsFilePath)
      else
        debugLog "Invoking buildozer:" ;;
        debugLog buildozerCommand ;;
        prepareBuildFile ;;
        let* result := shellExec buildozerCommand (base_dir flags) false in
        cleanCommandsFile result.

(** ** [generators/ts/ts.generator.ts] *)

(** [labels.add(x)] on a [Set<string>] *)
Definition setAdd (labels : list string) (x : string) : list string :=
  if includes labels x then labels else labels ++ [x].

(** [moduleSpecifier.getText().split(`'`)[1]] *)
Definition moduleSpecifierText (text : string) : option string :=
  nth_error (Js.split "'"%char text) 1.

Definition ensureTs (p : string) : string :=
  if Js.endsWith p ".ts" then p else p ++ ".ts".

Definition calculateTsDependencyLabel (fuel : nat) (imp npmWorkspace : string)
  : M Label :=
  let* label := tryResolveLabelFromStaticMapping imp None (Some ".") in
  match label with
  | Some l => ret l
  | None =>
      let* wr := isWorkspaceRelative imp in
      let relative := wr || Js.startsWith imp "." in
      if relative then
        (* [getLabelForFile] returns a [Label] object, which is truthy:
           [if (label) { return label; }] always returns, and the
           [throw] that follows it is never reached. *)
        getLabelForFile fuel (imp ++ ".ts") "" true
      else
        let pathParts := Js.split Path.sep imp in
        let reducedPathed :=
          if Js.startsWith imp "@"
          then Path.join (List.firstn 2 pathParts)
          else Path.join (List.firstn 1 pathParts) in
        ret (parseAbsolute ("@" ++ npmWorkspace ++ "//" ++ reducedPathed))
  end.

(** [resolveLabelFromModuleSpecifier], given the text of the specifier
    expression; [None] is [undefined]. *)
Definition resolveLabelFromModuleSpecifier (fuel : nat) (specifierText : string)
           (tsFiles : list string) (npmWorkspace : string) : M (option Label) :=
  match moduleSpecifierText specifierText with
  | None =>
      (* [resolveRelativeToWorkspace(undefined)]: the listing is read,
         then [normalize] rejects its argument *)
      getListing ;; throw TypeError
  | Some moduleSpecifierText =>
      let* workspaceRelativeImport :=
        resolveRelativeToWorkspace moduleSpecifierText in
      if includes tsFiles (ensureTs workspaceRelativeImport) then ret None
      else
        let* label := calculateTsDependencyLabel fuel moduleSpecifierText npmWorkspace in
        (if verbose_import_mappings flags
         then log (moduleSpecifierText ++ "=" ++ toString label)
         else ret tt) ;;
        ret (Some label)
  end.

(** [.filter(label => !!label).forEach(label => labels.add(label.toString()))] *)
Definition addLabels (resolved : list (option Label)) (labels : list string)
  : list string :=
  List.fold_left
    (fun acc o => match o with Some l => setAdd acc (toString l) | None => acc end)
    resolved labels.

(** [processTsFileAst], given the specifier texts the two queries select. *)
Definition processTsFileAst (fuel : nat) (imports exports : list string)
           (tsFiles : list string) (npmWorkspace : string) (labels : list string)
  : M (list string) :=
  let* fromImports :=
    mapM (fun t => resolveLabelFromModuleSpecifier fuel t tsFiles npmWorkspace)
         imports in
  let labels := addLabels fromImports labels in
  let* fromExports :=
    mapM (fun t => resolveLabelFromModuleSpecifier fuel t tsFiles npmWorkspace)
         exports in
  ret (addLabels fromExports labels).

Definition processFile (fuel : nat) (filePath : string) (tsFiles : list string)
           (npmWorkspace : string) (labels : list string) : M (list string) :=
  let* file := readFile fuel filePath in
  let ast := moduleSpecifiers file in
  processTsFileAst fuel (fst ast) (snd ast) tsFiles npmWorkspace labels.

Definition record (calls : list (BuilderCall Label)) : M unit :=
  fun s => Returned tt
    (mkState (fs s) (listing s) (fileQueryResultCache s) (buildozer s ++ calls)
             (console s) (spawned s) (reads s)).

(** The source files of the rule: [files.filter(...).filter(...)]. *)
Definition selectTsFiles (files : list string) : list string :=
  List.filter
    (fun file => negb (ignore_spec_files flags && Js.endsWith file ".spec.ts"))
    (List.filter (fun file => Js.endsWith file ".ts") files).

Definition generate (fuel : nat) : M unit :=
  let* files := readDirectory in
  let tsFiles := selectTsFiles files in
  let* deps :=
    foldM (fun deps file =>
             processFile fuel file tsFiles (npm_workspace_name flags) deps)
          tsFiles [] in
  let* label := getLabelForPath fuel in
  record [NewTsLibraryRule label;
          SetSrcs (List.map (fun p => Path.base (Path.parse p)) tsFiles);
          AddDeps deps] ;;
  (if Js.truthy (ts_config_label flags)
   then record [SetTsconfig (ts_config_label flags)] else ret tt) ;;
  (if Js.truthy (default_visibility flags)
   then record [SetVisibility (default_visibility flags)] else ret tt).

End Workspace.

End Bzlgen.

Arguments Returned {C A} _ _.
Arguments Thrown {C A} _ _.
Arguments OutOfFuel {C A}.

Notation "'let*' x ':=' m 'in' k" := (bind m (fun x => k))
  (at level 61, x name, m at next level, k at level 200).
Notation "m ';;' k" := (bind m (fun _ => k))
  (at level 100, k at level 200, right associativity).

(** ** Vocabulary for the statements

    What the resolution functions compute, read off a state in which the
    top-level listing of [base_dir] is available and the analysed path
    exists. *)

Section Views.

Context `{C : Collaborators}.

Variable flags : Flags.

(** The state after [Workspace.listing] has been filled with [l]. *)
Definition cached (l : list string) (s : State) : State :=
  mkState (fs s) (Some l) (fileQueryResultCache s) (buildozer s)
          (console s) (spawned s) (reads s).

(** The listing [isWorkspaceRelative] works with: the cached one, else
    the entries of [base_dir] on disk. *)
Definition theListing (s : State) : option (list string) :=
  match listing s with
  | Some l => Some l
  | None =>
      match fs s !! base_dir flags with
      | Some (NDir entries) => Some entries
      | _ => None
      end
  end.

Definition wsRelative (l : list string) (p : string) : bool :=
  includes l (firstSegment p).

(** The value of [getPathAsDirectory] when the analysed path is node [n]. *)
Definition asDirectory (n : Node) : string :=
  match kindOf n with
  | KFile => Path.dir (Path.parse (getPathFromBaseDir flags))
  | _ => getPathFromBaseDir flags
  end.

(** The value of [resolveRelativeToWorkspace] under listing [l] and
    analysed directory [d]. *)
Definition resolveRel (l : list string) (d p : string) : string :=
  if wsRelative l p then p else Path.join [d; p].

(** The listing of [base_dir] is [l] and the analysed path exists, with
    [d] its directory. *)
Definition Readable (s : State) (l : list string) (d : string) : Prop :=
  theListing s = Some l /\
  exists n, fs s !! getAbsolutePath flags = Some n /\ d = asDirectory n.

(** The key under which the cascade looks a specifier up in the static
    mapping. *)
Definition staticKey (l : list string) (d imp : string) : string :=
  if Js.startsWith imp "." then resolveRel l d imp else imp.

(** A specifier that the extractor takes for a file of the rule itself. *)
Definition selfImport (l : list string) (d : string) (tsFiles : list string)
           (specifierText : string) : Prop :=
  exists spec, moduleSpecifierText specifierText = Some spec /\
               includes tsFiles (ensureTs (resolveRel l d spec)) = true.

(** The directory whose existence decides the heuristic for the relative
    specifier [imp]. *)
Definition containingDirectory (l : list string) (d imp : string) : string :=
  resolveRel l d (Path.dir (Path.parse (resolveRel l d (imp ++ ".ts")))).

(** The number of leading segments kept of a package specifier. *)
Definition keptSegments (imp : string) : nat :=
  if Js.startsWith imp "@" then 2 else 1.

(** A segment that names something: not empty, not ["."], not [".."]. *)
Definition plainSegment (seg : string) : Prop :=
  seg <> "" /\ seg <> "." /\ seg <> "..".

(** What [invokeBuildozer] does with [commands] before it runs the editor,
    on the path that reaches [shell.exec] (lines 324-351). *)
Definition beforeEditor (commands : list string) : M unit :=
  writeFileSync (buildozerCommandsFilePath flags) (Js.join newline commands) ;;
  announceCommands flags commands (Js.join newline commands) ;;
  debugLog "Invoking buildozer:" ;;
  debugLog (buildozerCommand flags) ;;
  prepareBuildFile flags.

(** [m], when it returns, relates the state it started in to the state it
    ends in by [R]. *)
Definition establishes {A} (R : State -> State -> Prop) (m : M A) : Prop :=
  forall s a s1, m s = Returned a s1 -> R s s1.

(** A console line that reports no problem. *)
Definition benign (line : Level * string) : Prop :=
  fst line = LLog \/ fst line = LDebug.

(** No subprocess was run, and the console gained harmless lines only. *)
Definition quiet (s s1 : State) : Prop :=
  spawned s1 = spawned s /\
  exists lines, console s1 = (console s ++ lines)%list /\ Forall benign lines.

(** Neither the recorded rules nor the read log changed. *)
Definition untouched (s s1 : State) : Prop :=
  buildozer s1 = buildozer s /\ reads s1 = reads s.

(** The state after the logger has been handed [msg] at level [l]. *)
Definition reported (l : Level) (msg : string) (s : State) : State :=
  mkState (fs s) (listing s) (fileQueryResultCache s) (buildozer s)
          (console s ++ [(l, msg)]) (spawned s) (reads s).

(** The first segment of a path is the parent-directory token. *)
Definition leadingTraversal (raw : string) : Prop :=
  raw = ".." \/ exists rest, raw = "../" ++ rest.

End Views.

(** ** Vocabulary for whole runs

    Relations between the state a computation starts in and the state it
    ends in, and the states the query leaves behind. *)

Section Relations.

Context `{C : Collaborators}.

(** [m] relates the state it starts in to the state it ends in by [R],
    whether it returns or throws. *)
Definition always {A} (R : State -> State -> Prop) (m : M A) : Prop :=
  forall s,
    match m s with
    | Returned _ s1 => R s s1
    | Thrown _ s1 => R s s1
    | OutOfFuel => True
    end.

(** The state after [readFileSync(p)] has returned. *)
Definition appendRead (p : string) (s : State) : State :=
  mkState (fs s) (listing s) (fileQueryResultCache s) (buildozer s)
          (console s) (spawned s) (reads s ++ [p]).

(** A listing that has been read stays as it is. *)
Definition listingKept (s s1 : State) : Prop :=
  forall l, listing s = Some l -> listing s1 = Some l.

(** Every cached query result stays as it is. *)
Definition cacheGrows (s s1 : State) : Prop :=
  forall file l, fileQueryResultCache s !! file = Some l ->
                 fileQueryResultCache s1 !! file = Some l.

(** Nothing outside the workspace object and the read log changed. *)
Definition readOnly (s s1 : State) : Prop :=
  fs s1 = fs s /\ spawned s1 = spawned s /\
  fileQueryResultCache s1 = fileQueryResultCache s /\ console s1 = console s.

(** No call was made on the [Buildozer]. *)
Definition rulesKept (s s1 : State) : Prop := buildozer s1 = buildozer s.

(** The result of the query subprocess for [file], run in state [s]. *)
Definition queryResult (flags : Flags) (file : string) (s : State) : ExecResult :=
  fst (exec (queryCommand flags file) (base_dir flags) (fs s)).

(** The debug line that announces the query. *)
Definition queryLine (file : string) : Level * string :=
  (LDebug, "Query for containing rule with for file " ++ file).

(** The state after the query subprocess for [file] has run in [s]. *)
Definition afterQuery (flags : Flags) (file : string) (s : State) : State :=
  mkState (snd (exec (queryCommand flags file) (base_dir flags) (fs s)))
          (listing s) (fileQueryResultCache s) (buildozer s)
          (if negb (debug flags)
           then console s ++ [queryLine file]
           else (console s ++ [queryLine file])
                  ++ [(LStdout, stdout (queryResult flags file s));
                      (LStderr, stderr (queryResult flags file s))])
          (spawned s ++ [queryCommand flags file]) (reads s).

(** The state after the label [l] has been cached for [file]. *)
Definition cachedQuery (file : string) (l : Label) (s : State) : State :=
  mkState (fs s) (listing s) (<[file := l]> (fileQueryResultCache s)) (buildozer s)
          (console s) (spawned s) (reads s).

(** The computation ended, by returning or by throwing, in state [s1]. *)
Definition endsIn {A} (o : Outcome A) (s1 : State) : Prop :=
  match o with
  | Returned _ s' => s' = s1
  | Thrown _ s' => s' = s1
  | OutOfFuel => False
  end.

(** [m'] agrees with [m] wherever [m] has enough fuel. *)
Definition refines {A} (m m' : M A) : Prop :=
  forall s, m s <> OutOfFuel -> m' s = m s.

(** The state after [calls] have been made on the [Buildozer]. *)
Definition recorded (calls : list (BuilderCall Label)) (s : State) : State :=
  mkState (fs s) (listing s) (fileQueryResultCache s) (buildozer s ++ calls)
          (console s) (spawned s) (reads s).

(** The target name [getLabelForFile] derives from the workspace-relative
    path [p] (lines 167-177). *)
Definition ruleName (flags : Flags) (p suffix : string) (stripFileExt : bool)
  : string :=
  let parsed := Path.parse p in
  let snake :=
    kebabCase (if stripFileExt then Path.name parsed else Path.base parsed) in
  let snake :=
    if negb (String.eqb (suffix_separator flags) "-")
    then Js.replaceAll "-"%char (suffix_separator flags) snake
    else snake in
  if Js.truthy suffix then snake ++ suffix_separator flags ++ suffix else snake.

(** The text [getLabelFor] parses its label from, for the workspace-relative
    path [p] that is node [n] on disk (lines 137-143). *)
Definition labelText (p target : string) (n : Node) : string :=
  let package :=
    match kindOf n with KFile => Path.dir (Path.parse p) | _ => p end in
  "//" ++ (if Js.truthy target then package ++ ":" ++ target else package).



(** The optional calls that end the rule of [generate]. *)
Definition ruleTail (flags : Flags) : list (BuilderCall Label) :=
  ((if Js.truthy (ts_config_label flags) then [SetTsconfig (ts_config_label flags)] else [])
   ++ (if Js.truthy (default_visibility flags)
       then [SetVisibility (default_visibility flags)] else []))%list.

End Relations.

(** ** The rest of [workspace.ts], [ts.generator.ts] and [flags.ts] *)

Section Startup.
Context `{C : Collaborators}.
Variable flags : Flags.

(** [readFileAtPath()]; [None] is [undefined]. *)
Definition readFileAtPath (fuel : nat) : M (option string) :=
  let* d := isDirectory flags in
  if d then ret None
  else
    let* content := readFile flags fuel (getPath flags) in
    ret (Some content).

(** [try { ok = lstatSync(p).isFile(); } catch (e) { fatal(msg); }] *)
Definition isFileOrFatal (p msg : string) : M bool :=
  fun s =>
    match fs s !! p with
    | Some n => Returned (match kindOf n with KFile => true | _ => false end) s
    | None => fatal msg s
    end.

(** [errorMessage] of [testBaseDirSupportsBazel] *)
Definition errorMessage : string :=
  "The workspace at " ++ base_dir flags ++ " does not appear to be a bazel workspace.".

Definition testBaseDirSupportsBazel : M bool :=
  let rootBuildFile := Path.join [base_dir flags; build_file_name flags] in
  let* hasRootBuildFile :=
    isFileOrFatal rootBuildFile
      (errorMessage ++ " Missing root " ++ build_file_name flags ++ " file") in
  (if negb hasRootBuildFile
   then fatal (errorMessage ++ " Root " ++ build_file_name flags ++ " file is not a file")
   else ret tt) ;;
  let workspaceFile := Path.join [base_dir flags; "WORKSPACE"] in
  let* hasWorkspaceFile :=
    isFileOrFatal workspaceFile (errorMessage ++ " Missing WORKSPACE file") in
  (if negb hasWorkspaceFile
   then fatal (errorMessage ++ " WORKSPACE file is not a file")
   else ret tt) ;;
  ret (hasRootBuildFile && hasWorkspaceFile).

(** [TsGenerator.validate()] *)
Definition validate : M bool :=
  let* d := isDirectory flags in
  (if negb d
   then fatal "Path passed to Typescript generator must be a directory"
   else ret tt) ;;
  ret true.

End Startup.

(** [coerceMappingFlag(loads)]: [new Map(items)] takes the first two
    elements of every item as key and value, a later key replacing an
    earlier one; a value that is [None] is [undefined]. *)
Definition coerceMappingFlag (loads : list string) : gmap string (option string) :=
  let items := List.map (Js.split "="%char) loads in
  List.fold_left (fun m item => <[List.hd "" item := nth_error item 1]> m) items ∅.

(** [path.resolve(...args)], with the working directory of the process. *)
Module PathResolve.

(** The loop runs from the last argument to the first and then to the
    working directory, until the path built so far is absolute. *)
Fixpoint resolveLoop (reversed : list string) (cwd resolvedPath : string)
  : string * bool :=
  match reversed with
  | [] =>
      if String.eqb cwd "" then (resolvedPath, false)
      else (cwd ++ "/" ++ resolvedPath, Path.isAbsolute cwd)
  | path :: rest =>
      if String.eqb path "" then resolveLoop rest cwd resolvedPath
      else if Path.isAbsolute path then (path ++ "/" ++ resolvedPath, true)
      else resolveLoop rest cwd (path ++ "/" ++ resolvedPath)
  end.

Definition resolve (cwd : string) (args : list string) : string :=
  let '(resolvedPath, resolvedAbsolute) := resolveLoop (List.rev args) cwd "" in
  let p := Path.normalizeString resolvedPath (negb resolvedAbsolute) in
  if resolvedAbsolute then "/" ++ p
  else if negb (String.eqb p "") then p else ".".

End PathResolve.

(** The [coerce] function of [base_dir], given the environment variable
    [BUILD_WORKSPACE_DIRECTORY] and [process.cwd()]. *)
Definition coerceBaseDir (bazelWorkspaceDir : option string) (cwd arg : string)
  : string :=
  if Path.isAbsolute arg then arg
  else
    match bazelWorkspaceDir with
    | Some dir =>
        if Js.truthy dir then Path.join [dir; arg]
        else PathResolve.resolve cwd [cwd; arg]
    | None => PathResolve.resolve cwd [cwd; arg]
    end.

(** ** [flags.ts]: the rc file *)

Section RcFile.
Context `{C : Collaborators}.

Definition RC_FILE_NAME : string := ".bzlgenrc".

(** The lines of the rc file that become arguments:
    [.split('\n').filter(t => !t.startsWith('#') && !!t).map(t => t.trim())] *)
Definition rcLines (content : string) : list string :=
  List.map Js.trim
    (List.filter (fun t => negb (Js.startsWith t "#") && Js.truthy t)
       (Js.split (ascii_of_nat 10) content)).

(** [ARGS.splice(2, 0, ...rc)] *)
Definition spliceArgs (ARGS rc : list string) : list string :=
  (List.firstn 2 ARGS ++ rc ++ List.skipn 2 ARGS)%list.

(** Where the rc file is looked for: [RC_FILE_NAME], or under the runfiles
    helper the entry of the manifest, which may be [undefined]. *)
Definition rcPath (manifestEntry : option (option string)) : option string :=
  match manifestEntry with
  | None => Some RC_FILE_NAME
  | Some entry => entry
  end.

(** The body of the [try] block. *)
Definition readRc (manifestEntry : option (option string)) (isDebug : bool)
           (ARGS : list string) : M (list string) :=
  match rcPath manifestEntry with
  | None => throw TypeError
  | Some rcpath =>
      let* k := lstatSync rcpath in
      match k with
      | KFile =>
          (if isDebug then debugLog ("Loading args from " ++ rcpath) else ret tt) ;;
          let* content := readFileSync RC_FILE_NAME in
          ret (spliceArgs ARGS (rcLines content))
      | _ => ret ARGS
      end
  end.

(** [try { ... } catch (e) { }] around a block that updates [fallback]
    in its last step. *)
Definition catchAll {A} (m : M A) (fallback : A) : M A :=
  fun s =>
    match m s with
    | Returned a s' => Returned a s'
    | Thrown _ s' => Returned fallback s'
    | OutOfFuel => OutOfFuel
    end.

(** Lines 195-219 of [setupAndParseArgs]: the arguments after the rc file
    has been looked at. *)
Definition loadRc (ignorerc : bool) (manifestEntry : option (option string))
           (isDebug : bool) (ARGS : list string) : M (list string) :=
  if ignorerc then ret ARGS
  else catchAll (readRc manifestEntry isDebug ARGS) ARGS.

End RcFile.

(** ** A sample workspace

    Concrete collaborators and a concrete file system on which the model
    can be run.  Labels are kept as the text they are parsed from; the
    stand-in for [kebabCase] joins the lower-case words of a text with
    dashes, which is what lodash does on texts made of lower-case letters
    and separators; the stand-in for tsquery reads one specifier expression
    per line; subprocesses leave the file system alone, the query binary
    fails and the editor exits with a chosen code. *)

Module Sample.

Definition isLower (a : ascii) : bool :=
  let n := nat_of_ascii a in ((97 <=? n) && (n <=? 122))%nat.

Fixpoint lowerWords (s : string) : list string :=
  match s with
  | EmptyString => [EmptyString]
  | String a s' =>
      if isLower a then
        match lowerWords s' with
        | w :: ws => String a w :: ws
        | [] => [String a EmptyString]
        end
      else EmptyString :: lowerWords s'
  end.

Definition kebab (s : string) : string :=
  Js.join "-" (List.filter Js.truthy (lowerWords s)).

Definition renderCall (c : BuilderCall string) : string :=
  match c with
  | NewTsLibraryRule l => "new ts_library|" ++ l
  | SetSrcs srcs => "set srcs " ++ Js.join " " srcs
  | AddDeps deps => "add deps " ++ Js.join " " deps
  | SetTsconfig t => "set tsconfig " ++ t
  | SetVisibility v => "set visibility " ++ v
  end.

Definition lines (content : string) : list string :=
  List.filter Js.truthy (Js.split (ascii_of_nat 10) content).

Definition collaborators (editorExit : Z) : Collaborators := {|
  Label := string;
  parseAbsolute := fun text => text;
  toString := fun l => l;
  kebabCase := kebab;
  toCommands := List.map renderCall;
  exec := fun cmd _ files =>
            ({| code := if Js.startsWith cmd "buildozer" then editorExit else 1%Z;
                stdout := ""; stderr := "" |}, files);
  moduleSpecifiers := fun content => (lines content, [])
|}.

Definition nl : string := String (ascii_of_nat 10) "".

(** [/ws] holds [BUILD], [WORKSPACE], [index.ts] and the package [src/app]
    with [a.ts], [b.ts] and [a.spec.ts]. *)
Definition files : FS :=
  list_to_map [
    ("/ws", NDir ["BUILD"; "WORKSPACE"; "index.ts"; "src"]);
    ("/ws/BUILD", NFile "");
    ("/ws/WORKSPACE", NFile "");
    ("/ws/index.ts", NFile "");
    ("/ws/src", NDir ["app"]);
    ("/ws/src/app", NDir ["a.spec.ts"; "a.ts"; "b.ts"]);
    ("/ws/src/app/a.spec.ts", NFile "'./a'");
    ("/ws/src/app/a.ts", NFile ("'./b'" ++ nl ++ "'lodash'"));
    ("/ws/src/app/b.ts", NFile ("'lodash'" ++ nl ++ "'@scope/pkg/deep/path'"
                                 ++ nl ++ "'./a.spec'"))
  ].

Definition flagsFor (p commandsFile : string) : Flags := {|
  path := p;
  base_dir := "/ws";
  suffix_separator := "-";
  label_mapping := ∅;
  generate_build_files := true;
  nuke_build_file := false;
  build_file_name := "BUILD";
  buildozer_commands_file := commandsFile;
  clean_commands_file := true;
  ignore_spec_files := true;
  default_visibility := "";
  use_bazel_query := false;
  verbose_import_mappings := false;
  debug := false;
  output_buildozer_to_console := false;
  bzl_binary := "bazel";
  buildozer_binary := "buildozer";
  npm_workspace_name := "npm";
  ts_config_label := ""
|}.

(** The top-level listing of [/ws]. *)
Definition topLevel : list string := ["BUILD"; "WORKSPACE"; "index.ts"; "src"].

(** The tool pointed at the package [src/app], and at the workspace root. *)
Definition flags : Flags := flagsFor "src/app" "commands.txt".
Definition rootFlags : Flags := flagsFor "." "commands.txt".

(** The same, with a static mapping for the specifier [lodash]. *)
Definition mappedFlags : Flags := {|
  path := "src/app";
  base_dir := "/ws";
  suffix_separator := "-";
  label_mapping := {[ "lodash" := "//third_party:lodash" ]};
  generate_build_files := true;
  nuke_build_file := false;
  build_file_name := "BUILD";
  buildozer_commands_file := "commands.txt";
  clean_commands_file := true;
  ignore_spec_files := true;
  default_visibility := "";
  use_bazel_query := true;
  verbose_import_mappings := false;
  debug := false;
  output_buildozer_to_console := false;
  bzl_binary := "bazel";
  buildozer_binary := "buildozer";
  npm_workspace_name := "npm";
  ts_config_label := ""
|}.

(** A freshly constructed [Workspace]. *)
Definition initial (editorExit : Z) : @State (collaborators editorExit) :=
  @mkState (collaborators editorExit) files None ∅ [] [] [] [].

(** The state once [generate] has recorded one rule. *)
Definition withRule (editorExit : Z) : @State (collaborators editorExit) :=
  @mkState (collaborators editorExit) files None ∅
    [NewTsLibraryRule "//src/app"; SetSrcs ["a.ts"; "b.ts"];
     AddDeps ["@npm//lodash"]] [] [] [].

(** The state in which the editor is run when [invokeBuildozer] is called
    in [withRule 1]: the command file is written, the package's build file
    created, and two debug lines logged. *)
Definition editorState : @State (collaborators 1) :=
  Eval vm_compute in
    match @beforeEditor (collaborators 1) flags
            (@toCommands (collaborators 1) (buildozer (withRule 1))) (withRule 1) with
    | Returned _ s => s
    | _ => withRule 1
    end.

(** The state [invokeBuildozer] ends in when called in [withRule 1]. *)
Definition afterEditorFailure : @State (collaborators 1) :=
  Eval vm_compute in
    match @invokeBuildozer (collaborators 1) flags (withRule 1) with
    | Returned _ s => s
    | _ => withRule 1
    end.

(** The state [generate] ends in when called on the package [src/app]. *)
Definition generated : @State (collaborators 0) :=
  Eval vm_compute in
    match @generate (collaborators 0) flags 1 (initial 0) with
    | Returned _ s => s
    | _ => initial 0
    end.

End Sample.

(** ** Further scenes

    Variations of the sample workspace: a workspace in mid-run, a
    double-quoted import, a query binary that answers, a file as analysed
    path, and a directory entry named like a top-level entry. *)

Module Scenes.

Import Sample.

Definition flagsWith (p : string) (mapping : gmap string string)
           (generateFiles query : bool) : Flags := {|
  path := p;
  base_dir := "/ws";
  suffix_separator := "-";
  label_mapping := mapping;
  generate_build_files := generateFiles;
  nuke_build_file := false;
  build_file_name := "BUILD";
  buildozer_commands_file := "commands.txt";
  clean_commands_file := true;
  ignore_spec_files := true;
  default_visibility := "";
  use_bazel_query := query;
  verbose_import_mappings := false;
  debug := false;
  output_buildozer_to_console := false;
  bzl_binary := "bazel";
  buildozer_binary := "buildozer";
  npm_workspace_name := "npm";
  ts_config_label := ""
|}.

(** A workspace that has read its listing, cached one query result and
    recorded a call already. *)
Definition seeded : @State (collaborators 0) :=
  @mkState (collaborators 0) files (Some topLevel) {[ "lib/x.ts" := "//lib:x" ]}
    [SetVisibility "//visibility:public"] [] [] [].

Definition seededGenerated : @State (collaborators 0) :=
  Eval vm_compute in
    match @generate (collaborators 0) flags 1 seeded with
    | Returned _ s => s
    | _ => seeded
    end.

(** The package [src/app] with a double-quoted import in [a.ts]. *)
Definition brokenFiles : FS :=
  <["/ws/src/app/a.ts" := NFile (quote ++ "./b" ++ quote)]> files.

Definition broken : @State (collaborators 0) :=
  @mkState (collaborators 0) brokenFiles None ∅
    [SetVisibility "//visibility:public"] [] [] [].

Definition brokenEnd : @State (collaborators 0) :=
  Eval vm_compute in
    match @generate (collaborators 0) flags 1 broken with
    | Thrown _ s => s
    | _ => broken
    end.

(** Collaborators whose query binary answers with the rule [//src/app:b]. *)
Definition answering : Collaborators := {|
  Label := string;
  parseAbsolute := fun text => text;
  toString := fun l => l;
  kebabCase := kebab;
  toCommands := List.map renderCall;
  exec := fun _ _ files =>
            ({| code := 0%Z; stdout := "//src/app:b" ++ nl; stderr := "" |}, files);
  moduleSpecifiers := fun content => (lines content, [])
|}.

Definition queryFlags : Flags := flagsWith "src/app" ∅ true true.

Definition asked : @State answering := @mkState answering files None ∅ [] [] [] [].

Definition answered : @State answering :=
  Eval vm_compute in
    match @queryForFile answering queryFlags "src/app/b.ts" asked with
    | Returned _ s => s
    | _ => asked
    end.

Definition missed : @State (collaborators 0) :=
  Eval vm_compute in
    match @queryForFile (collaborators 0) queryFlags "src/app/b.ts" (initial 0) with
    | Returned _ s => s
    | _ => initial 0
    end.

(** The tool pointed at the file [src/app/a.ts]. *)
Definition fileFlags : Flags := flagsFor "src/app/a.ts" "commands.txt".

Definition fileGenerated : @State (collaborators 0) :=
  Eval vm_compute in
    match @generate (collaborators 0) fileFlags 1 (initial 0) with
    | Returned _ s => s
    | _ => initial 0
    end.

(** The package [src/app] holding a file named like the [index.ts] of the
    workspace root. *)
Definition shadowFiles : FS :=
  <["/ws/src/app" := NDir ["index.ts"; "a.ts"]]> files.

Definition shadowed : @State (collaborators 0) :=
  @mkState (collaborators 0) shadowFiles None ∅ [] [] [] [].


Definition pathMappedFlags : Flags :=
  flagsWith "src/app" {[ "src/app/legacy" := "//third_party:legacy" ]} true false.

(** A workspace whose query cache knows [src/app/b.ts]. *)
Definition warm : @State (collaborators 0) :=
  @mkState (collaborators 0) files None {[ "src/app/b.ts" := "//custom:b" ]} [] [] [] [].

Definition processedLabels : list string :=
  Eval vm_compute in
    match foldM (fun deps file =>
                   @processFile (collaborators 0) flags 1 file
                     ["src/app/a.ts"; "src/app/b.ts"] "npm" deps)
                ["src/app/a.ts"; "src/app/b.ts"] ["//seed"] (initial 0) with
    | Returned labels _ => labels
    | _ => []
    end.

Definition processedState : @State (collaborators 0) :=
  Eval vm_compute in
    match foldM (fun deps file =>
                   @processFile (collaborators 0) flags 1 file
                     ["src/app/a.ts"; "src/app/b.ts"] "npm" deps)
                ["src/app/a.ts"; "src/app/b.ts"] ["//seed"] (initial 0) with
    | Returned _ s => s
    | _ => initial 0
    end.

(** A workspace run under the runfiles helper: the manifest points at an
    rc file, and the working directory holds none. *)
Definition runfiles : @State (collaborators 0) :=
  @mkState (collaborators 0)
    (<["/runfiles/ws/.bzlgenrc" := NFile "--nuke_build_file"]> files) None ∅ [] [] [] [].

Definition underscoreFlags : Flags := {|
  path := "src/app";
  base_dir := "/ws";
  suffix_separator := "_";
  label_mapping := ∅;
  generate_build_files := true;
  nuke_build_file := false;
  build_file_name := "BUILD";
  buildozer_commands_file := "commands.txt";
  clean_commands_file := true;
  ignore_spec_files := true;
  default_visibility := "";
  use_bazel_query := false;
  verbose_import_mappings := false;
  debug := false;
  output_buildozer_to_console := false;
  bzl_binary := "bazel";
  buildozer_binary := "buildozer";
  npm_workspace_name := "npm";
  ts_config_label := ""
|}.

End Scenes.

(** * Properties *)

(** ** Strings and paths *)

Lemma endsWith_unfold s p :
  Js.endsWith s p
  = if String.eqb s p then true
    else match s with EmptyString => false | String _ s' => Js.endsWith s' p end.
Proof. now destruct s. Qed.

Lemma endsWith_refl p : Js.endsWith p p = true.
Proof. rewrite endsWith_unfold. now rewrite String.eqb_refl. Qed.

Lemma endsWith_app q p : Js.endsWith (q ++ p) p = true.
Proof.
  induction q as [|a q IH].
  - apply endsWith_refl.
  - change (String a q ++ p) with (String a (q ++ p)).
    rewrite endsWith_unfold, IH.
    now destruct (String.eqb (String a (q ++ p)) p).
Qed.

Lemma endsWith_inv s p : Js.endsWith s p = true -> exists q, s = q ++ p.
Proof.
  induction s as [|a s IH]; rewrite endsWith_unfold.
  - destruct p; [exists ""; reflexivity | discriminate].
  - destruct (String.eqb (String a s) p) eqn:E.
    + apply String.eqb_eq in E. subst p. now exists "".
    + intros H. destruct (IH H) as [q ->]. now exists (String a q).
Qed.

Lemma append_cons x (a b : string) : String x a ++ b = String x (a ++ b).
Proof. reflexivity. Qed.

Lemma append_nil_l (b : string) : "" ++ b = b.
Proof. reflexivity. Qed.

Lemma append_assoc (a b c : string) : (a ++ b) ++ c = a ++ (b ++ c).
Proof.
  induction a as [|x a IH]; [reflexivity|].
  rewrite !append_cons. now rewrite IH.
Qed.

Lemma endsWith_trans s p r :
  Js.endsWith s p = true -> Js.endsWith p r = true -> Js.endsWith s r = true.
Proof.
  intros H1 H2. apply endsWith_inv in H1 as [q ->]. apply endsWith_inv in H2 as [q' ->].
  rewrite <- append_assoc. apply endsWith_app.
Qed.

Lemma split_nonempty c s : Js.split c s <> [].
Proof. destruct s; simpl; [discriminate|]. destruct (Ascii.eqb a c); [discriminate|]. now destruct (Js.split c s). Qed.

Lemma split_plain c w : Js.hasChar c w = false -> Js.split c w = [w].
Proof.
  induction w as [|a w IH]; simpl; [reflexivity|].
  destruct (Ascii.eqb a c); simpl; [discriminate|]. intros H. now rewrite (IH H).
Qed.

Lemma split_app c w rest :
  Js.hasChar c w = false -> Js.split c (w ++ String c rest) = w :: Js.split c rest.
Proof.
  induction w as [|a w IH].
  - intros _. rewrite append_nil_l. simpl. now rewrite Ascii.eqb_refl.
  - rewrite append_cons. simpl.
    destruct (Ascii.eqb a c); simpl; [discriminate|]. intros H. now rewrite (IH H).
Qed.

Lemma split_join c segs :
  segs <> [] -> Forall (fun w => Js.hasChar c w = false) segs ->
  Js.split c (Js.join (String c "") segs) = segs.
Proof.
  intros Hne Hall. induction Hall as [|w ws Hw Hws IH]; [now elim Hne|].
  destruct ws as [|w' ws].
  - simpl. now apply split_plain.
  - unfold Js.join in *.
    change (String.concat (String c "") (w :: w' :: ws))
      with (w ++ String c (String.concat (String c "") (w' :: ws))).
    rewrite (split_app c w _ Hw). f_equal. now apply IH.
Qed.

Lemma split_noChar c s : Forall (fun w => Js.hasChar c w = false) (Js.split c s).
Proof.
  induction s as [|a s IH]; simpl.
  - now repeat constructor.
  - destruct (Ascii.eqb a c) eqn:E.
    + constructor; [reflexivity | exact IH].
    + destruct (Js.split c s) as [|w ws]; inversion IH; subst.
      * repeat constructor. simpl. now rewrite E.
      * constructor; [simpl; now rewrite E | assumption].
Qed.

Lemma normalizeSegments_plain b segs res :
  Forall plainSegment segs ->
  Path.normalizeSegments b segs res = (List.rev res ++ segs)%list.
Proof.
  intros Hall. revert res. induction Hall as [|seg segs (H1 & H2 & H3) _ IH]; intros res; simpl.
  - now rewrite app_nil_r.
  - apply String.eqb_neq in H1, H2, H3. rewrite H1, H2, H3. simpl.
    rewrite IH. simpl. now rewrite <- app_assoc.
Qed.

Lemma split_snoc c q : Js.split c (q ++ String c "") = (Js.split c q ++ [""])%list.
Proof.
  induction q as [|a q IH].
  - rewrite append_nil_l. simpl. now rewrite Ascii.eqb_refl.
  - rewrite append_cons. simpl. rewrite IH.
    destruct (Ascii.eqb a c); [reflexivity|].
    pose proof (split_nonempty c q) as Hne.
    now destruct (Js.split c q).
Qed.

Lemma filter_truthy_plain segs :
  Forall plainSegment segs -> List.filter Js.truthy segs = segs.
Proof.
  induction 1 as [|w ws (H1 & _) _ IH]; simpl; [reflexivity|].
  unfold Js.truthy at 1. apply String.eqb_neq in H1. rewrite H1. simpl. now rewrite IH.
Qed.

Lemma join_cons_cons c w w' ws :
  Js.join (String c "") (w :: w' :: ws) = w ++ String c (Js.join (String c "") (w' :: ws)).
Proof. reflexivity. Qed.

Lemma join_head_char a w ws :
  exists rest, Js.join "/" (String a w :: ws) = String a rest.
Proof.
  destruct ws as [|w' ws]; [now exists w|].
  rewrite join_cons_cons, append_cons. now eexists.
Qed.

Lemma startsWith_char c a rest :
  Ascii.eqb a c = false -> Js.startsWith (String a rest) (String c "") = false.
Proof.
  intros H. unfold Js.startsWith. cbn [String.prefix].
  destruct (Ascii.ascii_dec c a) as [->|]; [|reflexivity].
  rewrite Ascii.eqb_refl in H. discriminate.
Qed.

Lemma join_plain segs :
  segs <> [] ->
  Forall plainSegment segs ->
  Forall (fun w => Js.hasChar Path.sep w = false) segs ->
  Path.join segs = Js.join "/" segs.
Proof.
  intros Hne Hplain Hslash. unfold Path.join.
  rewrite (filter_truthy_plain _ Hplain).
  destruct segs as [|w ws]; [now elim Hne|].
  set (P := Js.join "/" (w :: ws)).
  assert (Hsplit : Js.split Path.sep P = w :: ws) by now apply split_join.
  destruct w as [|a w]; [inversion Hplain as [|? ? (H & _)]; now elim H|].
  destruct (join_head_char a w ws) as [rest Hrest]. fold P in Hrest.
  assert (Ha : Ascii.eqb a Path.sep = false).
  { inversion Hslash as [|? ? H _]. simpl in H. now apply orb_false_elim in H. }
  unfold Path.normalize, Path.normalizeString.
  rewrite Hsplit, (normalizeSegments_plain _ _ _ Hplain). simpl List.rev. simpl app.
  fold P.
  assert (HP : String.eqb P "" = false) by now rewrite Hrest.
  rewrite HP.
  assert (Habs : Path.isAbsolute P = false).
  { unfold Path.isAbsolute. rewrite Hrest. now apply startsWith_char. }
  rewrite Habs.
  assert (Hend : Js.endsWith P "/" = false).
  { destruct (Js.endsWith P "/") eqn:E; [|reflexivity].
    apply endsWith_inv in E as [q Hq].
    rewrite Hq in Hsplit.
    rewrite (split_snoc "/"%char q : Js.split Path.sep (q ++ "/") = _) in Hsplit.
    assert (Hin : In "" (String a w :: ws)).
    { rewrite <- Hsplit. apply in_or_app. right. now left. }
    destruct (proj1 (List.Forall_forall _ _) Hplain _ Hin) as (H & _). now elim H. }
  now rewrite Hend.
Qed.


Lemma normalizeSegments_keeps_traversal segs res :
  exists t, Path.normalizeSegments true segs (res ++ [".."])%list = ".." :: t.
Proof.
  revert res. induction segs as [|seg segs IH]; intros res.
  - simpl. rewrite rev_app_distr. simpl. now eexists.
  - simpl. destruct (String.eqb seg "" || String.eqb seg "."); [apply IH|].
    destruct (String.eqb seg "..").
    + destruct res as [|r rs]; simpl.
      * apply (IH [".."]).
      * destruct (String.eqb r ".."); [apply (IH (".." :: r :: rs)) | apply IH].
    + apply (IH (seg :: res)).
Qed.

Lemma startsWith_append p rest : Js.startsWith (p ++ rest) p = true.
Proof.
  unfold Js.startsWith. induction p as [|a p IH]; [now destruct rest|].
  rewrite append_cons. cbn [String.prefix].
  destruct (Ascii.ascii_dec a a) as [_|n]; [exact IH | now elim n].
Qed.

Lemma normalize_leading_traversal raw :
  leadingTraversal raw -> Js.startsWith (Path.normalize raw) ".." = true.
Proof.
  intros [->|[rest ->]]; [reflexivity|].
  unfold Path.normalize.
  change (String.eqb ("../" ++ rest) "") with false. cbv iota.
  change (Path.isAbsolute ("../" ++ rest)) with false. cbv iota. simpl negb.
  unfold Path.normalizeString.
  change (Js.split Path.sep ("../" ++ rest)) with (".." :: Js.split Path.sep rest).
  change (Path.normalizeSegments true (".." :: Js.split Path.sep rest) [])
    with (Path.normalizeSegments true (Js.split Path.sep rest) ([] ++ [".."])%list).
  destruct (normalizeSegments_keeps_traversal (Js.split Path.sep rest) []) as [t ->].
  assert (Hj : exists r, Js.join "/" (".." :: t) = ".." ++ r).
  { destruct t as [|w ws]; [now exists ""|]. rewrite join_cons_cons. now eexists. }
  destruct Hj as [r ->].
  change (String.eqb (".." ++ r) "") with false. cbv iota.
  destruct (Js.endsWith ("../" ++ rest) "/").
  - rewrite append_assoc. apply startsWith_append.
  - apply startsWith_append.
Qed.

Lemma list_ascii_of_string_app a b :
  list_ascii_of_string (a ++ b) = (list_ascii_of_string a ++ list_ascii_of_string b)%list.
Proof.
  induction a as [|x a IH]; [reflexivity|].
  rewrite append_cons. simpl. now rewrite IH.
Qed.

Lemma string_of_list_ascii_app a b :
  string_of_list_ascii (a ++ b)%list = string_of_list_ascii a ++ string_of_list_ascii b.
Proof.
  induction a as [|x a IH]; [reflexivity|].
  simpl. rewrite append_cons. now rewrite IH.
Qed.

Lemma takeWhile_dropWhile g l : (Path.takeWhile g l ++ Path.dropWhile g l)%list = l.
Proof.
  induction l as [|a l IH]; simpl; [reflexivity|].
  destruct (g a); simpl; [now rewrite IH | reflexivity].
Qed.

Lemma parse_base f :
  Path.base (Path.parse f)
  = string_of_list_ascii
      (List.rev
         (Path.takeWhile (fun a => negb (Path.isSlash a))
            (Path.dropWhile Path.isSlash
               (List.rev (if Path.isAbsolute f
                          then List.tl (list_ascii_of_string f)
                          else list_ascii_of_string f))))).
Proof.
  unfold Path.parse.
  match goal with |- context [if ?c then _ else _] =>
    lazymatch c with
    | (_ || _) => destruct c
    end
  end; reflexivity.
Qed.

Lemma base_is_suffix f :
  Js.endsWith f ".ts" = true -> Js.endsWith f (Path.base (Path.parse f)) = true.
Proof.
  intros H. apply endsWith_inv in H as [q ->].
  rewrite parse_base.
  set (chars := list_ascii_of_string (q ++ ".ts")).
  set (sc := if Path.isAbsolute (q ++ ".ts") then List.tl chars else chars).
  assert (Hsc : exists pre X,
             chars = (pre ++ sc)%list /\
             sc = (X ++ ["."%char; "t"%char; "s"%char])%list).
  { subst sc chars. destruct (Path.isAbsolute (q ++ ".ts")) eqn:Habs.
    - destruct q as [|c q]; [discriminate Habs|].
      exists [c], (list_ascii_of_string q). rewrite append_cons. simpl.
      now rewrite list_ascii_of_string_app.
    - exists [], (list_ascii_of_string q). now rewrite list_ascii_of_string_app. }
  destruct Hsc as (pre & X & Hchars & HX).
  assert (Hrev : List.rev sc = "s"%char :: "t"%char :: "."%char :: List.rev X).
  { rewrite HX, rev_app_distr. reflexivity. }
  rewrite Hrev. cbn [Path.dropWhile]. change (Path.isSlash "s"%char) with false. cbv iota.
  rewrite <- Hrev.
  pose proof (takeWhile_dropWhile (fun a => negb (Path.isSlash a)) (List.rev sc)) as Htd.
  set (tw := Path.takeWhile (fun a => negb (Path.isSlash a)) (List.rev sc)) in *.
  set (dw := Path.dropWhile (fun a => negb (Path.isSlash a)) (List.rev sc)) in *.
  assert (Hf : q ++ ".ts"
               = string_of_list_ascii (pre ++ List.rev dw)%list
                   ++ string_of_list_ascii (List.rev tw)).
  { rewrite <- string_of_list_ascii_app, <- app_assoc, <- rev_app_distr, Htd.
    rewrite rev_involutive, <- Hchars. subst chars.
    now rewrite string_of_list_ascii_of_string. }
  rewrite Hf at 1. apply endsWith_app.
Qed.

Lemma base_keeps_suffix f suffix :
  Js.endsWith f ".ts" = true ->
  Js.endsWith (Path.base (Path.parse f)) suffix = true ->
  Js.endsWith f suffix = true.
Proof. intros Hts Hb. eapply endsWith_trans; [now apply base_is_suffix | exact Hb]. Qed.

Section Properties.

Context `{C : Collaborators}.

Variable flags : Flags.

(** ** The monad *)

Lemma bind_Returned {A B} (m : M A) (k : A -> M B) s a s1 :
  m s = Returned a s1 -> bind m k s = k a s1.
Proof. intros H. unfold bind. now rewrite H. Qed.

Lemma bind_Thrown {A B} (m : M A) (k : A -> M B) s e s1 :
  m s = Thrown e s1 -> bind m k s = Thrown e s1.
Proof. intros H. unfold bind. now rewrite H. Qed.

Lemma bind_OutOfFuel {A B} (m : M A) (k : A -> M B) s :
  m s = OutOfFuel -> bind m k s = OutOfFuel.
Proof. intros H. unfold bind. now rewrite H. Qed.

Lemma bind_inv {A B} (m : M A) (k : A -> M B) s b s' :
  bind m k s = Returned b s' ->
  exists a s1, m s = Returned a s1 /\ k a s1 = Returned b s'.
Proof.
  unfold bind. destruct (m s) as [a s1| |]; try discriminate.
  intros H. now exists a, s1.
Qed.

(** ** The listing snapshot *)

Lemma cached_listing l s : listing s = Some l -> cached l s = s.
Proof. destruct s; simpl. intros ->. reflexivity. Qed.

Lemma getListing_eq s l :
  theListing flags s = Some l -> getListing flags s = Returned l (cached l s).
Proof.
  unfold theListing, getListing, readdirSync.
  destruct (listing s) as [l0|] eqn:E.
  - intros [= ->]. now rewrite cached_listing.
  - destruct (fs s !! base_dir flags) as [[| |]|]; try discriminate.
    now intros [= ->].
Qed.

Lemma isWorkspaceRelative_eq s l p :
  theListing flags s = Some l ->
  isWorkspaceRelative flags p s = Returned (wsRelative l p) (cached l s).
Proof.
  intros H. unfold isWorkspaceRelative.
  now rewrite (bind_Returned _ _ _ _ _ (getListing_eq _ _ H)).
Qed.

Lemma getPathAsDirectory_eq s n :
  fs s !! getAbsolutePath flags = Some n ->
  getPathAsDirectory flags s = Returned (asDirectory flags n) s.
Proof.
  intros H. unfold getPathAsDirectory, isFile, lstatSync, bind, ret, asDirectory.
  rewrite H. now destruct n.
Qed.

Lemma Readable_cached s l d :
  Readable flags s l d -> Readable flags (cached l s) l d.
Proof. intros [_ H]. split; [reflexivity | exact H]. Qed.

Lemma resolveRelativeToWorkspace_eq s l d p :
  Readable flags s l d ->
  resolveRelativeToWorkspace flags p s = Returned (resolveRel l d p) (cached l s).
Proof.
  intros [Hl (n & Hn & ->)]. unfold resolveRelativeToWorkspace, resolveRel.
  rewrite (bind_Returned _ _ _ _ _ (isWorkspaceRelative_eq _ _ p Hl)).
  destruct (wsRelative l p); [reflexivity|].
  assert (Hn' : fs (cached l s) !! getAbsolutePath flags = Some n) by exact Hn.
  now rewrite (bind_Returned _ _ _ _ _ (getPathAsDirectory_eq _ _ Hn')).
Qed.

(** ** The static mapping *)

Lemma static_lookup_eq s imp :
  tryResolveLabelFromStaticMapping flags imp None None s
  = Returned (parseAbsolute <$> label_mapping flags !! imp) s.
Proof.
  unfold tryResolveLabelFromStaticMapping, bind, ret.
  now destruct (label_mapping flags !! imp).
Qed.

Lemma static_lookup_specifier_eq s imp :
  Js.startsWith imp "." = false ->
  tryResolveLabelFromStaticMapping flags imp None (Some ".") s
  = Returned (parseAbsolute <$> label_mapping flags !! imp) s.
Proof.
  intros H. unfold tryResolveLabelFromStaticMapping.
  change (Js.truthy "." && Js.startsWith imp ".") with (Js.startsWith imp ".").
  rewrite H. unfold bind, ret. now destruct (label_mapping flags !! imp).
Qed.

Lemma static_lookup_relative_eq s l d imp :
  Readable flags s l d ->
  tryResolveLabelFromStaticMapping flags imp None (Some ".") s
  = Returned (parseAbsolute <$> label_mapping flags !! staticKey l d imp)
             (if Js.startsWith imp "." then cached l s else s).
Proof.
  intros H. unfold staticKey.
  destruct (Js.startsWith imp ".") eqn:E.
  - unfold tryResolveLabelFromStaticMapping.
    change (Js.truthy "." && Js.startsWith imp ".") with (Js.startsWith imp ".").
    rewrite E.
    rewrite (bind_Returned _ _ _ _ _ (resolveRelativeToWorkspace_eq _ _ _ imp H)).
    now destruct (label_mapping flags !! resolveRel l d imp).
  - now apply static_lookup_specifier_eq.
Qed.

(** ** The resolution cascade *)

(** C2. A specifier whose key (the specifier itself, or its
    workspace-relative form when it begins with ['.']) is in the static
    mapping resolves to the label of that entry, whatever the fuel, the
    query setting and the files on disk; no subprocess is run, the query
    cache, the file system, the console and the read log are untouched. *)
Theorem static_mapping_takes_precedence s l d fuel imp npm text :
  Readable flags s l d ->
  label_mapping flags !! staticKey l d imp = Some text ->
  exists s',
    calculateTsDependencyLabel flags fuel imp npm s
    = Returned (parseAbsolute text) s' /\
    s' = (if Js.startsWith imp "." then cached l s else s) /\
    spawned s' = spawned s /\
    fileQueryResultCache s' = fileQueryResultCache s /\
    fs s' = fs s /\ console s' = console s /\ reads s' = reads s.
Proof.
  intros HR Hkey. eexists. split.
  - unfold calculateTsDependencyLabel.
    rewrite (bind_Returned _ _ _ _ _ (static_lookup_relative_eq _ _ _ imp HR)).
    rewrite Hkey. reflexivity.
  - destruct (Js.startsWith imp "."); repeat split; reflexivity.
Qed.

Lemma external_package_eq s l fuel imp npm :
  theListing flags s = Some l ->
  Js.startsWith imp "." = false ->
  wsRelative l imp = false ->
  label_mapping flags !! imp = None ->
  calculateTsDependencyLabel flags fuel imp npm s
  = Returned
      (parseAbsolute
         ("@" ++ npm ++ "//"
              ++ Path.join (List.firstn (keptSegments imp) (Js.split Path.sep imp))))
      (cached l s).
Proof.
  intros Hl Hdot Hws Hmap. unfold calculateTsDependencyLabel, keptSegments.
  rewrite (bind_Returned _ _ _ _ _ (static_lookup_specifier_eq _ imp Hdot)).
  rewrite Hmap. simpl.
  rewrite (bind_Returned _ _ _ _ _ (isWorkspaceRelative_eq _ _ imp Hl)).
  rewrite Hws, Hdot. simpl.
  now destruct (Js.startsWith imp "@").
Qed.

(** ** Self-imports *)

Lemma self_import_eq s l d fuel tsFiles npm text :
  Readable flags s l d ->
  selfImport l d tsFiles text ->
  resolveLabelFromModuleSpecifier flags fuel text tsFiles npm s
  = Returned None (cached l s).
Proof.
  intros HR (spec & Hspec & Hin). unfold resolveLabelFromModuleSpecifier.
  rewrite Hspec.
  rewrite (bind_Returned _ _ _ _ _ (resolveRelativeToWorkspace_eq _ _ _ spec HR)).
  now rewrite Hin.
Qed.

Lemma self_imports_mapM s l d fuel tsFiles npm texts :
  Readable flags s l d ->
  Forall (selfImport l d tsFiles) texts ->
  mapM (fun t => resolveLabelFromModuleSpecifier flags fuel t tsFiles npm) texts s
  = Returned (List.map (fun _ => None) texts)
             (match texts with [] => s | _ => cached l s end).
Proof.
  intros HR Hall. revert s HR.
  induction Hall as [|t ts Ht Hts IH]; intros s HR; [reflexivity|].
  simpl mapM.
  rewrite (bind_Returned _ _ _ _ _ (self_import_eq _ _ _ fuel _ npm _ HR Ht)).
  rewrite (bind_Returned _ _ _ _ _ (IH _ (Readable_cached _ _ _ HR))).
  unfold ret. simpl. now destruct ts.
Qed.

Lemma addLabels_undefined texts labels :
  addLabels (List.map (fun _ : string => @None Label) texts) labels = labels.
Proof. induction texts; simpl; auto. Qed.

(** C3. A specifier whose workspace-relative form, with [.ts] appended when
    absent, is among the rule's source files makes the extractor return
    [undefined] at once: whatever the fuel, state and mapping, nothing but
    the listing snapshot changes, so the cascade is neither run nor able to
    fail; and a file all of whose import and export specifiers are of that
    kind leaves the dependency set as it was. *)
Theorem self_import_is_skipped s l d fuel tsFiles npm :
  Readable flags s l d ->
  (forall text,
      selfImport l d tsFiles text ->
      resolveLabelFromModuleSpecifier flags fuel text tsFiles npm s
      = Returned None (cached l s)) /\
  (forall imports exports labels,
      Forall (selfImport l d tsFiles) imports ->
      Forall (selfImport l d tsFiles) exports ->
      exists s',
        processTsFileAst flags fuel imports exports tsFiles npm labels s
        = Returned labels s' /\
        (s' = s \/ s' = cached l s)).
Proof.
  intros HR. split.
  - intros text Hself. now apply self_import_eq with (d := d).
  - intros imports exports labels Hi He. unfold processTsFileAst.
    rewrite (bind_Returned _ _ _ _ _ (self_imports_mapM _ _ _ fuel _ npm _ HR Hi)).
    rewrite addLabels_undefined.
    assert (HR' : Readable flags (match imports with [] => s | _ => cached l s end) l d).
    { destruct imports; [exact HR | now apply Readable_cached]. }
    rewrite (bind_Returned _ _ _ _ _ (self_imports_mapM _ _ _ fuel _ npm _ HR' He)).
    rewrite addLabels_undefined. eexists. split; [reflexivity|].
    destruct imports, exports; simpl; auto.
Qed.

(** ** [resolveAbsolute] *)

Lemma resolveAbsolute_absolute s fuel p :
  Path.isAbsolute p = true ->
  resolveAbsolute flags (S fuel) p s = Returned p s.
Proof. intros H. simpl. now rewrite H. Qed.

Lemma resolveAbsolute_workspace_relative s l fuel p :
  theListing flags s = Some l ->
  Path.isAbsolute p = false ->
  wsRelative l p = true ->
  resolveAbsolute flags (S fuel) p s
  = Returned (Path.join [base_dir flags; p]) (cached l s).
Proof.
  intros Hl Habs Hws. simpl. rewrite Habs.
  rewrite (bind_Returned _ _ _ _ _ (isWorkspaceRelative_eq _ _ p Hl)).
  now rewrite Hws.
Qed.

Lemma resolveAbsolute_hop s l d fuel p :
  Readable flags s l d ->
  Path.isAbsolute p = false ->
  wsRelative l p = false ->
  resolveAbsolute flags (S fuel) p s
  = resolveAbsolute flags fuel (resolveRel l d p) (cached l s).
Proof.
  intros HR Habs Hws. simpl. rewrite Habs.
  rewrite (bind_Returned _ _ _ _ _ (isWorkspaceRelative_eq _ _ p (proj1 HR))).
  rewrite Hws.
  now rewrite (bind_Returned _ _ _ _ _
                 (resolveRelativeToWorkspace_eq _ _ _ p (Readable_cached _ _ _ HR))).
Qed.

(** A path that re-resolution sends to itself is retried for ever. *)
Lemma resolveAbsolute_fixpoint_diverges s l d p :
  Readable flags s l d ->
  Path.isAbsolute p = false ->
  wsRelative l p = false ->
  resolveRel l d p = p ->
  forall fuel, resolveAbsolute flags fuel p s = OutOfFuel.
Proof.
  intros HR Habs Hws Hfix fuel. revert s HR.
  induction fuel as [|fuel IH]; intros s HR; [reflexivity|].
  rewrite (resolveAbsolute_hop _ _ _ _ _ HR Habs Hws), Hfix.
  apply IH. now apply Readable_cached.
Qed.

(** ** The file heuristic *)

Lemma getLabelFor_eq s l d fuel p target abs :
  Readable flags s l d ->
  label_mapping flags !! resolveRel l d p = None ->
  resolveAbsolute flags fuel (resolveRel l d p) (cached l s)
  = Returned abs (cached l s) ->
  getLabelFor flags fuel p target s
  = match fs s !! abs with
    | None => Thrown (ENOENT abs) (cached l s)
    | Some n =>
        Returned
          (parseAbsolute
             ("//" ++ (if Js.truthy target
                       then (match kindOf n with
                             | KFile => Path.dir (Path.parse (resolveRel l d p))
                             | _ => resolveRel l d p
                             end) ++ ":" ++ target
                       else (match kindOf n with
                             | KFile => Path.dir (Path.parse (resolveRel l d p))
                             | _ => resolveRel l d p
                             end))))
          (cached l s)
    end.
Proof.
  intros HR Hmap Habs. unfold getLabelFor.
  rewrite (bind_Returned _ _ _ _ _ (resolveRelativeToWorkspace_eq _ _ _ p HR)).
  rewrite (bind_Returned _ _ _ _ _ (static_lookup_eq _ _)).
  rewrite Hmap. simpl.
  rewrite (bind_Returned _ _ _ _ _ Habs).
  unfold bind, lstatSync, ret. simpl.
  destruct (fs s !! abs) as [n|]; [|reflexivity].
  destruct (Js.truthy target); reflexivity.
Qed.

Lemma getLabelForFile_eq s l d fuel p suffix strip :
  Readable flags s l d ->
  label_mapping flags !! resolveRel l d p = None ->
  use_bazel_query flags = false ->
  exists target,
    getLabelForFile flags fuel p suffix strip s
    = getLabelFor flags fuel (Path.dir (Path.parse (resolveRel l d p))) target
                  (cached l s).
Proof.
  intros HR Hmap Hq. eexists. unfold getLabelForFile.
  rewrite (bind_Returned _ _ _ _ _ (resolveRelativeToWorkspace_eq _ _ _ p HR)).
  rewrite (bind_Returned _ _ _ _ _ (static_lookup_eq _ _)).
  rewrite Hmap, Hq. simpl. unfold bind at 1, ret at 1. reflexivity.
Qed.

Lemma relative_import_eq s l d fuel imp npm abs :
  Readable flags s l d ->
  label_mapping flags !! staticKey l d imp = None ->
  wsRelative l imp || Js.startsWith imp "." = true ->
  use_bazel_query flags = false ->
  label_mapping flags !! resolveRel l d (imp ++ ".ts") = None ->
  label_mapping flags !! containingDirectory l d imp = None ->
  resolveAbsolute flags fuel (containingDirectory l d imp) (cached l s)
  = Returned abs (cached l s) ->
  match fs s !! abs with
  | None =>
      calculateTsDependencyLabel flags fuel imp npm s = Thrown (ENOENT abs) (cached l s)
  | Some _ =>
      exists text,
        calculateTsDependencyLabel flags fuel imp npm s
        = Returned (parseAbsolute text) (cached l s)
  end.
Proof.
  intros HR Hkey Hrel Hq Hfile Hdir Habs.
  assert (Hcalc : exists target,
             calculateTsDependencyLabel flags fuel imp npm s
             = getLabelFor flags fuel
                 (Path.dir (Path.parse (resolveRel l d (imp ++ ".ts")))) target
                 (cached l s)).
  { unfold calculateTsDependencyLabel.
    rewrite (bind_Returned _ _ _ _ _ (static_lookup_relative_eq _ _ _ imp HR)).
    rewrite Hkey. simpl.
    assert (HR' : Readable flags (if Js.startsWith imp "." then cached l s else s) l d).
    { destruct (Js.startsWith imp "."); [now apply Readable_cached | exact HR]. }
    rewrite (bind_Returned _ _ _ _ _ (isWorkspaceRelative_eq _ _ imp (proj1 HR'))).
    rewrite Hrel.
    assert (Hs : cached l (if Js.startsWith imp "." then cached l s else s) = cached l s)
      by now destruct (Js.startsWith imp ".").
    rewrite Hs.
    destruct (getLabelForFile_eq (cached l s) l d fuel (imp ++ ".ts") "" true
                (Readable_cached _ _ _ HR) Hfile Hq) as [target Ht].
    exists target. exact Ht. }
  destruct Hcalc as [target Hcalc]. rewrite Hcalc.
  rewrite (getLabelFor_eq (cached l s) l d fuel _ target abs
             (Readable_cached _ _ _ HR) Hdir Habs).
  simpl. destruct (fs s !! abs); [eexists; reflexivity | reflexivity].
Qed.

Lemma mapM_first_throws {A B} (f : A -> M B) x xs s e s1 :
  f x s = Thrown e s1 -> mapM f (x :: xs) s = Thrown e s1.
Proof. intros H. simpl. now rewrite (bind_Thrown _ _ _ _ _ H). Qed.

Lemma relative_import_delegates s l d fuel imp npm :
  Readable flags s l d ->
  label_mapping flags !! staticKey l d imp = None ->
  wsRelative l imp || Js.startsWith imp "." = true ->
  use_bazel_query flags = false ->
  label_mapping flags !! resolveRel l d (imp ++ ".ts") = None ->
  calculateTsDependencyLabel flags fuel imp npm s
  = getLabelFor flags fuel
      (Path.dir (Path.parse (resolveRel l d (imp ++ ".ts"))))
      (ruleName flags (resolveRel l d (imp ++ ".ts")) "" true) (cached l s).
Proof.
  intros HR Hkey Hrel Hq Hfile.
  unfold calculateTsDependencyLabel.
  rewrite (bind_Returned _ _ _ _ _ (static_lookup_relative_eq _ _ _ imp HR)).
  rewrite Hkey. simpl.
  assert (HR' : Readable flags (if Js.startsWith imp "." then cached l s else s) l d).
  { destruct (Js.startsWith imp "."); [now apply Readable_cached | exact HR]. }
  rewrite (bind_Returned _ _ _ _ _ (isWorkspaceRelative_eq _ _ imp (proj1 HR'))).
  rewrite Hrel.
  assert (Hs : cached l (if Js.startsWith imp "." then cached l s else s) = cached l s)
    by now destruct (Js.startsWith imp ".").
  rewrite Hs. unfold getLabelForFile.
  rewrite (bind_Returned _ _ _ _ _
             (resolveRelativeToWorkspace_eq _ _ _ (imp ++ ".ts")
                (Readable_cached _ _ _ HR))).
  rewrite (bind_Returned _ _ _ _ _ (static_lookup_eq _ _)).
  rewrite Hfile, Hq. simpl. unfold bind at 1, ret at 1. reflexivity.
Qed.

Lemma relative_import_label s l d fuel imp npm abs n :
  Readable flags s l d ->
  label_mapping flags !! staticKey l d imp = None ->
  wsRelative l imp || Js.startsWith imp "." = true ->
  use_bazel_query flags = false ->
  label_mapping flags !! resolveRel l d (imp ++ ".ts") = None ->
  label_mapping flags !! containingDirectory l d imp = None ->
  resolveAbsolute flags fuel (containingDirectory l d imp) (cached l s)
  = Returned abs (cached l s) ->
  fs s !! abs = Some n ->
  calculateTsDependencyLabel flags fuel imp npm s
  = Returned
      (parseAbsolute
         (labelText (containingDirectory l d imp)
            (ruleName flags (resolveRel l d (imp ++ ".ts")) "" true) n))
      (cached l s).
Proof.
  intros HR Hkey Hrel Hq Hfile Hdir Habs Hsome.
  rewrite (relative_import_delegates s l d fuel imp npm HR Hkey Hrel Hq Hfile).
  rewrite (getLabelFor_eq (cached l s) l d fuel _ _ abs
             (Readable_cached _ _ _ HR) Hdir Habs).
  cbn [fs cached]. rewrite Hsome. unfold labelText, containingDirectory.
  now destruct (Js.truthy _).
Qed.

Lemma getLabelFor_diverges s l d fuel p target :
  Readable flags s l d ->
  label_mapping flags !! resolveRel l d p = None ->
  resolveAbsolute flags fuel (resolveRel l d p) (cached l s) = OutOfFuel ->
  getLabelFor flags fuel p target s = OutOfFuel.
Proof.
  intros HR Hmap Habs. unfold getLabelFor.
  rewrite (bind_Returned _ _ _ _ _ (resolveRelativeToWorkspace_eq _ _ _ p HR)).
  rewrite (bind_Returned _ _ _ _ _ (static_lookup_eq _ _)).
  rewrite Hmap. simpl. now apply bind_OutOfFuel.
Qed.

(** With the listing read and the analysed path in place, [resolveAbsolute]
    neither throws nor changes the state: it returns or it recurses for
    ever. *)
Lemma resolveAbsolute_outcome s l d fuel p :
  Readable flags s l d ->
  (exists abs, resolveAbsolute flags fuel p (cached l s) = Returned abs (cached l s)) \/
  resolveAbsolute flags fuel p (cached l s) = OutOfFuel.
Proof.
  intros HR. revert p. induction fuel as [|fuel IH]; intros p; [now right|].
  destruct (Path.isAbsolute p) eqn:Habs.
  - left. exists p. now apply resolveAbsolute_absolute.
  - destruct (wsRelative l p) eqn:Hws.
    + left. eexists.
      exact (resolveAbsolute_workspace_relative (cached l s) l fuel p eq_refl Habs Hws).
    + rewrite (resolveAbsolute_hop (cached l s) l d fuel p
                 (Readable_cached _ _ _ HR) Habs Hws).
      apply IH.
Qed.

(** C1, as the code has it. A relative specifier that neither the static
    mapping nor the (disabled) query resolves is turned into a label from
    the directory of its [.ts] path, which [resolveAbsolute] first makes
    absolute.  That call returns or recurses for ever.  When it returns and
    nothing exists at the directory, the resolution throws what [lstatSync]
    throws, and a file whose first import is such a specifier yields no
    dependency set at all.  When it returns and something exists there, a
    label comes back and is added to the set: the [.ts] file itself is
    never looked at.  When it does not return, neither does the resolution
    of the specifier. *)
Theorem relative_import_needs_directory s l d fuel imp npm :
  Readable flags s l d ->
  label_mapping flags !! staticKey l d imp = None ->
  wsRelative l imp || Js.startsWith imp "." = true ->
  use_bazel_query flags = false ->
  label_mapping flags !! resolveRel l d (imp ++ ".ts") = None ->
  label_mapping flags !! containingDirectory l d imp = None ->
  ((exists abs,
       resolveAbsolute flags fuel (containingDirectory l d imp) (cached l s)
       = Returned abs (cached l s)) \/
   resolveAbsolute flags fuel (containingDirectory l d imp) (cached l s) = OutOfFuel) /\
  (forall abs,
      resolveAbsolute flags fuel (containingDirectory l d imp) (cached l s)
      = Returned abs (cached l s) ->
      fs s !! abs = None ->
      calculateTsDependencyLabel flags fuel imp npm s = Thrown (ENOENT abs) (cached l s) /\
      (forall tsFiles text rest exports labels,
          moduleSpecifierText text = Some imp ->
          includes tsFiles (ensureTs (resolveRel l d imp)) = false ->
          processTsFileAst flags fuel (text :: rest) exports tsFiles npm labels s
          = Thrown (ENOENT abs) (cached l s))) /\
  (forall abs n,
      resolveAbsolute flags fuel (containingDirectory l d imp) (cached l s)
      = Returned abs (cached l s) ->
      fs s !! abs = Some n ->
      let label :=
        parseAbsolute
          (labelText (containingDirectory l d imp)
             (ruleName flags (resolveRel l d (imp ++ ".ts")) "" true) n) in
      calculateTsDependencyLabel flags fuel imp npm s = Returned label (cached l s) /\
      (forall tsFiles text labels,
          moduleSpecifierText text = Some imp ->
          includes tsFiles (ensureTs (resolveRel l d imp)) = false ->
          exists s1,
            processTsFileAst flags fuel [text] [] tsFiles npm labels s
            = Returned (setAdd labels (toString label)) s1)) /\
  (resolveAbsolute flags fuel (containingDirectory l d imp) (cached l s) = OutOfFuel ->
   calculateTsDependencyLabel flags fuel imp npm s = OutOfFuel).
Proof.
  intros HR Hkey Hrel Hq Hfile Hdir.
  split; [exact (resolveAbsolute_outcome s l d fuel _ HR)|].
  split; [|split].
  - intros abs Habs Hnone.
    pose proof (relative_import_eq s l d fuel imp npm abs HR Hkey Hrel Hq Hfile Hdir Habs)
      as Hcalc.
    rewrite Hnone in Hcalc. split; [exact Hcalc|].
    intros tsFiles text rest exports labels Htext Hnotself.
    unfold processTsFileAst. apply bind_Thrown. apply mapM_first_throws.
    unfold resolveLabelFromModuleSpecifier. rewrite Htext.
    rewrite (bind_Returned _ _ _ _ _ (resolveRelativeToWorkspace_eq _ _ _ imp HR)).
    rewrite Hnotself. apply bind_Thrown.
    pose proof (relative_import_eq (cached l s) l d fuel imp npm abs
                  (Readable_cached _ _ _ HR) Hkey Hrel Hq Hfile Hdir Habs) as Hcalc'.
    simpl in Hcalc'. rewrite Hnone in Hcalc'. exact Hcalc'.
  - intros abs n Habs Hsome label.
    split; [exact (relative_import_label s l d fuel imp npm abs n
                     HR Hkey Hrel Hq Hfile Hdir Habs Hsome)|].
    intros tsFiles text labels Htext Hnotself.
    assert (Hcalc : calculateTsDependencyLabel flags fuel imp npm (cached l s)
                    = Returned label (cached l s)).
    { exact (relative_import_label (cached l s) l d fuel imp npm abs n
               (Readable_cached _ _ _ HR) Hkey Hrel Hq Hfile Hdir Habs Hsome). }
    assert (Hres : exists s1,
               resolveLabelFromModuleSpecifier flags fuel text tsFiles npm s
               = Returned (Some label) s1).
    { unfold resolveLabelFromModuleSpecifier. rewrite Htext.
      rewrite (bind_Returned _ _ _ _ _ (resolveRelativeToWorkspace_eq _ _ _ imp HR)).
      rewrite Hnotself. rewrite (bind_Returned _ _ _ _ _ Hcalc).
      unfold bind, log, emit, ret.
      destruct (verbose_import_mappings flags); eexists; reflexivity. }
    destruct Hres as [s1 Hres]. exists s1.
    unfold processTsFileAst. cbn [mapM]. unfold bind, ret. now rewrite Hres.
  - intros Hdiv.
    rewrite (relative_import_delegates s l d fuel imp npm HR Hkey Hrel Hq Hfile).
    apply (getLabelFor_diverges (cached l s) l d fuel _ _
             (Readable_cached _ _ _ HR) Hdir Hdiv).
Qed.

(** ** [invokeBuildozer] *)

(** C7, as the code has it. With no accumulated command the call returns
    without touching the file system or running a subprocess; it warns
    exactly when a command file is configured, and says nothing when the
    [buildozer_commands_file] flag is empty. *)
Theorem no_commands_no_invocation s :
  toCommands (buildozer s) = [] ->
  exists s',
    invokeBuildozer flags s = Returned tt s' /\
    fs s' = fs s /\
    spawned s' = spawned s /\
    console s'
    = (console s ++ (if Js.truthy (buildozer_commands_file flags)
                     then [(LWarn, noCommandsWarning)] else []))%list.
Proof.
  intros Hnone. unfold invokeBuildozer.
  destruct (Js.truthy (buildozer_commands_file flags)); simpl.
  - unfold bind. rewrite Hnone. simpl. eexists. repeat split; reflexivity.
  - eexists. repeat split; try reflexivity. simpl. now rewrite app_nil_r.
Qed.

Lemma invokeBuildozer_runs_editor s :
  Js.truthy (buildozer_commands_file flags) = true ->
  toCommands (buildozer s) <> [] ->
  generate_build_files flags = true ->
  invokeBuildozer flags s
  = (beforeEditor flags (toCommands (buildozer s)) ;;
     let* result := shellExec (buildozerCommand flags) (base_dir flags) false in
     cleanCommandsFile flags result) s.
Proof.
  intros Hfile Hcmds Hgen. unfold invokeBuildozer, beforeEditor.
  rewrite Hfile, Hgen. cbn [negb].
  unfold bind at 1.
  destruct (toCommands (buildozer s)) as [|c cs] eqn:E; [now elim Hcmds|].
  cbn [List.length Nat.eqb].
  unfold bind.
  repeat match goal with
         | |- context [match ?m ?st with _ => _ end] =>
             lazymatch type of (m st) with
             | Outcome _ => destruct (m st)
             end
         end; reflexivity.
Qed.

(** *** What a computation leaves behind *)

Lemma establishes_ret {A} (R : State -> State -> Prop) `{!Reflexive R} (a : A) :
  establishes R (ret a).
Proof. intros s a' s1 [= _ <-]. reflexivity. Qed.

Lemma establishes_bind {A B} (R : State -> State -> Prop) `{!Transitive R}
      (m : M A) (k : A -> M B) :
  establishes R m -> (forall a, establishes R (k a)) -> establishes R (bind m k).
Proof.
  intros Hm Hk s b s2 H. apply bind_inv in H as (a & s1 & H1 & H2).
  transitivity s1; [eapply Hm | eapply Hk]; eassumption.
Qed.

Lemma establishes_if {A} (R : State -> State -> Prop) (b : bool) (m1 m2 : M A) :
  establishes R m1 -> establishes R m2 -> establishes R (if b then m1 else m2).
Proof. now destruct b. Qed.

#[local] Instance quiet_refl : Reflexive quiet.
Proof.
  intros s. split; [reflexivity|]. exists []. split; [now rewrite app_nil_r | constructor].
Qed.

#[local] Instance quiet_trans : Transitive quiet.
Proof.
  intros s1 s2 s3 [Hs (l1 & Hc & Hl)] [Hs' (l2 & Hc' & Hl')]. split; [congruence|].
  exists (l1 ++ l2)%list. split.
  - rewrite Hc', Hc. now rewrite app_assoc.
  - apply Forall_app. now split.
Qed.

Lemma quiet_emit l msg :
  l = LLog \/ l = LDebug -> establishes quiet (emit l msg).
Proof.
  intros Hl s [] s1 [= <-]. split; [reflexivity|].
  exists [(l, msg)]. split; [reflexivity|]. constructor; [exact Hl | constructor].
Qed.

Lemma quiet_updateFs f : establishes quiet (updateFs f).
Proof.
  intros s [] s1 [= <-]. split; [reflexivity|].
  exists []. split; [simpl; now rewrite app_nil_r | constructor].
Qed.

Lemma quiet_lstatSync p : establishes quiet (lstatSync p).
Proof.
  intros s k s1. unfold lstatSync. destruct (fs s !! p); [|discriminate].
  intros [= _ <-]. reflexivity.
Qed.

Create HintDb quiet_db.
#[local] Hint Resolve quiet_updateFs quiet_lstatSync : quiet_db.
#[local] Hint Extern 1 (establishes quiet (emit _ _)) =>
  (apply quiet_emit; auto) : quiet_db.

(** Structural steps of a proof that a computation [establishes] a
    preorder; [db] holds the lemmas for the computations it is made of. *)
Ltac establish db :=
  repeat first
    [ solve [auto with db nocore]
    | lazymatch goal with
      | |- establishes _ (ret _) => apply establishes_ret; typeclasses eauto
      | |- establishes _ (throw _) => intros ? ? ?; discriminate
      | |- establishes _ (if _ then _ else _) => apply establishes_if
      | |- establishes _ (bind _ _) =>
          apply establishes_bind; [typeclasses eauto | | intros ?]
      | |- establishes _ (match ?x with _ => _ end) => destruct x
      end ].

Lemma quiet_getBuildFilePath : establishes quiet (getBuildFilePath flags).
Proof. unfold getBuildFilePath, isDirectory. establish quiet_db. Qed.
#[local] Hint Resolve quiet_getBuildFilePath : quiet_db.

Lemma quiet_hasBuildFileAtPath : establishes quiet (hasBuildFileAtPath flags).
Proof.
  unfold hasBuildFileAtPath.
  apply establishes_bind; [typeclasses eauto | apply quiet_getBuildFilePath | intros p].
  intros s b s1. destruct (fs s !! p); intros [= _ <-]; reflexivity.
Qed.
#[local] Hint Resolve quiet_hasBuildFileAtPath : quiet_db.

Lemma quiet_prepareBuildFile : establishes quiet (prepareBuildFile flags).
Proof. unfold prepareBuildFile, shellRm, shellTouch. establish quiet_db. Qed.
#[local] Hint Resolve quiet_prepareBuildFile : quiet_db.

Lemma quiet_writeFileSync p data : establishes quiet (writeFileSync p data).
Proof.
  intros s u s1. unfold writeFileSync.
  destruct (writeError (fs s) p); [discriminate | apply quiet_updateFs].
Qed.
#[local] Hint Resolve quiet_writeFileSync : quiet_db.

Lemma quiet_beforeEditor commands : establishes quiet (beforeEditor flags commands).
Proof.
  unfold beforeEditor, announceCommands, log, lb, debugLog.
  establish quiet_db.
Qed.

(** C6, as the code has it. Once the editor has run from state [s1] with
    result [r], leaving the file system [fs2]: the call returns normally
    whatever the exit code; the command file is removed exactly when cleanup
    is configured and the code is 0 or 3, and otherwise the file system is
    the one the editor left; the only console lines added are the editor's
    own output, and before that the tool wrote harmless lines only. *)
Theorem editor_exit_policy s s1 :
  Js.truthy (buildozer_commands_file flags) = true ->
  toCommands (buildozer s) <> [] ->
  generate_build_files flags = true ->
  beforeEditor flags (toCommands (buildozer s)) s = Returned tt s1 ->
  quiet s s1 /\
  exists s',
    invokeBuildozer flags s = Returned tt s' /\
    spawned s' = (spawned s1 ++ [buildozerCommand flags])%list /\
    let r := fst (exec (buildozerCommand flags) (base_dir flags) (fs s1)) in
    let fs2 := snd (exec (buildozerCommand flags) (base_dir flags) (fs s1)) in
    console s' = (console s1 ++ [(LStdout, stdout r); (LStderr, stderr r)])%list /\
    fs s' = (if ((code r =? 0)%Z || (code r =? 3)%Z) && clean_commands_file flags
             then delete (buildozerCommandsFilePath flags) fs2
             else fs2).
Proof.
  intros Hfile Hcmds Hgen Hbefore. split.
  { eapply quiet_beforeEditor. exact Hbefore. }
  rewrite (invokeBuildozer_runs_editor s Hfile Hcmds Hgen).
  rewrite (bind_Returned _ _ _ _ _ Hbefore).
  unfold bind, shellExec, cleanCommandsFile, shellRm, updateFs, ret.
  destruct (exec (buildozerCommand flags) (base_dir flags) (fs s1)) as [r fs2].
  simpl.
  destruct ((code r =? 0)%Z || (code r =? 3)%Z); simpl;
    [destruct (clean_commands_file flags)|];
    eexists; repeat split; reflexivity.
Qed.

(** ** What the resolution functions leave alone *)

#[local] Instance untouched_refl : Reflexive untouched.
Proof. now split. Qed.

#[local] Instance untouched_trans : Transitive untouched.
Proof. intros s1 s2 s3 [H1 H2] [H3 H4]. split; congruence. Qed.

Create HintDb frame_db.

Lemma untouched_lstatSync p : establishes untouched (lstatSync p).
Proof.
  intros s k s1. unfold lstatSync. destruct (fs s !! p); [|discriminate].
  intros [= _ <-]. reflexivity.
Qed.

Lemma untouched_readdirSync p : establishes untouched (readdirSync p).
Proof.
  intros s k s1. unfold readdirSync. destruct (fs s !! p) as [[| |]|]; try discriminate.
  intros [= _ <-]. reflexivity.
Qed.

Lemma untouched_getListing : establishes untouched (getListing flags).
Proof.
  intros s l s1. unfold getListing, readdirSync.
  destruct (listing s); [intros [= _ <-]; reflexivity|].
  destruct (fs s !! base_dir flags) as [[| |]|]; try discriminate.
  intros [= _ <-]. now split.
Qed.

Lemma untouched_emit l msg : establishes untouched (emit l msg).
Proof. intros s [] s1 [= <-]. now split. Qed.

Lemma untouched_shellExec cmd cwd silent : establishes untouched (shellExec cmd cwd silent).
Proof.
  intros s r s1. unfold shellExec. destruct (exec cmd cwd (fs s)).
  intros [= _ <-]. now split.
Qed.

Lemma untouched_setCache file l : establishes untouched (setCache file l).
Proof. intros s [] s1 [= <-]. now split. Qed.

#[local] Hint Resolve untouched_lstatSync untouched_readdirSync untouched_getListing
  untouched_emit untouched_shellExec untouched_setCache : frame_db.

Lemma establishes_mapM {A B} (R : State -> State -> Prop) `{!PreOrder R}
      (f : A -> M B) xs :
  (forall x, establishes R (f x)) -> establishes R (mapM f xs).
Proof.
  intros Hf. induction xs as [|x xs IH]; simpl.
  - apply establishes_ret. typeclasses eauto.
  - apply establishes_bind; [typeclasses eauto | apply Hf | intros y].
    apply establishes_bind; [typeclasses eauto | exact IH | intros ys].
    apply establishes_ret. typeclasses eauto.
Qed.

#[local] Instance untouched_preorder : PreOrder untouched.
Proof. split; typeclasses eauto. Qed.

Lemma untouched_isWorkspaceRelative p : establishes untouched (isWorkspaceRelative flags p).
Proof. unfold isWorkspaceRelative. establish frame_db. Qed.
#[local] Hint Resolve untouched_isWorkspaceRelative : frame_db.

Lemma untouched_getPathAsDirectory : establishes untouched (getPathAsDirectory flags).
Proof. unfold getPathAsDirectory, isFile. establish frame_db. Qed.
#[local] Hint Resolve untouched_getPathAsDirectory : frame_db.

Lemma untouched_resolveRelativeToWorkspace p :
  establishes untouched (resolveRelativeToWorkspace flags p).
Proof. unfold resolveRelativeToWorkspace. establish frame_db. Qed.
#[local] Hint Resolve untouched_resolveRelativeToWorkspace : frame_db.

Lemma untouched_resolveAbsolute fuel p :
  establishes untouched (resolveAbsolute flags fuel p).
Proof.
  revert p. induction fuel as [|fuel IH]; intros p; simpl.
  - intros ? ? ?. discriminate.
  - establish frame_db.
Qed.
#[local] Hint Resolve untouched_resolveAbsolute : frame_db.

Lemma untouched_readDirectory : establishes untouched (readDirectory flags).
Proof.
  unfold readDirectory, isDirectory. establish frame_db.
  apply establishes_mapM; [typeclasses eauto|]. intros x. establish frame_db.
Qed.
#[local] Hint Resolve untouched_readDirectory : frame_db.

Lemma untouched_static imp d r :
  establishes untouched (tryResolveLabelFromStaticMapping flags imp d r).
Proof. unfold tryResolveLabelFromStaticMapping. establish frame_db. Qed.
#[local] Hint Resolve untouched_static : frame_db.

Lemma untouched_getLabelFor fuel p target :
  establishes untouched (getLabelFor flags fuel p target).
Proof. unfold getLabelFor. establish frame_db. Qed.
#[local] Hint Resolve untouched_getLabelFor : frame_db.

Lemma untouched_getLabelForPath fuel : establishes untouched (getLabelForPath flags fuel).
Proof. apply untouched_getLabelFor. Qed.

Lemma untouched_queryForFile file : establishes untouched (queryForFile flags file).
Proof.
  intros s o s1. unfold queryForFile.
  destruct (fileQueryResultCache s !! file); [intros [= _ <-]; reflexivity|].
  revert s o s1. change (establishes untouched
    (bind (debugLog ("Query for containing rule with for file " ++ file))
       (fun _ => bind (shellExec (queryCommand flags file) (base_dir flags) (negb (debug flags)))
          (fun result => if (code result =? 0)%Z
             then if Js.truthy (Js.trim (stdout result))
                  then bind (setCache file (parseAbsolute (Js.trim (stdout result))))
                         (fun _ => ret (Some (parseAbsolute (Js.trim (stdout result)))))
                  else ret None
             else ret None)))).
  unfold debugLog. establish frame_db.
Qed.
#[local] Hint Resolve untouched_queryForFile : frame_db.

Lemma untouched_getLabelForFile fuel p suffix strip :
  establishes untouched (getLabelForFile flags fuel p suffix strip).
Proof. unfold getLabelForFile. establish frame_db. Qed.
#[local] Hint Resolve untouched_getLabelForFile : frame_db.

Lemma untouched_calculate fuel imp npm :
  establishes untouched (calculateTsDependencyLabel flags fuel imp npm).
Proof. unfold calculateTsDependencyLabel. establish frame_db. Qed.
#[local] Hint Resolve untouched_calculate : frame_db.

Lemma untouched_resolveLabel fuel text tsFiles npm :
  establishes untouched (resolveLabelFromModuleSpecifier flags fuel text tsFiles npm).
Proof. unfold resolveLabelFromModuleSpecifier, log. establish frame_db. Qed.
#[local] Hint Resolve untouched_resolveLabel : frame_db.

Lemma untouched_processTsFileAst fuel imports exports tsFiles npm labels :
  establishes untouched (processTsFileAst flags fuel imports exports tsFiles npm labels).
Proof.
  unfold processTsFileAst.
  apply establishes_bind; [typeclasses eauto| |intros ?].
  { apply establishes_mapM; [typeclasses eauto|]. intros x. establish frame_db. }
  apply establishes_bind; [typeclasses eauto| |intros ?].
  { apply establishes_mapM; [typeclasses eauto|]. intros x. establish frame_db. }
  establish frame_db.
Qed.

Lemma foldM_invariant {A B} (P : B -> Prop) (f : B -> A -> M B) xs :
  (forall acc x s acc' s', P acc -> f acc x s = Returned acc' s' -> P acc') ->
  forall acc s acc' s', P acc -> foldM f xs acc s = Returned acc' s' -> P acc'.
Proof.
  intros Hf. induction xs as [|x xs IH]; intros acc s acc' s' HP H; simpl in H.
  - now injection H as <- _.
  - apply bind_inv in H as (acc1 & s1 & H1 & H2).
    eapply IH; [|exact H2]. eapply Hf; eassumption.
Qed.

Lemma readFile_reads fuel f s content s1 :
  readFile flags fuel f s = Returned content s1 ->
  buildozer s1 = buildozer s /\
  exists p sa, resolveAbsolute flags fuel f s = Returned p sa /\
               reads s1 = (reads s ++ [p])%list.
Proof.
  unfold readFile. intros H. apply bind_inv in H as (p & sa & Hp & Hr).
  destruct (untouched_resolveAbsolute fuel f _ _ _ Hp) as [Hb Hreads].
  unfold readFileSync in Hr.
  destruct (fs sa !! p) as [[content'| |]|]; try discriminate.
  injection Hr as _ <-. simpl. split; [exact Hb|].
  exists p, sa. split; [exact Hp | now rewrite Hreads].
Qed.

Lemma processFile_reads fuel f tsFiles npm labels s labels' s1 :
  processFile flags fuel f tsFiles npm labels s = Returned labels' s1 ->
  buildozer s1 = buildozer s /\
  exists p sa, resolveAbsolute flags fuel f s = Returned p sa /\
               reads s1 = (reads s ++ [p])%list.
Proof.
  unfold processFile. intros H. apply bind_inv in H as (content & s0 & Hread & Hast).
  destruct (readFile_reads _ _ _ _ _ Hread) as (Hb & p & sa & Hp & Hr).
  destruct (untouched_processTsFileAst _ _ _ _ _ _ _ _ _ Hast) as [Hb' Hr'].
  split; [congruence|]. exists p, sa. split; [exact Hp | congruence].
Qed.

Lemma foldM_processFile_reads fuel tsFiles npm files labels s labels' s1 :
  foldM (fun deps file => processFile flags fuel file tsFiles npm deps) files labels s
  = Returned labels' s1 ->
  buildozer s1 = buildozer s /\
  exists newReads,
    reads s1 = (reads s ++ newReads)%list /\
    Forall2 (fun f p => exists sa sb, resolveAbsolute flags fuel f sa = Returned p sb)
            files newReads.
Proof.
  revert labels s. induction files as [|f files IH]; intros labels s H; simpl in H.
  - injection H as _ <-. split; [reflexivity|]. exists []. split; [now rewrite app_nil_r | constructor].
  - apply bind_inv in H as (l1 & s0 & H1 & H2).
    destruct (processFile_reads _ _ _ _ _ _ _ _ H1) as (Hb & p & sa & Hp & Hr).
    destruct (IH _ _ H2) as (Hb' & rs & Hrs & Hall).
    split; [congruence|]. exists (p :: rs). split.
    + rewrite Hrs, Hr. now rewrite <- app_assoc.
    + constructor; [now exists s, sa | exact Hall].
Qed.

(** ** The dependency set *)
Lemma includes_elem_of l x : includes l x = true <-> x ∈ l.
Proof.
  rewrite list_elem_of_In. unfold includes. rewrite existsb_exists. split.
  - intros (y & Hy & E). apply String.eqb_eq in E. now subst.
  - intros H. exists x. split; [assumption | apply String.eqb_refl].
Qed.


Lemma setAdd_NoDup labels x : NoDup labels -> NoDup (setAdd labels x).
Proof.
  intros H. unfold setAdd. destruct (includes labels x) eqn:E; [exact H|].
  apply NoDup_app. split; [exact H|]. split; [|apply NoDup_singleton].
  intros y Hy Hyx. apply list_elem_of_singleton in Hyx. subst y.
  apply includes_elem_of in Hy. congruence.
Qed.



Lemma addLabels_cons o rs labels :
  addLabels (o :: rs) labels
  = addLabels rs (match o with Some l => setAdd labels (toString l) | None => labels end).
Proof. reflexivity. Qed.

Lemma addLabels_NoDup resolved labels : NoDup labels -> NoDup (addLabels resolved labels).
Proof.
  revert labels. induction resolved as [|o rs IH]; intros labels H; [exact H|].
  rewrite addLabels_cons. apply IH. destruct o; [now apply setAdd_NoDup | exact H].
Qed.




Lemma processTsFileAst_NoDup fuel imports exports tsFiles npm labels s labels' s' :
  NoDup labels ->
  processTsFileAst flags fuel imports exports tsFiles npm labels s = Returned labels' s' ->
  NoDup labels'.
Proof.
  intros Hnd H. unfold processTsFileAst in H.
  apply bind_inv in H as (r1 & s1 & _ & H).
  apply bind_inv in H as (r2 & s2 & _ & H).
  injection H as <- _. now repeat apply addLabels_NoDup.
Qed.

Lemma generate_inv fuel s s' :
  generate flags fuel s = Returned tt s' ->
  exists files s1 deps s2 label s3,
    readDirectory flags s = Returned files s1 /\
    foldM (fun deps file =>
             processFile flags fuel file (selectTsFiles flags files)
               (npm_workspace_name flags) deps)
          (selectTsFiles flags files) [] s1 = Returned deps s2 /\
    getLabelForPath flags fuel s2 = Returned label s3 /\
    reads s' = reads s3 /\
    exists rest,
      buildozer s'
      = (buildozer s3
           ++ NewTsLibraryRule label
           :: SetSrcs (List.map (fun p => Path.base (Path.parse p))
                         (selectTsFiles flags files))
           :: AddDeps deps :: rest)%list.
Proof.
  unfold generate. intros H.
  apply bind_inv in H as (files & s1 & Hdir & H).
  apply bind_inv in H as (deps & s2 & Hfold & H).
  apply bind_inv in H as (label & s3 & Hlabel & H).
  exists files, s1, deps, s2, label, s3. repeat split; try assumption.
  - unfold bind, record, ret in H.
    destruct (Js.truthy (ts_config_label flags)), (Js.truthy (default_visibility flags));
      injection H as <-; reflexivity.
  - unfold bind, record, ret in H.
    destruct (Js.truthy (ts_config_label flags)), (Js.truthy (default_visibility flags));
      injection H as <-; simpl; rewrite <- ?app_assoc; simpl; eexists; reflexivity.
Qed.








(** ** The package of an external import *)

(** C4. A specifier that is not relative (it neither starts with ['.'] nor
    begins with a top-level entry of the workspace) and has no static
    mapping resolves to the label parsed from [@<npm workspace>//<reduced>],
    with nothing after the package: [reduced] joins the first two segments
    of the specifier when it starts with ['@'] and its first segment
    otherwise, and when those segments are plain names it is exactly those
    segments separated by ['/']. *)
Theorem external_package_label s l fuel imp npm :
  theListing flags s = Some l ->
  Js.startsWith imp "." = false ->
  wsRelative l imp = false ->
  label_mapping flags !! imp = None ->
  exists reduced,
    calculateTsDependencyLabel flags fuel imp npm s
    = Returned (parseAbsolute ("@" ++ npm ++ "//" ++ reduced)) (cached l s) /\
    reduced = Path.join (List.firstn (keptSegments imp) (Js.split Path.sep imp)) /\
    (Forall plainSegment (List.firstn (keptSegments imp) (Js.split Path.sep imp)) ->
     reduced = Js.join "/" (List.firstn (keptSegments imp) (Js.split Path.sep imp))).
Proof.
  intros Hl Hdot Hws Hmap. eexists. split; [now apply external_package_eq|].
  split; [reflexivity|]. intros Hplain. apply join_plain; [|exact Hplain|].
  - pose proof (split_nonempty Path.sep imp) as Hne.
    unfold keptSegments. destruct (Js.split Path.sep imp); [now elim Hne|].
    destruct (Js.startsWith imp "@"); discriminate.
  - pose proof (split_noChar Path.sep imp) as Hall.
    rewrite <- (firstn_skipn (keptSegments imp) (Js.split Path.sep imp)) in Hall.
    now apply Forall_app in Hall as [Hall _].
Qed.

(** ** The path-escape guard *)

Lemma leadingTraversal_startsWith raw :
  leadingTraversal raw -> Js.startsWith raw ".." = true.
Proof.
  intros [->|[rest ->]]; [reflexivity|].
  change ("../" ++ rest) with (".." ++ ("/" ++ rest)). apply startsWith_append.
Qed.

(** C9. [coerce] ends the run with [fatal] for every argument that begins
    with [".."]; so does the positional [path] for every raw argument whose
    first segment is [".."], whether yargs normalises before or after it
    calls [coerce], since normalisation keeps such a segment.  Nothing but
    the console line changes: no listing is read and no path is resolved.
    A raw argument that is accepted has no leading [".."] segment, and the
    path it yields is its normal form. *)
Theorem leading_traversal_is_rejected s :
  (forall arg,
      Js.startsWith arg ".." = true ->
      coercePath arg s = Thrown (ProcessExit 1) (reported LFatal escapeMessage s)) /\
  (forall order raw,
      leadingTraversal raw ->
      positionalPath order raw s
      = Thrown (ProcessExit 1) (reported LFatal escapeMessage s)) /\
  (forall order raw p s',
      positionalPath order raw s = Returned p s' ->
      ~ leadingTraversal raw /\ p = Path.normalize raw /\ s' = s).
Proof.
  assert (Hcoerce : forall arg,
             Js.startsWith arg ".." = true ->
             coercePath arg s = Thrown (ProcessExit 1) (reported LFatal escapeMessage s)).
  { intros arg H. unfold coercePath. now rewrite H. }
  split; [exact Hcoerce|]. split.
  - intros [|] raw H; unfold positionalPath.
    + apply Hcoerce. now apply normalize_leading_traversal.
    + apply bind_Thrown. apply Hcoerce. now apply leadingTraversal_startsWith.
  - intros [|] raw p s'; unfold positionalPath, coercePath.
    + destruct (Js.startsWith (Path.normalize raw) "..") eqn:E; [discriminate|].
      intros [= <- <-]. split; [|now split].
      intros H. apply normalize_leading_traversal in H. congruence.
    + destruct (Js.startsWith raw "..") eqn:E; [discriminate|].
      intros [= <- <-]. split; [|now split].
      intros H. apply leadingTraversal_startsWith in H. congruence.
Qed.

(** ** Spec files *)

Lemma selectTsFiles_spec files f :
  f ∈ selectTsFiles flags files ->
  Js.endsWith f ".ts" = true /\
  (ignore_spec_files flags = true -> Js.endsWith f ".spec.ts" = false).
Proof.
  unfold selectTsFiles. rewrite list_elem_of_In.
  intros H. apply List.filter_In in H as [H Hspec].
  apply List.filter_In in H as [_ Hts]. split; [exact Hts|].
  intros Hig. rewrite Hig in Hspec. simpl in Hspec.
  now destruct (Js.endsWith f ".spec.ts").
Qed.

(** C10. With [ignore_spec_files] set, when [generate] returns: no source
    file of the rule ends in [.spec.ts], and neither does any name listed in
    [srcs]; the files read are the source files, one read each, in order; a
    path that ends in [.spec.ts] is not among the source files, so a
    specifier that resolves to one is not taken for a self-import but handed
    to the cascade. *)
Theorem spec_files_are_excluded fuel s s' :
  ignore_spec_files flags = true ->
  generate flags fuel s = Returned tt s' ->
  exists files s1 label deps rest newReads,
    readDirectory flags s = Returned files s1 /\
    Forall (fun f => Js.endsWith f ".spec.ts" = false) (selectTsFiles flags files) /\
    buildozer s'
    = (buildozer s
         ++ NewTsLibraryRule label
         :: SetSrcs (List.map (fun p => Path.base (Path.parse p))
                       (selectTsFiles flags files))
         :: AddDeps deps :: rest)%list /\
    Forall (fun src => Js.endsWith src ".spec.ts" = false)
           (List.map (fun p => Path.base (Path.parse p)) (selectTsFiles flags files)) /\
    reads s' = (reads s ++ newReads)%list /\
    Forall2 (fun f p => exists sa sb, resolveAbsolute flags fuel f sa = Returned p sb)
            (selectTsFiles flags files) newReads /\
    (forall text spec npm st wri st1,
        moduleSpecifierText text = Some spec ->
        resolveRelativeToWorkspace flags spec st = Returned wri st1 ->
        Js.endsWith (ensureTs wri) ".spec.ts" = true ->
        resolveLabelFromModuleSpecifier flags fuel text (selectTsFiles flags files) npm st
        = (let* label := calculateTsDependencyLabel flags fuel spec npm in
           (if verbose_import_mappings flags
            then log (spec ++ "=" ++ toString label) else ret tt) ;;
           ret (Some label)) st1).
Proof.
  intros Hig H.
  apply generate_inv in H
    as (files & s1 & deps & s2 & label & s3 & Hdir & Hfold & Hlabel & Hreads & rest & Hb).
  destruct (untouched_readDirectory _ _ _ Hdir) as [Hb1 Hr1].
  destruct (foldM_processFile_reads _ _ _ _ _ _ _ _ Hfold) as (Hb2 & newReads & Hr2 & Hall).
  destruct (untouched_getLabelForPath _ _ _ _ Hlabel) as [Hb3 Hr3].
  assert (Hnospec : Forall (fun f => Js.endsWith f ".spec.ts" = false)
                           (selectTsFiles flags files)).
  { apply List.Forall_forall. intros f Hf. apply list_elem_of_In in Hf.
    now apply (selectTsFiles_spec files f Hf). }
  exists files, s1, label, deps, rest, newReads.
  split; [exact Hdir|]. split; [exact Hnospec|]. split; [rewrite Hb; f_equal; congruence|].
  split; [|split; [congruence|split; [exact Hall|]]].
  - apply List.Forall_forall. intros src Hsrc. apply List.in_map_iff in Hsrc as (f & <- & Hf).
    apply list_elem_of_In in Hf. destruct (selectTsFiles_spec files f Hf) as [Hts Hspec].
    destruct (Js.endsWith (Path.base (Path.parse f)) ".spec.ts") eqn:E; [|reflexivity].
    rewrite <- (Hspec Hig). symmetry. now apply base_keeps_suffix.
  - intros text spec npm st wri st1 Htext Hwri Hcand.
    unfold resolveLabelFromModuleSpecifier. rewrite Htext.
    rewrite (bind_Returned _ _ _ _ _ Hwri).
    destruct (includes (selectTsFiles flags files) (ensureTs wri)) eqn:E; [|reflexivity].
    apply includes_elem_of in E.
    destruct (selectTsFiles_spec files _ E) as [_ Hspec]. rewrite (Hspec Hig) in Hcand.
    discriminate.
Qed.

End Properties.

(** * The sample workspace, run *)

Module Runs.

Import Sample.

Lemma sample_readable code :
  @Readable (collaborators code) flags (initial code) topLevel "src/app".
Proof.
  split; [reflexivity|].
  exists (NDir ["a.spec.ts"; "a.ts"; "b.ts"]). split; reflexivity.
Qed.

(** C1 fails on the code: [./missing] names no file of the package
    [src/app], yet it resolves, and its label joins the dependency set. *)
Lemma missing_file_still_resolves :
  files !! "/ws/src/app/missing.ts" = None /\
  @calculateTsDependencyLabel (collaborators 0) flags 1 "./missing" "npm" (initial 0)
  = Returned "//src/app:missing" (cached topLevel (initial 0)) /\
  @processTsFileAst (collaborators 0) flags 1 ["'./missing'"] []
    ["src/app/a.ts"; "src/app/b.ts"] "npm" [] (initial 0)
  = Returned ["//src/app:missing"] (cached topLevel (initial 0)).
Proof. repeat split; vm_compute; reflexivity. Qed.

Lemma relative_import_needs_directory_witness :
  @calculateTsDependencyLabel (collaborators 0) flags 1 "../nodir/missing" "npm"
    (initial 0)
  = Thrown (ENOENT "/ws/src/nodir") (cached topLevel (initial 0)).
Proof.
  assert (Habs : @resolveAbsolute (collaborators 0) flags 1
                   (containingDirectory topLevel "src/app" "../nodir/missing")
                   (cached topLevel (initial 0))
                 = Returned "/ws/src/nodir" (cached topLevel (initial 0)))
    by (vm_compute; reflexivity).
  exact (proj1 (proj1 (proj2
           (@relative_import_needs_directory (collaborators 0) flags (initial 0)
              topLevel "src/app" 1 "../nodir/missing" "npm"
              (sample_readable 0) eq_refl eq_refl eq_refl eq_refl eq_refl))
           "/ws/src/nodir" Habs eq_refl)).
Defined.

Lemma mapped_readable code :
  @Readable (collaborators code) mappedFlags (initial code) topLevel "src/app".
Proof.
  split; [reflexivity|].
  exists (NDir ["a.spec.ts"; "a.ts"; "b.ts"]). split; reflexivity.
Qed.

Lemma root_readable code :
  @Readable (collaborators code) rootFlags (initial code) topLevel ".".
Proof.
  split; [reflexivity|].
  exists (NDir topLevel). split; reflexivity.
Qed.

Lemma static_mapping_takes_precedence_witness :
  exists s',
    @calculateTsDependencyLabel (collaborators 0) mappedFlags 0 "lodash" "npm" (initial 0)
    = Returned "//third_party:lodash" s' /\
    s' = initial 0 /\
    spawned s' = [] /\
    fileQueryResultCache s' = ∅ /\
    fs s' = files /\ console s' = [] /\ reads s' = [].
Proof.
  apply (@static_mapping_takes_precedence (collaborators 0) mappedFlags (initial 0)
           topLevel "src/app" 0 "lodash" "npm" "//third_party:lodash").
  - apply mapped_readable.
  - reflexivity.
Defined.

Lemma self_import_is_skipped_witness :
  (forall text,
      selfImport topLevel "src/app" ["src/app/a.ts"; "src/app/b.ts"] text ->
      @resolveLabelFromModuleSpecifier (collaborators 0) flags 0 text
        ["src/app/a.ts"; "src/app/b.ts"] "npm" (initial 0)
      = Returned None (cached topLevel (initial 0))) /\
  (forall imports exports labels,
      Forall (selfImport topLevel "src/app"
                ["src/app/a.ts"; "src/app/b.ts"]) imports ->
      Forall (selfImport topLevel "src/app"
                ["src/app/a.ts"; "src/app/b.ts"]) exports ->
      exists s',
        @processTsFileAst (collaborators 0) flags 0 imports exports
          ["src/app/a.ts"; "src/app/b.ts"] "npm" labels (initial 0)
        = Returned labels s' /\
        (s' = initial 0 \/ s' = cached topLevel (initial 0))).
Proof.
  apply (@self_import_is_skipped (collaborators 0) flags (initial 0) topLevel "src/app" 0
           ["src/app/a.ts"; "src/app/b.ts"] "npm").
  apply sample_readable.
Defined.

(** The import of [./b] by [a.ts] is one of those. *)
Lemma sibling_is_self_import :
  selfImport topLevel "src/app" ["src/app/a.ts"; "src/app/b.ts"] "'./b'".
Proof. exists "./b". split; reflexivity. Qed.

(** C5 fails on the code. Pointed at the workspace root ([path] is ["."]),
    [resolveAbsolute(".")] re-resolves ["."] to itself and never returns,
    whatever the fuel; so neither does [getLabelForPath], which [generate]
    calls to name the rule. *)
Theorem resolveAbsolute_never_returns_at_root :
  forall fuel,
    @resolveAbsolute (collaborators 0) rootFlags fuel "." (initial 0) = OutOfFuel /\
    @getLabelForPath (collaborators 0) rootFlags fuel (initial 0) = OutOfFuel.
Proof.
  intros fuel. split.
  - apply (@resolveAbsolute_fixpoint_diverges (collaborators 0) rootFlags (initial 0)
             topLevel "." "." (root_readable 0)); reflexivity.
  - unfold getLabelForPath, getLabelFor.
    rewrite (bind_Returned _ _ _ _ _
               (@resolveRelativeToWorkspace_eq (collaborators 0) rootFlags (initial 0)
                  topLevel "." (path rootFlags) (root_readable 0))).
    rewrite (bind_Returned _ _ _ _ _ (static_lookup_eq _ _ _)).
    change (label_mapping rootFlags !! resolveRel topLevel "." (path rootFlags))
      with (@None string).
    simpl fmap. cbv iota. apply bind_OutOfFuel.
    apply (@resolveAbsolute_fixpoint_diverges (collaborators 0) rootFlags
             (cached topLevel (initial 0)) topLevel "." ".");
      [apply Readable_cached, root_readable | reflexivity..].
Qed.

(** With the tool pointed at the workspace root, the directory of
    [./missing] is ["."] again, so the resolution of that specifier never
    returns either, although [/ws] exists. *)
Lemma relative_import_at_root_never_returns :
  forall fuel,
    @calculateTsDependencyLabel (collaborators 0) rootFlags fuel "./missing" "npm"
      (initial 0)
    = OutOfFuel.
Proof.
  intros fuel.
  rewrite (@relative_import_delegates (collaborators 0) rootFlags (initial 0) topLevel "."
             fuel "./missing" "npm" (root_readable 0) eq_refl eq_refl eq_refl eq_refl).
  apply (@getLabelFor_diverges (collaborators 0) rootFlags (cached topLevel (initial 0))
           topLevel "." fuel).
  - apply Readable_cached, root_readable.
  - reflexivity.
  - apply (@resolveAbsolute_fixpoint_diverges (collaborators 0) rootFlags
             (cached topLevel (initial 0)) topLevel "." ".");
      [apply Readable_cached, root_readable | reflexivity..].
Qed.

(** The retry is not limited to one hop either: from the package [src/app],
    [../../x] is re-resolved to [x] and then to [src/app/x]. *)
Lemma resolveAbsolute_takes_two_hops :
  @resolveAbsolute (collaborators 0) flags 2 "../../x" (initial 0) = OutOfFuel /\
  @resolveAbsolute (collaborators 0) flags 3 "../../x" (initial 0)
  = Returned "/ws/src/app/x" (cached topLevel (initial 0)).
Proof. split; vm_compute; reflexivity. Qed.

(** C7 fails on the code: with the [buildozer_commands_file] flag empty and
    no command accumulated, the call returns without a warning. *)
Lemma silent_without_command_file :
  @toCommands (collaborators 0) (buildozer (initial 0)) = [] /\
  @invokeBuildozer (collaborators 0) (flagsFor "src/app" "") (initial 0)
  = Returned tt (initial 0) /\
  console (initial 0) = [].
Proof. repeat split. Qed.

Lemma no_commands_no_invocation_witness :
  exists s',
    @invokeBuildozer (collaborators 0) flags (initial 0) = Returned tt s' /\
    fs s' = files /\
    spawned s' = [] /\
    console s' = [(LWarn, noCommandsWarning)].
Proof.
  apply (@no_commands_no_invocation (collaborators 0) flags (initial 0)).
  reflexivity.
Defined.

(** C6 fails on the code: the editor exits with code 1 and prints nothing;
    the command file stays, the call returns, and the console holds the two
    debug lines written before the run and the editor's empty output: no
    error is reported. *)
Lemma editor_failure_goes_unreported :
  @invokeBuildozer (collaborators 1) flags (withRule 1) = Returned tt afterEditorFailure /\
  fs afterEditorFailure !! "/ws/commands.txt"
  = Some (NFile ("new ts_library|//src/app" ++ nl ++ "set srcs a.ts b.ts" ++ nl
                   ++ "add deps @npm//lodash")) /\
  console afterEditorFailure
  = [(LDebug, "Invoking buildozer:");
     (LDebug, "buildozer -shorten_labels -eol-comments=true -k -f /ws/commands.txt");
     (LStdout, ""); (LStderr, "")].
Proof. split; [vm_compute; reflexivity|]. split; vm_compute; reflexivity. Qed.

Lemma external_package_label_witness :
  @calculateTsDependencyLabel (collaborators 0) flags 0 "@scope/pkg/deep/path" "npm"
    (initial 0)
  = Returned "@npm//@scope/pkg" (cached topLevel (initial 0)).
Proof.
  destruct (@external_package_label (collaborators 0) flags (initial 0) topLevel 0
              "@scope/pkg/deep/path" "npm" eq_refl eq_refl eq_refl eq_refl)
    as (reduced & Hcalc & _ & Hplain).
  rewrite Hcalc, Hplain; [reflexivity|].
  change (Forall plainSegment ["@scope"; "pkg"]).
  repeat constructor; discriminate.
Defined.

Lemma editor_exit_policy_witness :
  exists s',
    @invokeBuildozer (collaborators 1) flags (withRule 1) = Returned tt s' /\
    fs s' = fs editorState /\
    console s' = (console editorState ++ [(LStdout, ""); (LStderr, "")])%list.
Proof.
  assert (Hcommands : @toCommands (collaborators 1) (buildozer (withRule 1)) <> [])
    by discriminate.
  destruct (@editor_exit_policy (collaborators 1) flags (withRule 1) editorState
              eq_refl Hcommands eq_refl eq_refl)
    as [_ (s' & Hinv & _ & Hconsole & Hfs)].
  exists s'. split; [exact Hinv|]. split; [exact Hfs | exact Hconsole].
Defined.

Lemma sample_generate :
  @generate (collaborators 0) flags 1 (initial 0) = Returned tt generated.
Proof. vm_compute. reflexivity. Qed.


(** Both [a.ts] and [b.ts] import [lodash]; the rule depends on it once. *)
Lemma lodash_is_listed_once :
  buildozer generated
  = [NewTsLibraryRule "//src/app"; SetSrcs ["a.ts"; "b.ts"];
     AddDeps ["@npm//lodash"; "@npm//@scope/pkg"; "//src/app:a-spec"]].
Proof. reflexivity. Qed.

Lemma leading_traversal_is_rejected_witness :
  @positionalPath (collaborators 0) CoerceFirst "../secrets" (initial 0)
  = Thrown (ProcessExit 1) (reported LFatal escapeMessage (initial 0)).
Proof.
  apply (proj1 (proj2 (@leading_traversal_is_rejected (collaborators 0) (initial 0)))).
  right. exists "secrets". reflexivity.
Defined.

(** The guard looks at the leading segment only: when yargs calls [coerce]
    on the raw argument, [src/../../x] is accepted and becomes [../x]; when
    it normalises first, the same argument is rejected. *)
Lemma inner_traversal_depends_on_yargs :
  @positionalPath (collaborators 0) CoerceFirst "src/../../x" (initial 0)
  = Returned "../x" (initial 0) /\
  @positionalPath (collaborators 0) NormalizeFirst "src/../../x" (initial 0)
  = Thrown (ProcessExit 1) (reported LFatal escapeMessage (initial 0)).
Proof. split; reflexivity. Qed.

Lemma spec_files_are_excluded_witness :
  exists files deps rest,
    Forall (fun f => Js.endsWith f ".spec.ts" = false) (@selectTsFiles flags files) /\
    buildozer generated
    = (NewTsLibraryRule "//src/app"
         :: SetSrcs (List.map (fun p => Path.base (Path.parse p))
                       (@selectTsFiles flags files))
         :: AddDeps deps :: rest) /\
    reads generated = ["/ws/src/app/a.ts"; "/ws/src/app/b.ts"].
Proof.
  destruct (@spec_files_are_excluded (collaborators 0) flags 1 (initial 0) generated
              eq_refl sample_generate)
    as (files & s1 & label & deps & rest & newReads & _ & Hspec & Hb & _ & _ & _ & _).
  exists files, deps, rest. split; [exact Hspec|]. split; [|reflexivity].
  change (buildozer (initial 0)) with (@nil (BuilderCall string)) in Hb.
  rewrite app_nil_l in Hb. rewrite Hb. f_equal.
  change (buildozer generated)
    with [@NewTsLibraryRule string "//src/app"; SetSrcs ["a.ts"; "b.ts"];
          AddDeps ["@npm//lodash"; "@npm//@scope/pkg"; "//src/app:a-spec"]] in Hb.
  now injection Hb as <-.
Defined.

End Runs.

(** * Properties of whole runs

    What holds of [generate], of the query cache, of the command file and
    of the start-up checks on every input. *)

(** ** Frame rules that also cover exceptions *)

Section Frame.
Context `{C : Collaborators}.
Variable flags : Flags.
Variable R : State -> State -> Prop.
Context `{!PreOrder R}.
Hypothesis R_cached : forall s l, listing s = None -> R s (cached l s).
Hypothesis R_read : forall s p, R s (appendRead p s).
Hypothesis R_query :
  forall p, always R (if use_bazel_query flags then queryForFile flags p else ret None).
Hypothesis R_verbose :
  forall msg, always R (if verbose_import_mappings flags then log msg else ret tt).
Hypothesis R_record : forall s calls, R s (recorded calls s).

Lemma always_ret {A} (a : A) : always R (ret a).
Proof. intros s. simpl. reflexivity. Qed.

Lemma always_throw {A} e : always R (@throw _ A e).
Proof. intros s. simpl. reflexivity. Qed.

Lemma always_bind {A B} (m : M A) (k : A -> M B) :
  always R m -> (forall a, always R (k a)) -> always R (bind m k).
Proof.
  intros Hm Hk s. unfold bind. specialize (Hm s).
  destruct (m s) as [a s1|e s1|]; [|exact Hm|exact I].
  specialize (Hk a s1). destruct (k a s1); try exact I; now transitivity s1.
Qed.

Lemma always_if {A} (b : bool) (m1 m2 : M A) :
  always R m1 -> always R m2 -> always R (if b then m1 else m2).
Proof. now destruct b. Qed.

Lemma always_mapM {A B} (f : A -> M B) xs :
  (forall x, always R (f x)) -> always R (mapM f xs).
Proof.
  intros Hf. induction xs as [|x xs IH]; simpl; [apply always_ret|].
  apply always_bind; [apply Hf|intros y].
  apply always_bind; [exact IH|intros ys]. apply always_ret.
Qed.

Lemma always_foldM {A B} (f : B -> A -> M B) xs acc :
  (forall acc x, always R (f acc x)) -> always R (foldM f xs acc).
Proof.
  intros Hf. revert acc. induction xs as [|x xs IH]; intros acc; simpl; [apply always_ret|].
  apply always_bind; [apply Hf | intros acc'; apply IH].
Qed.

Ltac settle :=
  repeat first
    [ solve [auto with always_db nocore]
    | lazymatch goal with
      | |- always _ (ret _) => apply always_ret
      | |- always _ (throw _) => apply always_throw
      | |- always _ (if _ then _ else _) => apply always_if
      | |- always _ (bind _ _) => apply always_bind; [ | intros ?]
      | |- always _ (mapM _ _) => apply always_mapM; intros ?
      | |- always _ (match ?x with _ => _ end) => destruct x
      end ].

Create HintDb always_db.

Lemma always_lstatSync p : always R (lstatSync p).
Proof. intros s. unfold lstatSync. destruct (fs s !! p); reflexivity. Qed.

Lemma always_readdirSync p : always R (readdirSync p).
Proof. intros s. unfold readdirSync. destruct (fs s !! p) as [[| |]|]; reflexivity. Qed.

Lemma always_readFileSync p : always R (readFileSync p).
Proof.
  intros s. unfold readFileSync. destruct (fs s !! p) as [[| |]|]; try reflexivity.
  apply R_read.
Qed.

Lemma always_getListing : always R (getListing flags).
Proof.
  intros s. unfold getListing, readdirSync. destruct (listing s) eqn:E; [reflexivity|].
  destruct (fs s !! base_dir flags) as [[| |]|]; try reflexivity.
  now apply R_cached.
Qed.

#[local] Hint Resolve always_lstatSync always_readdirSync always_readFileSync
  always_getListing : always_db.

Lemma always_isWorkspaceRelative p : always R (isWorkspaceRelative flags p).
Proof. unfold isWorkspaceRelative. settle. Qed.
#[local] Hint Resolve always_isWorkspaceRelative : always_db.

Lemma always_isDirectory : always R (isDirectory flags).
Proof. unfold isDirectory. settle. Qed.
#[local] Hint Resolve always_isDirectory : always_db.

Lemma always_getPathAsDirectory : always R (getPathAsDirectory flags).
Proof. unfold getPathAsDirectory, isFile. settle. Qed.
#[local] Hint Resolve always_getPathAsDirectory : always_db.

Lemma always_resolveRelativeToWorkspace p : always R (resolveRelativeToWorkspace flags p).
Proof. unfold resolveRelativeToWorkspace. settle. Qed.
#[local] Hint Resolve always_resolveRelativeToWorkspace : always_db.

Lemma always_resolveAbsolute fuel p : always R (resolveAbsolute flags fuel p).
Proof.
  revert p. induction fuel as [|fuel IH]; intros p; simpl.
  - intros s. exact I.
  - settle.
Qed.
#[local] Hint Resolve always_resolveAbsolute : always_db.

Lemma always_readFile fuel p : always R (readFile flags fuel p).
Proof. unfold readFile. settle. Qed.
#[local] Hint Resolve always_readFile : always_db.

Lemma always_readDirectory : always R (readDirectory flags).
Proof. unfold readDirectory. settle. Qed.
#[local] Hint Resolve always_readDirectory : always_db.

Lemma always_static imp d r : always R (tryResolveLabelFromStaticMapping flags imp d r).
Proof. unfold tryResolveLabelFromStaticMapping. settle. Qed.
#[local] Hint Resolve always_static : always_db.

Lemma always_getLabelFor fuel p target : always R (getLabelFor flags fuel p target).
Proof. unfold getLabelFor. settle. Qed.
#[local] Hint Resolve always_getLabelFor : always_db.

Lemma always_getLabelForPath fuel : always R (getLabelForPath flags fuel).
Proof. apply always_getLabelFor. Qed.

Lemma always_getLabelForFile fuel p suffix strip :
  always R (getLabelForFile flags fuel p suffix strip).
Proof. unfold getLabelForFile. settle. Qed.
#[local] Hint Resolve always_getLabelForFile : always_db.

Lemma always_calculate fuel imp npm : always R (calculateTsDependencyLabel flags fuel imp npm).
Proof. unfold calculateTsDependencyLabel. settle. Qed.
#[local] Hint Resolve always_calculate : always_db.

Lemma always_resolveLabel fuel text tsFiles npm :
  always R (resolveLabelFromModuleSpecifier flags fuel text tsFiles npm).
Proof. unfold resolveLabelFromModuleSpecifier. settle. Qed.
#[local] Hint Resolve always_resolveLabel : always_db.

Lemma always_processTsFileAst fuel imports exports tsFiles npm labels :
  always R (processTsFileAst flags fuel imports exports tsFiles npm labels).
Proof. unfold processTsFileAst. settle. Qed.
#[local] Hint Resolve always_processTsFileAst : always_db.

Lemma always_processFile fuel file tsFiles npm labels :
  always R (processFile flags fuel file tsFiles npm labels).
Proof. unfold processFile. settle. Qed.

Lemma always_extraction fuel tsFiles npm files labels :
  always R (foldM (fun deps file => processFile flags fuel file tsFiles npm deps) files labels).
Proof. apply always_foldM. intros acc x. apply always_processFile. Qed.

Lemma always_record calls : always R (record calls).
Proof. intros s. apply R_record. Qed.

Lemma always_generate fuel : always R (generate flags fuel).
Proof.
  unfold generate.
  apply always_bind; [apply always_readDirectory|intros files].
  apply always_bind; [apply always_extraction|intros deps].
  apply always_bind; [apply always_getLabelForPath|intros label].
  apply always_bind; [apply always_record|intros _].
  apply always_bind; [apply always_if; [apply always_record|apply always_ret]|intros _].
  apply always_if; [apply always_record|apply always_ret].
Qed.

Lemma generate_thrown fuel s e s1 :
  generate flags fuel s = Thrown e s1 -> R s s1.
Proof.
  unfold generate, bind. intros H.
  pose proof (always_readDirectory s) as H1.
  destruct (readDirectory flags s) as [files s0|e0 s0|]; [|now injection H as <- <-|discriminate].
  pose proof (always_extraction fuel (selectTsFiles flags files) (npm_workspace_name flags)
                (selectTsFiles flags files) [] s0) as H2.
  destruct (foldM _ _ _ s0) as [deps s2|e2 s2|];
    [|injection H as <- <-; now transitivity s0|discriminate].
  pose proof (always_getLabelForPath fuel s2) as H3.
  destruct (getLabelForPath flags fuel s2) as [label s3|e3 s3|];
    [|injection H as <- <-; transitivity s0; [exact H1|now transitivity s2]|discriminate].
  unfold record, ret in H.
  destruct (Js.truthy (ts_config_label flags)), (Js.truthy (default_visibility flags));
    discriminate.
Qed.

End Frame.

(** ** What [generate] and the query keep *)

Section Invariants.
Context `{C : Collaborators}.
Variable flags : Flags.

#[local] Instance listingKept_preorder : PreOrder listingKept.
Proof. split; [now intros s l | intros s1 s2 s3 H1 H2 l Hl; auto]. Qed.

#[local] Instance cacheGrows_preorder : PreOrder cacheGrows.
Proof. split; [now intros s f l | intros s1 s2 s3 H1 H2 f l Hl; auto]. Qed.

#[local] Instance readOnly_preorder : PreOrder readOnly.
Proof.
  split; [now intros s|].
  intros s1 s2 s3 (A1 & A2 & A3 & A4) (B1 & B2 & B3 & B4). repeat split; congruence.
Qed.

#[local] Instance rulesKept_preorder : PreOrder rulesKept.
Proof. split; [now intros s | intros s1 s2 s3 H1 H2; unfold rulesKept in *; congruence]. Qed.

Lemma queryForFile_cases file s :
  match fileQueryResultCache s !! file with
  | Some l => queryForFile flags file s = Returned (Some l) s
  | None =>
      if (code (queryResult flags file s) =? 0)%Z
         && Js.truthy (Js.trim (stdout (queryResult flags file s)))
      then queryForFile flags file s
           = Returned (Some (parseAbsolute (Js.trim (stdout (queryResult flags file s)))))
               (cachedQuery file (parseAbsolute (Js.trim (stdout (queryResult flags file s))))
                  (afterQuery flags file s))
      else queryForFile flags file s = Returned None (afterQuery flags file s)
  end.
Proof.
  unfold queryForFile, afterQuery, cachedQuery, queryResult, queryLine.
  destruct (fileQueryResultCache s !! file); [reflexivity|].
  unfold bind, debugLog, emit, shellExec, setCache, ret. simpl.
  destruct (exec (queryCommand flags file) (base_dir flags) (fs s)) as [r fs']. simpl.
  destruct (code r =? 0)%Z; simpl; [|reflexivity].
  destruct (Js.truthy (Js.trim (stdout r))); reflexivity.
Qed.

Lemma always_endsIn {A} (R : State -> State -> Prop) (m : M A) s s1 :
  always R m -> endsIn (m s) s1 -> R s s1.
Proof. intros H He. specialize (H s). destruct (m s); simpl in He; now subst. Qed.

Lemma listingKept_query file : always listingKept (queryForFile flags file).
Proof.
  intros s. pose proof (queryForFile_cases file s) as H.
  destruct (fileQueryResultCache s !! file); [now rewrite H|].
  destruct (_ && _); rewrite H; now intros l.
Qed.

Lemma cacheGrows_query file : always cacheGrows (queryForFile flags file).
Proof.
  intros s. pose proof (queryForFile_cases file s) as H.
  destruct (fileQueryResultCache s !! file) eqn:E; [now rewrite H|].
  destruct (_ && _); rewrite H; intros f l Hf; simpl; [|exact Hf].
  rewrite lookup_insert_ne; [exact Hf|]. intros <-. congruence.
Qed.

(** X1. Once the top-level listing of [base_dir] has been read, [generate] never
    reads it again: whether the run returns or throws, [Workspace.listing]
    still holds the snapshot it started with. *)
Theorem listing_snapshot_is_kept fuel s s1 l :
  listing s = Some l ->
  endsIn (generate flags fuel s) s1 ->
  listing s1 = Some l.
Proof.
  intros Hl He.
  refine (always_endsIn listingKept _ s s1 _ He l Hl).
  apply (always_generate flags listingKept).
  - intros s0 l0 Hnone l1 Hl1. congruence.
  - now intros s0 p l0.
  - intros p. apply always_if; [apply listingKept_query | now intros s0 l0].
  - intros msg. apply always_if; now intros s0 l0.
  - now intros s0 calls l0.
Qed.

(** X2. An entry of [fileQueryResultCache] survives [generate] unchanged, whether
    the run returns or throws: the cache only grows. *)
Theorem query_cache_only_grows fuel s s1 file l :
  fileQueryResultCache s !! file = Some l ->
  endsIn (generate flags fuel s) s1 ->
  fileQueryResultCache s1 !! file = Some l.
Proof.
  intros Hl He.
  refine (always_endsIn cacheGrows _ s s1 _ He file l Hl).
  apply (always_generate flags cacheGrows).
  - now intros s0 l0 _ f l1.
  - now intros s0 p f l0.
  - intros p. apply always_if; [apply cacheGrows_query | now intros s0 f l0].
  - intros msg. apply always_if; now intros s0 f l0.
  - now intros s0 calls f l0.
Qed.

(** X3. With [use_bazel_query] and [verbose_import_mappings] off, [generate]
    changes neither the file system, the list of spawned subprocesses, the
    query cache nor the console, whether it returns or throws. *)
Theorem generate_is_read_only fuel s s1 :
  use_bazel_query flags = false ->
  verbose_import_mappings flags = false ->
  endsIn (generate flags fuel s) s1 ->
  fs s1 = fs s /\ spawned s1 = spawned s /\
  fileQueryResultCache s1 = fileQueryResultCache s /\ console s1 = console s.
Proof.
  intros Hq Hv He.
  refine (always_endsIn readOnly _ s s1 _ He).
  apply (always_generate flags readOnly).
  - now intros s0 l0 _.
  - now intros s0 p.
  - intros p. rewrite Hq. now intros s0.
  - intros msg. rewrite Hv. now intros s0.
  - now intros s0 calls.
Qed.

(** X4. A [generate] that throws has made no call on the [Buildozer]: the rule
    is recorded only after every file has been processed and the label of
    the path resolved. *)
Theorem failed_generate_records_nothing fuel s e s1 :
  generate flags fuel s = Thrown e s1 -> buildozer s1 = buildozer s.
Proof.
  apply (generate_thrown flags rulesKept).
  - now intros s0 l0 _.
  - now intros s0 p.
  - intros p s0. pose proof (queryForFile_cases p s0) as H.
    destruct (use_bazel_query flags); [|reflexivity].
    destruct (fileQueryResultCache s0 !! p); [now rewrite H|].
    destruct (_ && _); now rewrite H.
  - intros msg. apply always_if; now intros s0.
Qed.

(** X5. A query that found a rule for a file leaves that rule in the cache under
    the file, and asking again returns it without any further change of
    state: no second subprocess, no console line. *)
Theorem query_hit_is_cached file s l s1 :
  queryForFile flags file s = Returned (Some l) s1 ->
  fileQueryResultCache s1 !! file = Some l /\
  queryForFile flags file s1 = Returned (Some l) s1.
Proof.
  intros H. pose proof (queryForFile_cases file s) as Hc.
  assert (Hl : fileQueryResultCache s1 !! file = Some l).
  { destruct (fileQueryResultCache s !! file) eqn:E.
    - rewrite Hc in H. injection H as <- <-. exact E.
    - destruct (_ && _); rewrite Hc in H; [|discriminate].
      injection H as <- <-. apply lookup_insert_eq. }
  split; [exact Hl|].
  pose proof (queryForFile_cases file s1) as Hc1. now rewrite Hl in Hc1.
Qed.

(** X6. A query that found no rule was a cache miss, ran exactly one subprocess,
    the query command of the file, and left the cache as it was: failures
    are not remembered and are paid for again at the next call. *)
Theorem query_miss_is_not_cached file s s1 :
  queryForFile flags file s = Returned None s1 ->
  fileQueryResultCache s1 = fileQueryResultCache s /\
  fileQueryResultCache s !! file = None /\
  spawned s1 = (spawned s ++ [queryCommand flags file])%list /\
  spawned s1 <> spawned s.
Proof.
  intros H. pose proof (queryForFile_cases file s) as Hc.
  destruct (fileQueryResultCache s !! file) eqn:E; [rewrite Hc in H; discriminate|].
  destruct (_ && _); rewrite Hc in H; [discriminate|].
  injection H as <-. repeat split. simpl. intros Heq.
  apply (f_equal (@List.length string)) in Heq. rewrite length_app in Heq. simpl in Heq. lia.
Qed.
End Invariants.

(** ** The workspace functions at their edges *)

Lemma join_absolute b p :
  Path.isAbsolute b = true -> Path.isAbsolute (Path.join [b; p]) = true.
Proof.
  intros Hb. destruct b as [|a b]; [discriminate|].
  assert (Ha : a = "/"%char).
  { destruct (Ascii.eqb a "/") eqn:E; [now apply Ascii.eqb_eq in E|].
    unfold Path.isAbsolute in Hb. now rewrite (startsWith_char "/" a b E) in Hb. }
  subst a. unfold Path.join. cbn [List.filter].
  unfold Js.truthy at 1. cbn [String.eqb negb].
  destruct (join_head_char "/" b (if Js.truthy p then [p] else [])) as [rest ->].
  unfold Path.normalize. cbn [String.eqb].
  assert (Habs : Path.isAbsolute (String "/"%char rest) = true)
    by apply (startsWith_append "/" rest).
  rewrite Habs.
  destruct (String.eqb _ ""); [reflexivity|].
  destruct (Js.endsWith _ _); apply (startsWith_append "/").
Qed.

Lemma base_ends_ts f :
  Js.endsWith f ".ts" = true -> Js.endsWith (Path.base (Path.parse f)) ".ts" = true.
Proof.
  intros H. apply endsWith_inv in H as [q ->]. rewrite parse_base.
  set (chars := list_ascii_of_string (q ++ ".ts")).
  set (sc := if Path.isAbsolute (q ++ ".ts") then List.tl chars else chars).
  assert (Hsc : exists X, sc = (X ++ ["."%char; "t"%char; "s"%char])%list).
  { subst sc chars. destruct (Path.isAbsolute (q ++ ".ts")) eqn:Habs.
    - destruct q as [|c q]; [discriminate Habs|].
      exists (list_ascii_of_string q). rewrite append_cons. simpl.
      now rewrite list_ascii_of_string_app.
    - exists (list_ascii_of_string q). now rewrite list_ascii_of_string_app. }
  destruct Hsc as [X ->]. rewrite rev_app_distr.
  change (List.rev ["."%char; "t"%char; "s"%char]) with ["s"%char; "t"%char; "."%char].
  cbn [List.app Path.dropWhile]. change (Path.isSlash "s"%char) with false. cbv iota.
  cbn [Path.takeWhile].
  change (Path.isSlash "s"%char) with false.
  change (Path.isSlash "t"%char) with false.
  change (Path.isSlash "."%char) with false. cbn [negb].
  cbn [List.rev]. rewrite <- !app_assoc. rewrite string_of_list_ascii_app.
  apply endsWith_app.
Qed.

Lemma hasChar_of_list c l :
  Forall (fun a => Ascii.eqb a c = false) l ->
  Js.hasChar c (string_of_list_ascii l) = false.
Proof. induction 1 as [|a l Ha _ IH]; [reflexivity|]. simpl. now rewrite Ha, IH. Qed.

Lemma takeWhile_Forall g l : Forall (fun a => g a = true) (Path.takeWhile g l).
Proof.
  induction l as [|a l IH]; simpl; [constructor|].
  destruct (g a) eqn:E; [now constructor | constructor].
Qed.

Lemma base_noSlash f : Js.hasChar "/"%char (Path.base (Path.parse f)) = false.
Proof.
  rewrite parse_base. apply hasChar_of_list. apply List.Forall_rev.
  eapply List.Forall_impl; [|apply takeWhile_Forall].
  intros a Ha. unfold Path.isSlash, Path.sep in Ha. now destruct (Ascii.eqb a "/").
Qed.

Section Behaviour.
Context `{C : Collaborators}.
Variable flags : Flags.

(** X7. When [base_dir] is absolute, every path [resolveAbsolute] returns is
    absolute. *)
Theorem resolveAbsolute_returns_absolute fuel p s r s1 :
  Path.isAbsolute (base_dir flags) = true ->
  resolveAbsolute flags fuel p s = Returned r s1 ->
  Path.isAbsolute r = true.
Proof.
  intros Hb. revert p s. induction fuel as [|fuel IH]; intros p s H; [discriminate|].
  simpl in H. destruct (Path.isAbsolute p) eqn:E.
  - now injection H as <- _.
  - apply bind_inv in H as (wr & s0 & _ & H). destruct wr.
    + injection H as <- _. now apply join_absolute.
    + apply bind_inv in H as (p' & s2 & _ & H). eapply IH, H.
Qed.

Lemma generate_rule fuel s s1 :
  generate flags fuel s = Returned tt s1 ->
  exists files sa deps sb label sc,
    readDirectory flags s = Returned files sa /\
    foldM (fun deps file =>
             processFile flags fuel file (selectTsFiles flags files)
               (npm_workspace_name flags) deps)
          (selectTsFiles flags files) [] sa = Returned deps sb /\
    getLabelForPath flags fuel sb = Returned label sc /\
    buildozer sc = buildozer s /\
    s1 = recorded
           ([NewTsLibraryRule label;
             SetSrcs (List.map (fun p => Path.base (Path.parse p))
                        (selectTsFiles flags files));
             AddDeps deps] ++ ruleTail flags) sc.
Proof.
  unfold generate. intros H.
  apply bind_inv in H as (files & sa & Hdir & H).
  apply bind_inv in H as (deps & sb & Hfold & H).
  apply bind_inv in H as (label & sc & Hlabel & H).
  exists files, sa, deps, sb, label, sc. repeat split; try assumption.
  - destruct (untouched_readDirectory flags _ _ _ Hdir) as [H1 _].
    destruct (foldM_processFile_reads flags _ _ _ _ _ _ _ _ Hfold) as [H2 _].
    destruct (untouched_getLabelForPath flags _ _ _ _ Hlabel) as [H3 _].
    congruence.
  - unfold bind, record, ret in H. unfold recorded, ruleTail.
    destruct (Js.truthy (ts_config_label flags)), (Js.truthy (default_visibility flags));
      injection H as <-; simpl; rewrite <- ?app_assoc; reflexivity.
Qed.

(** X8. When [generate] returns it has appended exactly one rule to the calls
    recorded so far: the new rule, its [srcs], its [deps], then [tsconfig]
    only when [ts_config_label] is non-empty and [visibility] only when
    [default_visibility] is non-empty, in that order; every name in [srcs]
    is a bare file name (no separator) that ends in [.ts]. *)
Theorem generate_records_one_rule fuel s s1 :
  generate flags fuel s = Returned tt s1 ->
  exists label srcs deps,
    buildozer s1
    = (buildozer s
         ++ [NewTsLibraryRule label; SetSrcs srcs; AddDeps deps] ++ ruleTail flags)%list /\
    Forall (fun src => Js.hasChar "/"%char src = false /\ Js.endsWith src ".ts" = true) srcs.
Proof.
  intros H. destruct (generate_rule _ _ _ H)
    as (files & sa & deps & sb & label & sc & _ & _ & _ & Hb & ->).
  exists label, (List.map (fun p => Path.base (Path.parse p)) (selectTsFiles flags files)), deps.
  split; [simpl; now rewrite Hb|].
  apply List.Forall_forall. intros src Hsrc. apply List.in_map_iff in Hsrc as (f & <- & Hf).
  apply list_elem_of_In in Hf. destruct (selectTsFiles_spec flags files f Hf) as [Hts _].
  split; [apply base_noSlash | now apply base_ends_ts].
Qed.

(** X9. When nothing exists at the analysed path, [generate] fails at once with
    the [ENOENT] of [lstatSync], in the state it started in: nothing is
    logged, read or recorded. *)
Theorem generate_on_a_missing_path fuel s :
  fs s !! getAbsolutePath flags = None ->
  generate flags fuel s = Thrown (ENOENT (getAbsolutePath flags)) s.
Proof.
  intros H. unfold generate, readDirectory, isDirectory, lstatSync, bind. now rewrite H.
Qed.

(** X10. When the analysed path exists but is not a directory, a [generate] that
    returns has read no file and recorded a rule with empty [srcs] and
    empty [deps]. *)
Theorem generate_on_a_file_records_an_empty_rule fuel s s1 n :
  fs s !! getAbsolutePath flags = Some n ->
  kindOf n <> KDir ->
  generate flags fuel s = Returned tt s1 ->
  reads s1 = reads s /\
  exists label,
    buildozer s1
    = (buildozer s
         ++ [NewTsLibraryRule label; SetSrcs []; AddDeps []] ++ ruleTail flags)%list.
Proof.
  intros Hn Hk H. destruct (generate_rule _ _ _ H)
    as (files & sa & deps & sb & label & sc & Hdir & Hfold & Hlabel & Hb & ->).
  assert (Hfiles : readDirectory flags s = Returned [] s).
  { unfold readDirectory, isDirectory, lstatSync, bind, ret. rewrite Hn.
    destruct n; try reflexivity. now elim Hk. }
  rewrite Hfiles in Hdir. injection Hdir as <- <-.
  change (selectTsFiles flags []) with (@nil string) in *. simpl in Hfold.
  injection Hfold as <- <-.
  destruct (untouched_getLabelForPath flags _ _ _ _ Hlabel) as [_ Hr].
  split; [exact Hr|]. exists label. simpl. now rewrite Hb.
Qed.

Lemma mapM_resolveRel s l d entries :
  Readable flags s l d ->
  mapM (resolveRelativeToWorkspace flags) entries s
  = Returned (List.map (resolveRel l d) entries)
             (match entries with [] => s | _ => cached l s end).
Proof.
  revert s. induction entries as [|e es IH]; intros s HR; [reflexivity|].
  cbn [mapM List.map].
  rewrite (bind_Returned _ _ _ _ _ (resolveRelativeToWorkspace_eq flags _ _ _ e HR)).
  rewrite (bind_Returned _ _ _ _ _ (IH _ (Readable_cached flags _ _ _ HR))).
  unfold ret. now destruct es.
Qed.

Lemma readDirectory_eq s l entries :
  theListing flags s = Some l ->
  fs s !! getAbsolutePath flags = Some (NDir entries) ->
  readDirectory flags s
  = Returned (List.map (resolveRel l (getPathFromBaseDir flags)) entries)
             (match entries with [] => s | _ => cached l s end).
Proof.
  intros Hl Hn. unfold readDirectory.
  assert (Hd : isDirectory flags s = Returned true s).
  { unfold isDirectory, lstatSync, bind, ret. now rewrite Hn. }
  rewrite (bind_Returned _ _ _ _ _ Hd). cbn [negb].
  assert (He : readdirSync (getAbsolutePath flags) s = Returned entries s).
  { unfold readdirSync. now rewrite Hn. }
  rewrite (bind_Returned _ _ _ _ _ He).
  apply mapM_resolveRel. split; [exact Hl|]. exists (NDir entries). now split.
Qed.

(** X11. A directory entry whose name is also a top-level entry of [base_dir] is
    listed by [readDirectory] under its bare name, and [readFile] of that
    name reads the file of the workspace root, not the one in the analysed
    directory. *)
Theorem shadowed_entry_is_read_from_the_root s l entries e fuel :
  theListing flags s = Some l ->
  fs s !! getAbsolutePath flags = Some (NDir entries) ->
  In e entries ->
  wsRelative l e = true ->
  Path.isAbsolute e = false ->
  exists files,
    readDirectory flags s = Returned files (cached l s) /\
    In e files /\
    readFile flags (S fuel) e (cached l s)
    = readFileSync (Path.join [base_dir flags; e]) (cached l s).
Proof.
  intros Hl Hn He Hws Habs.
  exists (List.map (resolveRel l (getPathFromBaseDir flags)) entries). split; [|split].
  - rewrite (readDirectory_eq _ _ _ Hl Hn). destruct entries; [now elim He | reflexivity].
  - apply in_map_iff. exists e. split; [|exact He]. unfold resolveRel. now rewrite Hws.
  - unfold readFile.
    assert (Hl' : theListing flags (cached l s) = Some l) by reflexivity.
    now rewrite (bind_Returned _ _ _ _ _
                   (resolveAbsolute_workspace_relative flags _ _ fuel e Hl' Habs Hws)).
Qed.

Lemma mapM_never {A B} (f : A -> M B) x xs :
  In x xs ->
  (forall s b s1, f x s <> Returned b s1) ->
  forall s ys s1, mapM f xs s <> Returned ys s1.
Proof.
  intros Hin Hx. induction xs as [|y xs IH]; [now elim Hin|].
  intros s ys s1 H. simpl in H. apply bind_inv in H as (b & s0 & Hy & H).
  apply bind_inv in H as (bs & s2 & Hrest & _).
  destruct Hin as [->|Hin]; [now apply (Hx _ _ _ Hy) | now apply (IH Hin _ _ _ Hrest)].
Qed.

Lemma unquoted_specifier s l fuel text tsFiles npm :
  Js.hasChar "'"%char text = false ->
  (forall b s1, resolveLabelFromModuleSpecifier flags fuel text tsFiles npm s
                <> Returned b s1) /\
  (theListing flags s = Some l ->
   resolveLabelFromModuleSpecifier flags fuel text tsFiles npm s
   = Thrown TypeError (cached l s)).
Proof.
  intros H. unfold resolveLabelFromModuleSpecifier, moduleSpecifierText.
  rewrite (split_plain _ _ H). cbn [nth_error]. split.
  - intros b s1. unfold bind, throw. now destruct (getListing flags s).
  - intros Hl. now rewrite (bind_Returned _ _ _ _ _ (getListing_eq flags _ _ Hl)).
Qed.

(** X12. A module specifier whose text holds no single quote (a double-quoted
    import) makes [split(`'`)[1]] undefined: [processTsFileAst] never
    returns for a file that has one among its imports or exports, and with
    the listing readable the specifier itself fails with a [TypeError]. *)
Theorem double_quoted_specifier_aborts fuel imports exports tsFiles npm labels s text :
  In text (imports ++ exports) ->
  Js.hasChar "'"%char text = false ->
  (forall labels' s1,
      processTsFileAst flags fuel imports exports tsFiles npm labels s
      <> Returned labels' s1) /\
  (forall l, theListing flags s = Some l ->
             resolveLabelFromModuleSpecifier flags fuel text tsFiles npm s
             = Thrown TypeError (cached l s)).
Proof.
  intros Hin Hq. split.
  - intros labels' s1 H. unfold processTsFileAst in H.
    apply bind_inv in H as (r1 & sa & H1 & H).
    apply bind_inv in H as (r2 & sb & H2 & _).
    apply in_app_or in Hin as [Hin|Hin].
    + apply (mapM_never _ text imports Hin) in H1; [exact H1|].
      intros s0 b s2. apply (proj1 (unquoted_specifier s0 [] fuel text tsFiles npm Hq)).
    + apply (mapM_never _ text exports Hin) in H2; [exact H2|].
      intros s0 b s2. apply (proj1 (unquoted_specifier s0 [] fuel text tsFiles npm Hq)).
  - intros l Hl. now apply unquoted_specifier.
Qed.


(** X14. [hasBuildFileAtPath] answers [false] for a missing build file, but when
    the analysed path itself is missing it throws [ENOENT]: the [try] does
    not cover [getBuildFilePath].  When the path exists the call returns
    whether the build file is a regular file, in an unchanged state. *)
Theorem hasBuildFileAtPath_needs_the_path s :
  match fs s !! getAbsolutePath flags with
  | None => hasBuildFileAtPath flags s = Thrown (ENOENT (getAbsolutePath flags)) s
  | Some n =>
      exists p, getBuildFilePath flags s = Returned p s /\
        hasBuildFileAtPath flags s
        = Returned (match fs s !! p with
                    | Some (NFile _) => true
                    | _ => false
                    end) s
  end.
Proof.
  unfold hasBuildFileAtPath, getBuildFilePath, isDirectory, lstatSync, bind, ret.
  destruct (fs s !! getAbsolutePath flags) as [n|]; [|reflexivity].
  eexists. split; [reflexivity|].
  destruct (fs s !! _) as [[| |]|]; reflexivity.
Qed.

(** X15. For an analysed directory, [prepareBuildFile] leaves an existing build
    file as it is unless [nuke_build_file] is set, in which case the file
    is replaced by an empty one; a missing build file is created empty;
    something that is not a regular file is left alone.  No other path
    changes, no subprocess is run and nothing is logged. *)
Theorem build_file_is_kept_unless_nuked s entries :
  fs s !! getAbsolutePath flags = Some (NDir entries) ->
  Path.join [getAbsolutePath flags; build_file_name flags] <> getAbsolutePath flags ->
  exists s1,
    prepareBuildFile flags s = Returned tt s1 /\
    spawned s1 = spawned s /\ console s1 = console s /\
    fs s1 = match fs s !! Path.join [getAbsolutePath flags; build_file_name flags] with
            | Some (NFile _) =>
                if nuke_build_file flags
                then <[Path.join [getAbsolutePath flags; build_file_name flags] := NFile ""]>
                       (fs s)
                else fs s
            | Some _ => fs s
            | None =>
                <[Path.join [getAbsolutePath flags; build_file_name flags] := NFile ""]>
                  (fs s)
            end.
Proof.
  intros Hn Hne. set (p := Path.join [getAbsolutePath flags; build_file_name flags]) in *.
  assert (Hp : forall s0, fs s0 !! getAbsolutePath flags = Some (NDir entries) ->
                          getBuildFilePath flags s0 = Returned p s0).
  { intros s0 H0. unfold getBuildFilePath, isDirectory, lstatSync, bind, ret. now rewrite H0. }
  unfold prepareBuildFile, hasBuildFileAtPath.
  unfold bind at 1. unfold bind at 1. rewrite (Hp s Hn).
  destruct (fs s !! p) as [[c| |]|] eqn:E; cbn [kindOf andb negb].
  - destruct (nuke_build_file flags).
    + rewrite (bind_Returned _ _ _ _ _ (Hp s Hn)).
      unfold bind at 1. unfold shellRm at 1, updateFs at 1.
      unfold bind at 1.
      rewrite Hp by (cbn [fs]; rewrite lookup_delete_ne by exact Hne; exact Hn).
      unfold shellTouch, updateFs. cbn [fs]. rewrite lookup_delete_eq.
      eexists. split; [reflexivity|]. cbn [fs spawned console].
      repeat split. apply insert_delete_eq.
    + eexists. split; [reflexivity|]. now repeat split.
  - rewrite (bind_Returned _ _ _ _ _ (Hp s Hn)).
    unfold shellTouch, updateFs. rewrite E. eexists. split; [reflexivity|]. now repeat split.
  - rewrite (bind_Returned _ _ _ _ _ (Hp s Hn)).
    unfold shellTouch, updateFs. rewrite E. eexists. split; [reflexivity|]. now repeat split.
  - rewrite (bind_Returned _ _ _ _ _ (Hp s Hn)).
    unfold shellTouch, updateFs. rewrite E. eexists. split; [reflexivity|]. now repeat split.
Qed.

(** X16. [testBaseDirSupportsBazel] never returns [false]: it returns
    [true], in an unchanged state, when the root build file and [WORKSPACE]
    are both regular files, and in every other case it ends in [fatal] with
    the one line that names the first of the two that is missing or is no
    regular file. *)
Theorem testBaseDirSupportsBazel_never_returns_false s :
  match fs s !! Path.join [base_dir flags; build_file_name flags] with
  | Some (NFile _) =>
      match fs s !! Path.join [base_dir flags; "WORKSPACE"] with
      | Some (NFile _) => testBaseDirSupportsBazel flags s = Returned true s
      | Some _ =>
          testBaseDirSupportsBazel flags s
          = Thrown (ProcessExit 1)
              (reported LFatal (errorMessage flags ++ " WORKSPACE file is not a file") s)
      | None =>
          testBaseDirSupportsBazel flags s
          = Thrown (ProcessExit 1)
              (reported LFatal (errorMessage flags ++ " Missing WORKSPACE file") s)
      end
  | Some _ =>
      testBaseDirSupportsBazel flags s
      = Thrown (ProcessExit 1)
          (reported LFatal
             (errorMessage flags ++ " Root " ++ build_file_name flags
                ++ " file is not a file") s)
  | None =>
      testBaseDirSupportsBazel flags s
      = Thrown (ProcessExit 1)
          (reported LFatal
             (errorMessage flags ++ " Missing root " ++ build_file_name flags ++ " file")
             s)
  end.
Proof.
  unfold testBaseDirSupportsBazel, isFileOrFatal, fatal, bind, emit, throw, ret, reported.
  destruct (fs s !! Path.join [base_dir flags; build_file_name flags]) as [[c| |]|];
    cbn [kindOf negb]; try reflexivity.
  destruct (fs s !! Path.join [base_dir flags; "WORKSPACE"]) as [[c'| |]|];
    cbn [kindOf negb]; reflexivity.
Qed.

Lemma validate_cases s :
  match fs s !! getAbsolutePath flags with
  | None => validate flags s = Thrown (ENOENT (getAbsolutePath flags)) s
  | Some (NDir _) => validate flags s = Returned true s
  | Some _ =>
      validate flags s
      = Thrown (ProcessExit 1)
          (reported LFatal "Path passed to Typescript generator must be a directory" s)
  end.
Proof.
  unfold validate, isDirectory, lstatSync, fatal, bind, emit, throw, ret, reported.
  destruct (fs s !! getAbsolutePath flags) as [[| |]|]; reflexivity.
Qed.

(** X17. When [validate] returns, it returns [true] without changing the state,
    the analysed path is a directory, and [readDirectory] then returns its
    entries, in directory order, each resolved relative to the workspace. *)
Theorem validated_path_is_listed s b s1 l :
  validate flags s = Returned b s1 ->
  theListing flags s = Some l ->
  b = true /\ s1 = s /\
  exists entries,
    fs s !! getAbsolutePath flags = Some (NDir entries) /\
    readDirectory flags s1
    = Returned (List.map (resolveRel l (getPathFromBaseDir flags)) entries)
               (match entries with [] => s | _ => cached l s end).
Proof.
  intros H Hl. pose proof (validate_cases s) as Hc.
  destruct (fs s !! getAbsolutePath flags) as [[c|entries|]|] eqn:E;
    rewrite Hc in H; try discriminate.
  injection H as <- <-. split; [reflexivity|]. split; [reflexivity|].
  exists entries. split; [reflexivity|]. now apply readDirectory_eq.
Qed.

(** X18. When the analysed path exists but is not a directory, [validate] ends in
    [fatal] with its one-line message. *)
Theorem unvalidated_path_exits s n :
  fs s !! getAbsolutePath flags = Some n ->
  kindOf n <> KDir ->
  validate flags s
  = Thrown (ProcessExit 1)
      (reported LFatal "Path passed to Typescript generator must be a directory" s).
Proof.
  intros Hn Hk. pose proof (validate_cases s) as Hc. rewrite Hn in Hc.
  destruct n; try exact Hc. now elim Hk.
Qed.

(** X19. When the analysed path is a regular file whose first segment is a
    top-level entry of [base_dir], [readFileAtPath] returns its content and
    reads exactly [getAbsolutePath()]. *)
Theorem readFileAtPath_reads_the_analysed_file s l fuel content :
  theListing flags s = Some l ->
  wsRelative l (path flags) = true ->
  Path.isAbsolute (path flags) = false ->
  fs s !! getAbsolutePath flags = Some (NFile content) ->
  readFileAtPath flags (S fuel) s
  = Returned (Some content) (appendRead (getAbsolutePath flags) (cached l s)).
Proof.
  intros Hl Hws Habs Hn. unfold readFileAtPath.
  assert (Hd : isDirectory flags s = Returned false s).
  { unfold isDirectory, lstatSync, bind, ret. now rewrite Hn. }
  rewrite (bind_Returned _ _ _ _ _ Hd). unfold readFile, getPath.
  unfold bind at 1. unfold bind at 1.
  rewrite (resolveAbsolute_workspace_relative flags _ _ fuel _ Hl Habs Hws).
  unfold readFileSync. change (fs (cached l s)) with (fs s).
  change (Path.join [base_dir flags; path flags]) with (getAbsolutePath flags).
  now rewrite Hn.
Qed.

(** X20. With [use_bazel_query] on, a file without static mapping whose resolved
    path is in the query cache gets the cached label from
    [getLabelForFile], whatever the fuel, the suffix and the files on disk:
    no subprocess is run and no directory is looked at. *)
Theorem cached_query_label_wins s l d fuel p suffix strip lab :
  Readable flags s l d ->
  label_mapping flags !! resolveRel l d p = None ->
  use_bazel_query flags = true ->
  fileQueryResultCache s !! resolveRel l d p = Some lab ->
  getLabelForFile flags fuel p suffix strip s = Returned lab (cached l s).
Proof.
  intros HR Hmap Hq Hc. unfold getLabelForFile.
  rewrite (bind_Returned _ _ _ _ _ (resolveRelativeToWorkspace_eq flags _ _ _ p HR)).
  rewrite (bind_Returned _ _ _ _ _ (static_lookup_eq flags _ _)).
  rewrite Hmap, Hq. cbn [fmap option_fmap option_map].
  unfold bind, queryForFile. cbn [fileQueryResultCache cached]. now rewrite Hc.
Qed.

(** X21. A path whose workspace-relative form is a key of the static mapping gets
    the mapped label from [getLabelFor] and from [getLabelForFile]: the
    requested target or suffix is dropped and the path is not looked up on
    disk. *)
Theorem mapped_path_ignores_target s l d fuel p target strip text :
  Readable flags s l d ->
  label_mapping flags !! resolveRel l d p = Some text ->
  getLabelFor flags fuel p target s = Returned (parseAbsolute text) (cached l s) /\
  getLabelForFile flags fuel p target strip s = Returned (parseAbsolute text) (cached l s).
Proof.
  intros HR Hmap. split.
  - unfold getLabelFor.
    rewrite (bind_Returned _ _ _ _ _ (resolveRelativeToWorkspace_eq flags _ _ _ p HR)).
    rewrite (bind_Returned _ _ _ _ _ (static_lookup_eq flags _ _)).
    now rewrite Hmap.
  - unfold getLabelForFile.
    rewrite (bind_Returned _ _ _ _ _ (resolveRelativeToWorkspace_eq flags _ _ _ p HR)).
    rewrite (bind_Returned _ _ _ _ _ (static_lookup_eq flags _ _)).
    now rewrite Hmap.
Qed.

Lemma setAdd_prefix labels x : exists added, setAdd labels x = (labels ++ added)%list.
Proof.
  unfold setAdd. destruct (includes labels x); [exists []; now rewrite app_nil_r | now exists [x]].
Qed.

Lemma addLabels_prefix resolved labels :
  exists added, addLabels resolved labels = (labels ++ added)%list.
Proof.
  revert labels. induction resolved as [|o rs IH]; intros labels.
  - exists []. now rewrite app_nil_r.
  - rewrite addLabels_cons. destruct o as [lab|]; [|apply IH].
    destruct (setAdd_prefix labels (toString lab)) as [a1 ->].
    destruct (IH (labels ++ a1)%list) as [a2 ->].
    exists (a1 ++ a2)%list. now rewrite app_assoc.
Qed.

(** X22. Processing files only appends to the dependency set: the labels that
    were in it stay where they were, so [deps] lists the labels in the
    order in which they were first seen. *)
Theorem earlier_dependencies_keep_their_position fuel files tsFiles npm labels s labels' s1 :
  foldM (fun deps file => processFile flags fuel file tsFiles npm deps) files labels s
  = Returned labels' s1 ->
  exists added, labels' = (labels ++ added)%list.
Proof.
  apply (foldM_invariant (fun acc => exists added, acc = (labels ++ added)%list)).
  - intros acc x s0 acc' s' [a ->] H. unfold processFile, processTsFileAst in H.
    apply bind_inv in H as (content & sa & _ & H).
    apply bind_inv in H as (r1 & sb & _ & H).
    apply bind_inv in H as (r2 & sc & _ & H).
    injection H as <- _.
    destruct (addLabels_prefix r1 (labels ++ a)%list) as [a1 ->].
    destruct (addLabels_prefix r2 ((labels ++ a) ++ a1)%list) as [a2 ->].
    exists ((a ++ a1) ++ a2)%list. now rewrite !app_assoc.
  - exists []. now rewrite app_nil_r.
Qed.

End Behaviour.

(** ** The option coercions of [flags.ts] *)

Lemma fold_mapping_other (k : string) items (m : gmap string (option string)) :
  Forall (fun item => List.hd "" item <> k) items ->
  List.fold_left (fun m item => <[List.hd "" item := nth_error item 1]> m) items m !! k
  = m !! k.
Proof.
  intros H. revert m. induction H as [|item items Hk _ IH]; intros m; [reflexivity|].
  cbn [List.fold_left]. rewrite IH. now apply lookup_insert_ne.
Qed.

Lemma coerceMappingFlag_lookup loads1 load loads2 :
  Forall (fun later => List.hd "" (Js.split "="%char later)
                       <> List.hd "" (Js.split "="%char load)) loads2 ->
  coerceMappingFlag (loads1 ++ load :: loads2) !! List.hd "" (Js.split "="%char load)
  = Some (nth_error (Js.split "="%char load) 1).
Proof.
  intros H. unfold coerceMappingFlag.
  rewrite List.map_app, List.fold_left_app. cbn [List.map List.fold_left].
  rewrite fold_mapping_other.
  - apply lookup_insert_eq.
  - apply List.Forall_map. exact H.
Qed.

(** X23. [coerceMappingFlag] maps a key to the value of the last [key=value]
    argument that has this key; the value is cut at a second [=]; and an
    argument without [=] maps its key to [undefined]. *)
Theorem last_mapping_wins loads1 loads2 k v :
  Js.hasChar "="%char k = false ->
  Forall (fun later => List.hd "" (Js.split "="%char later) <> k) loads2 ->
  coerceMappingFlag (loads1 ++ (k ++ "=" ++ v) :: loads2) !! k
  = Some (Some (List.hd "" (Js.split "="%char v))) /\
  (Js.hasChar "="%char v = false ->
   coerceMappingFlag (loads1 ++ (k ++ "=" ++ v) :: loads2) !! k = Some (Some v)) /\
  coerceMappingFlag (loads1 ++ k :: loads2) !! k = Some None.
Proof.
  intros Hk Hlater.
  assert (Hsplit : Js.split "="%char (k ++ "=" ++ v) = k :: Js.split "="%char v)
    by apply (split_app "="%char k v Hk).
  assert (H1 : coerceMappingFlag (loads1 ++ (k ++ "=" ++ v) :: loads2) !! k
               = Some (Some (List.hd "" (Js.split "="%char v)))).
  { pose proof (coerceMappingFlag_lookup loads1 (k ++ "=" ++ v) loads2) as H.
    rewrite Hsplit in H. cbn [List.hd nth_error] in H. rewrite H by exact Hlater.
    pose proof (split_nonempty "="%char v) as Hne.
    now destruct (Js.split "="%char v). }
  split; [exact H1|]. split.
  - intros Hv. rewrite H1. now rewrite (split_plain _ _ Hv).
  - pose proof (coerceMappingFlag_lookup loads1 k loads2) as H.
    rewrite (split_plain _ _ Hk) in H. cbn [List.hd nth_error] in H. now apply H.
Qed.

(** X24. The [coerce] function of [base_dir] returns an absolute path whenever
    the working directory is absolute and [BUILD_WORKSPACE_DIRECTORY], if
    set and non-empty, is absolute. *)
Theorem coerced_base_dir_is_absolute bazelWorkspaceDir cwd arg :
  Path.isAbsolute cwd = true ->
  (forall dir, bazelWorkspaceDir = Some dir -> Js.truthy dir = true ->
               Path.isAbsolute dir = true) ->
  Path.isAbsolute (coerceBaseDir bazelWorkspaceDir cwd arg) = true.
Proof.
  intros Hcwd Hws. unfold coerceBaseDir.
  destruct (Path.isAbsolute arg) eqn:Harg; [exact Harg|].
  assert (Hres : Path.isAbsolute (PathResolve.resolve cwd [cwd; arg]) = true).
  { unfold PathResolve.resolve. cbn [List.rev List.app PathResolve.resolveLoop].
    rewrite Harg.
    assert (Hne : String.eqb cwd "" = false) by (destruct cwd; [discriminate | reflexivity]).
    destruct (String.eqb arg ""); cbn [PathResolve.resolveLoop];
      rewrite Hne, Hcwd; apply (startsWith_append "/"). }
  destruct bazelWorkspaceDir as [dir|]; [|exact Hres].
  destruct (Js.truthy dir) eqn:Hdir; [|exact Hres].
  apply join_absolute. now apply Hws.
Qed.


(** ** Independence of the fuel *)

Section Fuel.
Context `{C : Collaborators}.
Variable flags : Flags.

Lemma refines_refl {A} (m : M A) : refines m m.
Proof. now intros s. Qed.

Lemma refines_bind {A B} (m m' : M A) (k k' : A -> M B) :
  refines m m' -> (forall a, refines (k a) (k' a)) -> refines (bind m k) (bind m' k').
Proof.
  intros Hm Hk s H. unfold bind in *.
  destruct (m s) as [a s0|e s0|] eqn:E; [| |now elim H];
    rewrite (Hm s) by (rewrite E; discriminate); rewrite E; [now apply Hk | reflexivity].
Qed.

Lemma refines_if {A} (b : bool) (m1 m1' m2 m2' : M A) :
  refines m1 m1' -> refines m2 m2' ->
  refines (if b then m1 else m2) (if b then m1' else m2').
Proof. now destruct b. Qed.

Lemma refines_mapM {A B} (f f' : A -> M B) xs :
  (forall x, refines (f x) (f' x)) -> refines (mapM f xs) (mapM f' xs).
Proof.
  intros Hf. induction xs as [|x xs IH]; [apply refines_refl|]. simpl.
  apply refines_bind; [apply Hf|intros y].
  apply refines_bind; [exact IH|intros ys]. apply refines_refl.
Qed.

Lemma refines_foldM {A B} (f f' : B -> A -> M B) xs acc :
  (forall acc x, refines (f acc x) (f' acc x)) ->
  refines (foldM f xs acc) (foldM f' xs acc).
Proof.
  intros Hf. revert acc. induction xs as [|x xs IH]; intros acc; [apply refines_refl|].
  simpl. apply refines_bind; [apply Hf | intros acc'; apply IH].
Qed.

Lemma refines_resolveAbsolute fuel fuel' p :
  fuel <= fuel' ->
  refines (resolveAbsolute flags fuel p) (resolveAbsolute flags fuel' p).
Proof.
  revert fuel' p. induction fuel as [|fuel IH]; intros fuel' p Hle.
  - intros s H. now elim H.
  - destruct fuel' as [|fuel']; [lia|]. simpl.
    apply refines_if; [apply refines_refl|].
    apply refines_bind; [apply refines_refl|intros wr].
    apply refines_if; [apply refines_refl|].
    apply refines_bind; [apply refines_refl|intros p']. apply IH. lia.
Qed.

Variables fuel fuel' : nat.
Hypothesis Hle : fuel <= fuel'.

Create HintDb fuel_db.

Ltac refine_fuel :=
  repeat first
    [ exact (refines_refl _)
    | solve [auto with fuel_db nocore]
    | lazymatch goal with
      | |- refines (bind _ _) (bind _ _) => apply refines_bind; [ | intros ?]
      | |- refines (if _ then _ else _) (if _ then _ else _) => apply refines_if
      | |- refines (mapM _ _) (mapM _ _) => apply refines_mapM; intros ?
      | |- refines (match ?x with _ => _ end) _ => destruct x
      end ].

Lemma refines_resolve p :
  refines (resolveAbsolute flags fuel p) (resolveAbsolute flags fuel' p).
Proof. now apply refines_resolveAbsolute. Qed.
#[local] Hint Resolve refines_resolve : fuel_db.

Lemma refines_readFile p : refines (readFile flags fuel p) (readFile flags fuel' p).
Proof. unfold readFile. refine_fuel. Qed.
#[local] Hint Resolve refines_readFile : fuel_db.

Lemma refines_getLabelFor p target :
  refines (getLabelFor flags fuel p target) (getLabelFor flags fuel' p target).
Proof. unfold getLabelFor. refine_fuel. Qed.
#[local] Hint Resolve refines_getLabelFor : fuel_db.

Lemma refines_getLabelForFile p suffix strip :
  refines (getLabelForFile flags fuel p suffix strip)
          (getLabelForFile flags fuel' p suffix strip).
Proof. unfold getLabelForFile. refine_fuel. Qed.
#[local] Hint Resolve refines_getLabelForFile : fuel_db.

Lemma refines_calculate imp npm :
  refines (calculateTsDependencyLabel flags fuel imp npm)
          (calculateTsDependencyLabel flags fuel' imp npm).
Proof. unfold calculateTsDependencyLabel. refine_fuel. Qed.
#[local] Hint Resolve refines_calculate : fuel_db.

Lemma refines_resolveLabel text tsFiles npm :
  refines (resolveLabelFromModuleSpecifier flags fuel text tsFiles npm)
          (resolveLabelFromModuleSpecifier flags fuel' text tsFiles npm).
Proof. unfold resolveLabelFromModuleSpecifier. refine_fuel. Qed.
#[local] Hint Resolve refines_resolveLabel : fuel_db.

Lemma refines_processFile file tsFiles npm labels :
  refines (processFile flags fuel file tsFiles npm labels)
          (processFile flags fuel' file tsFiles npm labels).
Proof. unfold processFile, processTsFileAst. refine_fuel. Qed.

(** The bound on the recursion is a device of the embedding: a run of
    [generate] that ends within some fuel ends in the same way with any
    larger fuel. *)
Lemma more_fuel_changes_nothing s :
  generate flags fuel s <> OutOfFuel ->
  generate flags fuel' s = generate flags fuel s.
Proof.
  revert s. change (refines (generate flags fuel) (generate flags fuel')).
  unfold generate.
  apply refines_bind; [apply refines_refl|intros files].
  apply refines_bind;
    [apply refines_foldM; intros acc x; apply refines_processFile|intros deps].
  apply refines_bind; [apply refines_getLabelFor|intros label]. apply refines_refl.
Qed.

End Fuel.

(** ** The query command *)

Lemma split_app_gen c a b :
  Js.split c (a ++ String c b) = (Js.split c a ++ Js.split c b)%list.
Proof.
  induction a as [|x a IH].
  - rewrite append_nil_l. simpl. now rewrite Ascii.eqb_refl.
  - rewrite append_cons. simpl. destruct (Ascii.eqb x c); [now rewrite IH|].
    rewrite IH. pose proof (split_nonempty c a) as Hne.
    now destruct (Js.split c a).
Qed.

Lemma join_split c s : Js.join (String c "") (Js.split c s) = s.
Proof.
  induction s as [|a s IH]; [reflexivity|]. simpl.
  pose proof (split_nonempty c s) as Hne.
  destruct (Ascii.eqb a c) eqn:E.
  - apply Ascii.eqb_eq in E. subst a.
    destruct (Js.split c s) as [|w ws]; [now elim Hne|].
    rewrite join_cons_cons, IH. reflexivity.
  - destruct (Js.split c s) as [|w ws]; [now elim Hne|].
    destruct ws as [|w' ws].
    + unfold Js.join in *. simpl in *. now rewrite IH.
    + rewrite join_cons_cons in *. rewrite append_cons. now rewrite IH.
Qed.

Section Query.
Context `{C : Collaborators}.
Variable flags : Flags.

(** X26. The query run for the file [dir/name] asks for the rules that have the
    target [name] of the package [//dir] in their [src] or [srcs]. *)
Theorem query_names_the_file dir name :
  Js.hasChar "/"%char name = false ->
  queryCommand flags (dir ++ "/" ++ name)
  = bzl_binary flags ++ " query " ++ "--output label --order_output=no" ++ " "
      ++ (quote ++ "attr('src', " ++ ("//" ++ dir ++ ":" ++ name) ++ ", //...)" ++ quote)
      ++ " + "
      ++ (quote ++ "attr('srcs', " ++ ("//" ++ dir ++ ":" ++ name) ++ ", //...)" ++ quote).
Proof.
  intros Hname. unfold queryCommand.
  change (dir ++ "/" ++ name) with (dir ++ String "/"%char name).
  rewrite split_app_gen, (split_plain _ _ Hname).
  rewrite List.last_last, List.removelast_last.
  now rewrite (join_split "/"%char dir).
Qed.

End Query.

(** ** The rc file *)

Section RcProperties.
Context `{C : Collaborators}.

(** X27. Looking at the rc file never aborts the start-up and changes neither the
    file system nor the subprocesses run: the arguments come back either
    unchanged or, when [.bzlgenrc] is a regular file of the working
    directory, with its lines spliced in after the first two arguments. *)
Theorem rc_file_never_aborts ignorerc manifestEntry isDebug ARGS s :
  exists args s1,
    loadRc ignorerc manifestEntry isDebug ARGS s = Returned args s1 /\
    fs s1 = fs s /\ spawned s1 = spawned s /\
    (args = ARGS \/
     exists content,
       ignorerc = false /\
       fs s !! RC_FILE_NAME = Some (NFile content) /\
       args = spliceArgs ARGS (rcLines content)).
Proof.
  unfold loadRc. destruct ignorerc.
  { exists ARGS, s. repeat split. now left. }
  unfold catchAll, readRc.
  destruct (rcPath manifestEntry) as [rcpath|];
    [|exists ARGS, s; repeat split; now left].
  unfold bind, lstatSync.
  destruct (fs s !! rcpath) as [[c| |]|];
    try (exists ARGS, s; repeat split; now left).
  cbn [kindOf].
  assert (Hdbg : exists s0,
             (if isDebug then debugLog ("Loading args from " ++ rcpath) else ret tt) s
             = Returned tt s0 /\ fs s0 = fs s /\ spawned s0 = spawned s).
  { destruct isDebug; eexists; (split; [reflexivity|]); split; reflexivity. }
  destruct Hdbg as (s0 & -> & Hfs & Hsp).
  unfold readFileSync, ret. rewrite Hfs.
  destruct (fs s !! RC_FILE_NAME) as [[content| |]|] eqn:E;
    try (exists ARGS, s0; repeat split; [exact Hfs | exact Hsp | now left]).
  eexists _, _. split; [reflexivity|]. cbn [fs spawned].
  split; [reflexivity|]. split; [exact Hsp|]. right. now exists content.
Qed.

(** X28. Under the runfiles helper the rc file is looked for at the path of the
    manifest but read from the working directory: when the manifest entry
    is a regular file and the working directory holds no [.bzlgenrc], the
    arguments stay as they were, although with [--debug] the console says
    that they are being loaded. *)
Theorem rc_found_through_runfiles_is_not_read entry isDebug ARGS s c :
  fs s !! entry = Some (NFile c) ->
  fs s !! RC_FILE_NAME = None ->
  loadRc false (Some (Some entry)) isDebug ARGS s
  = Returned ARGS
      (if isDebug then reported LDebug ("Loading args from " ++ entry) s else s).
Proof.
  intros He Hrc. unfold loadRc, catchAll, readRc, rcPath, bind, lstatSync.
  rewrite He. cbn [kindOf].
  destruct isDebug; unfold debugLog, emit, ret, readFileSync; cbn [fs]; now rewrite Hrc.
Qed.

End RcProperties.

(** ** Plain paths and rule names *)

Lemma normalize_plain segs :
  segs <> [] ->
  Forall plainSegment segs ->
  Forall (fun w => Js.hasChar Path.sep w = false) segs ->
  Path.normalize (Js.join "/" segs) = Js.join "/" segs.
Proof.
  intros Hne Hplain Hslash. pose proof (join_plain segs Hne Hplain Hslash) as H.
  unfold Path.join in H. rewrite (filter_truthy_plain _ Hplain) in H.
  destruct segs; [now elim Hne | exact H].
Qed.

Lemma join_app_plain a b :
  a <> [] -> b <> [] ->
  Js.join "/" [Js.join "/" a; Js.join "/" b] = Js.join "/" (a ++ b)%list.
Proof.
  intros Ha Hb. induction a as [|x a IH]; [now elim Ha|].
  destruct a as [|x' a].
  - destruct b as [|y b]; [now elim Hb|]. reflexivity.
  - cbn [List.app]. rewrite (join_cons_cons "/"%char x x' (a ++ b)).
    change ((x' :: a) ++ b)%list with (x' :: a ++ b)%list in IH.
    rewrite <- IH by discriminate.
    rewrite (join_cons_cons "/"%char x x' a).
    rewrite !(join_cons_cons "/"%char _ _ []).
    change (Js.join "/" [Js.join "/" b]) with (Js.join "/" b).
    now rewrite append_assoc, append_cons.
Qed.

Lemma plain_head c w ws :
  Js.hasChar Path.sep (String c w) = false ->
  Path.isAbsolute (Js.join "/" (String c w :: ws)) = false /\
  Js.truthy (Js.join "/" (String c w :: ws)) = true.
Proof.
  intros H. destruct (join_head_char c w ws) as [rest ->]. split; [|reflexivity].
  simpl in H. apply orb_false_iff in H as [H _]. now apply startsWith_char.
Qed.

Lemma firstSegment_plain segs :
  segs <> [] ->
  Forall plainSegment segs ->
  Forall (fun w => Js.hasChar Path.sep w = false) segs ->
  firstSegment (Js.join "/" segs) = List.hd "" segs.
Proof.
  intros Hne Hplain Hslash. unfold firstSegment.
  rewrite (normalize_plain segs Hne Hplain Hslash).
  now rewrite (split_join Path.sep segs Hne Hslash
               : Js.split Path.sep (Js.join "/" segs) = segs).
Qed.

Lemma hasChar_app c a b : Js.hasChar c (a ++ b) = Js.hasChar c a || Js.hasChar c b.
Proof.
  induction a as [|x a IH]; [reflexivity|].
  rewrite append_cons. simpl. now rewrite IH, orb_assoc.
Qed.

Lemma expandReplacement_plain r before matched after :
  Js.hasChar "$"%char r = false ->
  Js.expandReplacement r before matched after = r.
Proof.
  induction r as [|x r IH]; [reflexivity|]. intros H.
  cbn [Js.hasChar] in H. apply orb_false_iff in H as [Hx Hr].
  cbn [Js.expandReplacement]. rewrite Hx. now rewrite (IH Hr).
Qed.

Lemma replaceAll_noChar c r s :
  Js.hasChar "$"%char r = false ->
  Js.hasChar c r = false -> Js.hasChar c (Js.replaceAll c r s) = false.
Proof.
  intros Hplain Hr. unfold Js.replaceAll. generalize EmptyString as before.
  induction s as [|a s IH]; intros before; [reflexivity|].
  cbn [Js.replaceAllFrom]. destruct (Ascii.eqb a c) eqn:E.
  - rewrite (expandReplacement_plain _ _ _ _ Hplain).
    now rewrite hasChar_app, Hr, IH.
  - cbn [Js.hasChar]. now rewrite E, IH.
Qed.

Section Names.
Context `{C : Collaborators}.
Variable flags : Flags.

(** X29. For an analysed directory made of plain segments whose first segment is
    a top-level entry of [base_dir], [resolveAbsolute] of a relative path
    made of plain segments whose first segment is no top-level entry
    returns after one retry: the directory and the path joined onto
    [base_dir]. *)
Theorem plain_path_resolves_in_two_steps s l dsegs psegs fuel :
  Readable flags s l (Js.join "/" dsegs) ->
  dsegs <> [] -> psegs <> [] ->
  Forall plainSegment (dsegs ++ psegs) ->
  Forall (fun w => Js.hasChar Path.sep w = false) (dsegs ++ psegs) ->
  includes l (List.hd "" dsegs) = true ->
  includes l (List.hd "" psegs) = false ->
  resolveAbsolute flags (S (S fuel)) (Js.join "/" psegs) s
  = Returned (Path.join [base_dir flags; Js.join "/" (dsegs ++ psegs)]) (cached l s).
Proof.
  intros HR Hd Hp Hplain Hslash Hin Hout.
  apply List.Forall_app in Hplain as [Hpd Hpp].
  apply List.Forall_app in Hslash as [Hsd Hsp].
  assert (Hpabs : Path.isAbsolute (Js.join "/" psegs) = false).
  { destruct psegs as [|[|c w] ws]; [now elim Hp| |].
    - apply List.Forall_inv in Hpp. now destruct Hpp as [Hne _].
    - apply List.Forall_inv in Hsp. now apply plain_head. }
  assert (Hdhead : Path.isAbsolute (Js.join "/" dsegs) = false
                   /\ Js.truthy (Js.join "/" dsegs) = true).
  { destruct dsegs as [|[|c w] ws]; [now elim Hd| |].
    - apply List.Forall_inv in Hpd. now destruct Hpd as [Hne _].
    - apply List.Forall_inv in Hsd. now apply plain_head. }
  assert (Hptruthy : Js.truthy (Js.join "/" psegs) = true).
  { destruct psegs as [|[|c w] ws]; [now elim Hp| |].
    - apply List.Forall_inv in Hpp. now destruct Hpp as [Hne _].
    - apply List.Forall_inv in Hsp. now apply plain_head. }
  assert (Hws : wsRelative l (Js.join "/" psegs) = false).
  { unfold wsRelative. now rewrite (firstSegment_plain psegs Hp Hpp Hsp). }
  assert (Hall : (dsegs ++ psegs)%list <> []) by (destruct dsegs; [now elim Hd | discriminate]).
  assert (Hrel : resolveRel l (Js.join "/" dsegs) (Js.join "/" psegs)
                 = Js.join "/" (dsegs ++ psegs)%list).
  { unfold resolveRel. rewrite Hws. unfold Path.join. cbn [List.filter].
    rewrite (proj2 Hdhead), Hptruthy.
    rewrite (join_app_plain dsegs psegs Hd Hp).
    destruct (Js.join "/" dsegs :: [Js.join "/" psegs]) eqn:E; [discriminate|].
    apply normalize_plain; [exact Hall | now apply List.Forall_app | now apply List.Forall_app]. }
  rewrite (resolveAbsolute_hop flags _ _ _ _ _ HR Hpabs Hws), Hrel.
  assert (Habs : Path.isAbsolute (Js.join "/" (dsegs ++ psegs)%list) = false).
  { destruct dsegs as [|[|c w] ws]; [now elim Hd| |].
    - apply List.Forall_inv in Hpd. now destruct Hpd as [Hne _].
    - apply List.Forall_inv in Hsd. cbn [List.app]. now apply plain_head. }
  assert (Hrelws : wsRelative l (Js.join "/" (dsegs ++ psegs)%list) = true).
  { unfold wsRelative.
    rewrite (firstSegment_plain _ Hall); [|now apply List.Forall_app..].
    destruct dsegs; [now elim Hd | exact Hin]. }
  exact (resolveAbsolute_workspace_relative flags (cached l s) l fuel _ eq_refl Habs Hrelws).
Qed.

(** X30. Without static mapping and without query, [getLabelForFile] asks
    [getLabelFor] for the directory of the file with a target that ends in
    the separator followed by the suffix when a suffix is given, and that
    holds no dash when the separator holds neither a dash nor a dollar sign
    (which [replace] would expand) and the suffix holds no dash. *)
Theorem heuristic_rule_name s l d fuel p suffix strip :
  Readable flags s l d ->
  label_mapping flags !! resolveRel l d p = None ->
  use_bazel_query flags = false ->
  getLabelForFile flags fuel p suffix strip s
  = getLabelFor flags fuel (Path.dir (Path.parse (resolveRel l d p)))
      (ruleName flags (resolveRel l d p) suffix strip) (cached l s) /\
  (Js.truthy suffix = true ->
   Js.endsWith (ruleName flags (resolveRel l d p) suffix strip)
     (suffix_separator flags ++ suffix) = true) /\
  (Js.hasChar "-"%char (suffix_separator flags) = false ->
   Js.hasChar "$"%char (suffix_separator flags) = false ->
   Js.hasChar "-"%char suffix = false ->
   Js.hasChar "-"%char (ruleName flags (resolveRel l d p) suffix strip) = false).
Proof.
  intros HR Hmap Hq. split; [|split].
  - unfold getLabelForFile.
    rewrite (bind_Returned _ _ _ _ _ (resolveRelativeToWorkspace_eq flags _ _ _ p HR)).
    rewrite (bind_Returned _ _ _ _ _ (static_lookup_eq flags _ _)).
    rewrite Hmap, Hq. simpl. unfold bind at 1, ret at 1. reflexivity.
  - intros Hs. unfold ruleName. rewrite Hs. apply endsWith_app.
  - intros Hsep Hdollar Hsuf. unfold ruleName.
    assert (Hne : String.eqb (suffix_separator flags) "-" = false).
    { destruct (String.eqb (suffix_separator flags) "-") eqn:E; [|reflexivity].
      apply String.eqb_eq in E. rewrite E in Hsep. discriminate. }
    rewrite Hne. cbn [negb].
    destruct (Js.truthy suffix).
    + rewrite !hasChar_app, Hsep, Hsuf.
      now rewrite (replaceAll_noChar _ _ _ Hdollar Hsep).
    + now apply replaceAll_noChar.
Qed.

End Names.

(** * The further scenes, run *)

Module MoreRuns.

Import Sample Scenes.

Lemma seeded_generate :
  @generate (collaborators 0) flags 1 seeded = Returned tt seededGenerated.
Proof.
  vm_cast_no_check (@eq_refl (@Outcome (collaborators 0) unit) (Returned tt seededGenerated)).
Qed.

Lemma seeded_ends : endsIn (@generate (collaborators 0) flags 1 seeded) seededGenerated.
Proof. vm_cast_no_check (@eq_refl (@State (collaborators 0)) (seededGenerated)). Qed.

Lemma broken_generate :
  @generate (collaborators 0) flags 1 broken = Thrown TypeError brokenEnd.
Proof. vm_cast_no_check (@eq_refl (@Outcome (collaborators 0) unit) (Thrown TypeError brokenEnd)). Qed.

Lemma listing_snapshot_is_kept_witness : listing seededGenerated = Some topLevel.
Proof.
  apply (@listing_snapshot_is_kept (collaborators 0) flags 1 seeded seededGenerated topLevel).
  - reflexivity.
  - exact seeded_ends.
Defined.

Lemma query_cache_only_grows_witness :
  fileQueryResultCache seededGenerated !! "lib/x.ts" = Some "//lib:x".
Proof.
  apply (@query_cache_only_grows (collaborators 0) flags 1 seeded seededGenerated
           "lib/x.ts" "//lib:x").
  - reflexivity.
  - exact seeded_ends.
Defined.

Lemma generate_is_read_only_witness :
  fs seededGenerated = fs seeded /\ spawned seededGenerated = spawned seeded /\
  fileQueryResultCache seededGenerated = fileQueryResultCache seeded /\
  console seededGenerated = console seeded.
Proof.
  apply (@generate_is_read_only (collaborators 0) flags 1 seeded seededGenerated).
  - reflexivity.
  - reflexivity.
  - exact seeded_ends.
Defined.

Lemma failed_generate_records_nothing_witness : buildozer brokenEnd = buildozer broken.
Proof.
  exact (@failed_generate_records_nothing (collaborators 0) flags 1 broken TypeError
           brokenEnd broken_generate).
Defined.

Lemma asked_query :
  @queryForFile answering queryFlags "src/app/b.ts" asked
  = Returned (Some "//src/app:b") answered.
Proof. vm_cast_no_check (@eq_refl (@Outcome answering (option string)) (Returned (Some "//src/app:b") answered)). Qed.

Lemma query_hit_is_cached_witness :
  fileQueryResultCache answered !! "src/app/b.ts" = Some "//src/app:b" /\
  @queryForFile answering queryFlags "src/app/b.ts" answered
  = Returned (Some "//src/app:b") answered.
Proof.
  exact (@query_hit_is_cached answering queryFlags "src/app/b.ts" asked "//src/app:b"
           answered asked_query).
Defined.

Lemma missed_query :
  @queryForFile (collaborators 0) queryFlags "src/app/b.ts" (initial 0)
  = Returned None missed.
Proof. vm_cast_no_check (@eq_refl (@Outcome (collaborators 0) (option string)) (Returned None missed)). Qed.

Lemma query_miss_is_not_cached_witness :
  fileQueryResultCache missed = fileQueryResultCache (initial 0) /\
  fileQueryResultCache (initial 0) !! "src/app/b.ts" = None /\
  spawned missed
  = (spawned (initial 0) ++ [@queryCommand queryFlags "src/app/b.ts"])%list /\
  spawned missed <> spawned (initial 0).
Proof.
  exact (@query_miss_is_not_cached (collaborators 0) queryFlags "src/app/b.ts" (initial 0)
           missed missed_query).
Defined.

Lemma resolveAbsolute_returns_absolute_witness :
  Path.isAbsolute "/ws/src/app/x" = true.
Proof.
  apply (@resolveAbsolute_returns_absolute (collaborators 0) flags 3 "../../x" (initial 0)
           "/ws/src/app/x" (cached topLevel (initial 0))).
  - reflexivity.
  - exact (proj2 Runs.resolveAbsolute_takes_two_hops).
Defined.

Lemma generate_on_a_missing_path_witness :
  @generate (collaborators 0) (flagsFor "src/nowhere" "commands.txt") 1 (initial 0)
  = Thrown (ENOENT "/ws/src/nowhere") (initial 0).
Proof.
  apply (@generate_on_a_missing_path (collaborators 0) (flagsFor "src/nowhere" "commands.txt")
           1 (initial 0)).
  reflexivity.
Defined.

Lemma generate_records_one_rule_witness :
  exists label srcs deps,
    buildozer seededGenerated
    = (buildozer seeded
         ++ [NewTsLibraryRule label; SetSrcs srcs; AddDeps deps]
         ++ @ruleTail (collaborators 0) flags)%list /\
    Forall (fun src => Js.hasChar "/"%char src = false /\ Js.endsWith src ".ts" = true) srcs.
Proof.
  exact (@generate_records_one_rule (collaborators 0) flags 1 seeded seededGenerated
           seeded_generate).
Defined.

Lemma file_generate :
  @generate (collaborators 0) fileFlags 1 (initial 0) = Returned tt fileGenerated.
Proof. vm_cast_no_check (@eq_refl (@Outcome (collaborators 0) unit) (Returned tt fileGenerated)). Qed.

Lemma generate_on_a_file_records_an_empty_rule_witness :
  reads fileGenerated = reads (initial 0) /\
  exists label,
    buildozer fileGenerated
    = (buildozer (initial 0)
         ++ [NewTsLibraryRule label; SetSrcs []; AddDeps []]
         ++ @ruleTail (collaborators 0) fileFlags)%list.
Proof.
  apply (@generate_on_a_file_records_an_empty_rule (collaborators 0) fileFlags 1 (initial 0)
           fileGenerated (NFile ("'./b'" ++ nl ++ "'lodash'"))).
  - reflexivity.
  - discriminate.
  - exact file_generate.
Defined.

Lemma shadowed_entry_is_read_from_the_root_witness :
  exists files,
    @readDirectory (collaborators 0) flags shadowed
    = Returned files (cached topLevel shadowed) /\
    In "index.ts" files /\
    @readFile (collaborators 0) flags 1 "index.ts" (cached topLevel shadowed)
    = readFileSync (Path.join [base_dir flags; "index.ts"]) (cached topLevel shadowed).
Proof.
  apply (@shadowed_entry_is_read_from_the_root (collaborators 0) flags shadowed topLevel
           ["index.ts"; "a.ts"] "index.ts" 0).
  - reflexivity.
  - reflexivity.
  - simpl. left. reflexivity.
  - reflexivity.
  - reflexivity.
Defined.

Lemma double_quoted_specifier_aborts_witness :
  (forall labels' s1,
      @processTsFileAst (collaborators 0) flags 1 ["'lodash'"; quote ++ "./b" ++ quote] []
        ["src/app/a.ts"; "src/app/b.ts"] "npm" [] (initial 0)
      <> Returned labels' s1) /\
  (forall l, theListing flags (initial 0) = Some l ->
             @resolveLabelFromModuleSpecifier (collaborators 0) flags 1
               (quote ++ "./b" ++ quote) ["src/app/a.ts"; "src/app/b.ts"] "npm" (initial 0)
             = Thrown TypeError (cached l (initial 0))).
Proof.
  apply (@double_quoted_specifier_aborts (collaborators 0) flags 1
           ["'lodash'"; quote ++ "./b" ++ quote] [] ["src/app/a.ts"; "src/app/b.ts"] "npm" []
           (initial 0) (quote ++ "./b" ++ quote)).
  - simpl. right. left. reflexivity.
  - reflexivity.
Defined.


(** The same call when the command file is to go into a directory that
    does not exist: the write fails and the call throws. *)
Lemma commands_file_needs_its_directory :
  @invokeBuildozer (collaborators 0) (flagsFor "src/app" "out/commands.txt") (withRule 0)
  = Thrown (ENOENT "/ws/out/commands.txt") (withRule 0).
Proof. vm_compute. reflexivity. Qed.

Lemma build_file_is_kept_unless_nuked_witness :
  exists s1,
    @prepareBuildFile (collaborators 0) flags (initial 0) = Returned tt s1 /\
    spawned s1 = spawned (initial 0) /\ console s1 = console (initial 0) /\
    fs s1 = <["/ws/src/app/BUILD" := NFile ""]> files.
Proof.
  destruct (@build_file_is_kept_unless_nuked (collaborators 0) flags (initial 0)
              ["a.spec.ts"; "a.ts"; "b.ts"] eq_refl ltac:(discriminate))
    as (s1 & H1 & H2 & H3 & H4).
  exists s1. repeat split; assumption.
Defined.

Lemma validated_path_is_listed_witness :
  true = true /\ initial 0 = initial 0 /\
  exists entries,
    fs (initial 0) !! @getAbsolutePath flags = Some (NDir entries) /\
    @readDirectory (collaborators 0) flags (initial 0)
    = Returned (List.map (resolveRel topLevel (@getPathFromBaseDir flags)) entries)
               (match entries with [] => initial 0 | _ => cached topLevel (initial 0) end).
Proof.
  apply (@validated_path_is_listed (collaborators 0) flags (initial 0) true (initial 0)
           topLevel).
  - reflexivity.
  - reflexivity.
Defined.

Lemma unvalidated_path_exits_witness :
  @validate (collaborators 0) fileFlags (initial 0)
  = Thrown (ProcessExit 1)
      (reported LFatal "Path passed to Typescript generator must be a directory"
         (initial 0)).
Proof.
  apply (@unvalidated_path_exits (collaborators 0) fileFlags (initial 0)
           (NFile ("'./b'" ++ nl ++ "'lodash'"))).
  - reflexivity.
  - discriminate.
Defined.

Lemma readFileAtPath_reads_the_analysed_file_witness :
  @readFileAtPath (collaborators 0) fileFlags 1 (initial 0)
  = Returned (Some ("'./b'" ++ nl ++ "'lodash'"))
      (appendRead (@getAbsolutePath fileFlags) (cached topLevel (initial 0))).
Proof.
  apply (@readFileAtPath_reads_the_analysed_file (collaborators 0) fileFlags (initial 0)
           topLevel 0).
  - reflexivity.
  - reflexivity.
  - reflexivity.
  - reflexivity.
Defined.

Lemma warm_readable : @Readable (collaborators 0) mappedFlags warm topLevel "src/app".
Proof.
  split; [reflexivity|].
  exists (NDir ["a.spec.ts"; "a.ts"; "b.ts"]). split; reflexivity.
Qed.

Lemma cached_query_label_wins_witness :
  @getLabelForFile (collaborators 0) mappedFlags 0 "./b.ts" "" true warm
  = Returned "//custom:b" (cached topLevel warm).
Proof.
  apply (@cached_query_label_wins (collaborators 0) mappedFlags warm topLevel "src/app" 0
           "./b.ts" "" true "//custom:b").
  - exact warm_readable.
  - reflexivity.
  - reflexivity.
  - reflexivity.
Defined.

Lemma pathMapped_readable :
  @Readable (collaborators 0) pathMappedFlags (initial 0) topLevel "src/app".
Proof.
  split; [reflexivity|].
  exists (NDir ["a.spec.ts"; "a.ts"; "b.ts"]). split; reflexivity.
Qed.

Lemma mapped_path_ignores_target_witness :
  @getLabelFor (collaborators 0) pathMappedFlags 0 "legacy" "lib" (initial 0)
  = Returned "//third_party:legacy" (cached topLevel (initial 0)) /\
  @getLabelForFile (collaborators 0) pathMappedFlags 0 "legacy" "lib" true (initial 0)
  = Returned "//third_party:legacy" (cached topLevel (initial 0)).
Proof.
  apply (@mapped_path_ignores_target (collaborators 0) pathMappedFlags (initial 0) topLevel
           "src/app" 0 "legacy" "lib" true "//third_party:legacy").
  - exact pathMapped_readable.
  - reflexivity.
Defined.

Lemma sample_processed :
  foldM (fun deps file =>
           @processFile (collaborators 0) flags 1 file
             ["src/app/a.ts"; "src/app/b.ts"] "npm" deps)
        ["src/app/a.ts"; "src/app/b.ts"] ["//seed"] (initial 0)
  = Returned processedLabels processedState.
Proof. vm_cast_no_check (@eq_refl (@Outcome (collaborators 0) (list string)) (Returned processedLabels processedState)). Qed.

Lemma earlier_dependencies_keep_their_position_witness :
  exists added, processedLabels = (["//seed"] ++ added)%list.
Proof.
  exact (@earlier_dependencies_keep_their_position (collaborators 0) flags 1
           ["src/app/a.ts"; "src/app/b.ts"] ["src/app/a.ts"; "src/app/b.ts"] "npm"
           ["//seed"] (initial 0) processedLabels processedState sample_processed).
Defined.

Lemma last_mapping_wins_witness :
  coerceMappingFlag
    (["lodash=//old:lodash"] ++ ("lodash" ++ "=" ++ "//third_party:lodash=x")
       :: ["rxjs=//third_party:rxjs"]) !! "lodash"
  = Some (Some (List.hd "" (Js.split "="%char "//third_party:lodash=x"))) /\
  (Js.hasChar "="%char "//third_party:lodash=x" = false ->
   coerceMappingFlag
     (["lodash=//old:lodash"] ++ ("lodash" ++ "=" ++ "//third_party:lodash=x")
        :: ["rxjs=//third_party:rxjs"]) !! "lodash"
   = Some (Some "//third_party:lodash=x")) /\
  coerceMappingFlag (["lodash=//old:lodash"] ++ "lodash" :: ["rxjs=//third_party:rxjs"])
    !! "lodash"
  = Some None.
Proof.
  apply (last_mapping_wins ["lodash=//old:lodash"] ["rxjs=//third_party:rxjs"] "lodash"
           "//third_party:lodash=x").
  - reflexivity.
  - constructor; [discriminate | constructor].
Defined.

Lemma coerced_base_dir_is_absolute_witness :
  Path.isAbsolute (coerceBaseDir None "/home/dev/ws" "../other") = true /\
  coerceBaseDir None "/home/dev/ws" "../other" = "/home/dev/other".
Proof.
  split; [|reflexivity].
  apply (coerced_base_dir_is_absolute None "/home/dev/ws" "../other").
  - reflexivity.
  - intros dir H. discriminate H.
Defined.

Lemma query_names_the_file_witness :
  @queryCommand queryFlags ("src/app" ++ "/" ++ "b.ts")
  = "bazel query --output label --order_output=no "
      ++ quote ++ "attr('src', //src/app:b.ts, //...)" ++ quote ++ " + "
      ++ quote ++ "attr('srcs', //src/app:b.ts, //...)" ++ quote.
Proof.
  rewrite (@query_names_the_file queryFlags "src/app" "b.ts" eq_refl). reflexivity.
Defined.

Lemma rc_found_through_runfiles_is_not_read_witness :
  @loadRc (collaborators 0) false (Some (Some "/runfiles/ws/.bzlgenrc")) true
    ["ts"; "src/app"] runfiles
  = Returned ["ts"; "src/app"]
      (reported LDebug ("Loading args from " ++ "/runfiles/ws/.bzlgenrc") runfiles).
Proof.
  apply (@rc_found_through_runfiles_is_not_read (collaborators 0) "/runfiles/ws/.bzlgenrc"
           true ["ts"; "src/app"] runfiles "--nuke_build_file").
  - reflexivity.
  - reflexivity.
Defined.

Lemma plain_path_resolves_in_two_steps_witness :
  @resolveAbsolute (collaborators 0) flags 2 "a.ts" (initial 0)
  = Returned "/ws/src/app/a.ts" (cached topLevel (initial 0)).
Proof.
  apply (@plain_path_resolves_in_two_steps (collaborators 0) flags (initial 0) topLevel
           ["src"; "app"] ["a.ts"] 0).
  - exact (Runs.sample_readable 0).
  - discriminate.
  - discriminate.
  - repeat constructor; discriminate.
  - repeat constructor.
  - reflexivity.
  - reflexivity.
Defined.

Lemma underscore_readable :
  @Readable (collaborators 0) underscoreFlags (initial 0) topLevel "src/app".
Proof.
  split; [reflexivity|].
  exists (NDir ["a.spec.ts"; "a.ts"; "b.ts"]). split; reflexivity.
Qed.

Lemma heuristic_rule_name_witness :
  @getLabelForFile (collaborators 0) underscoreFlags 1 "./my-file.ts" "lib" true (initial 0)
  = @getLabelFor (collaborators 0) underscoreFlags 1
      (Path.dir (Path.parse (resolveRel topLevel "src/app" "./my-file.ts")))
      (@ruleName (collaborators 0) underscoreFlags
         (resolveRel topLevel "src/app" "./my-file.ts") "lib" true)
      (cached topLevel (initial 0)) /\
  (Js.truthy "lib" = true ->
   Js.endsWith (@ruleName (collaborators 0) underscoreFlags
                  (resolveRel topLevel "src/app" "./my-file.ts") "lib" true)
     (suffix_separator underscoreFlags ++ "lib") = true) /\
  (Js.hasChar "-"%char (suffix_separator underscoreFlags) = false ->
   Js.hasChar "$"%char (suffix_separator underscoreFlags) = false ->
   Js.hasChar "-"%char "lib" = false ->
   Js.hasChar "-"%char (@ruleName (collaborators 0) underscoreFlags
                          (resolveRel topLevel "src/app" "./my-file.ts") "lib" true)
   = false).
Proof.
  apply (@heuristic_rule_name (collaborators 0) underscoreFlags (initial 0) topLevel
           "src/app" 1 "./my-file.ts" "lib" true).
  - exact underscore_readable.
  - reflexivity.
  - reflexivity.
Defined.

(** The rule name of [my-file.ts] with the separator [_] and the suffix
    [lib]; with the separator [$&] the dash would stay. *)
Lemma underscore_rule_name :
  @ruleName (collaborators 0) underscoreFlags "src/app/my-file.ts" "lib" true
  = "my_file_lib" /\
  Js.replaceAll "-"%char "$&" "my-file" = "my-file".
Proof. split; reflexivity. Qed.

End MoreRuns.
